(** * youlearn-local-ollama: a shallow embedding of the content-generation core

    The development follows the TypeScript sources:

    - [src/types/content.ts]            the records of the data model;
    - [src/pages/StudyDashboard.tsx]    the flashcard and quiz parsers and the
                                        three generation operations;
    - [components/ContentProvider.tsx]  the content store;
    - [components/OllamaProvider.tsx]   the language-model client;
    - [src/utils/pdfProcessor.ts]       PDF text extraction.

    Strings are lists of code units.  Only the code units below 256 are
    modelled (the Latin-1 part of UTF-16), each one as an [ascii]. *)

From Stdlib Require Import List Ascii String Bool Arith ZArith NArith Lia.
From Stdlib Require Import DecimalString DecimalNat.
Import ListNotations.

Set Implicit Arguments.

(* ===================================================================== *)
(** * Part I: the program                                                 *)
(* ===================================================================== *)

(** ** JavaScript strings and arrays: the built-ins the sources call *)

Module Js.

Definition str := list ascii.

(** A string literal of the source. *)
Definition lit (s : string) : str := list_ascii_of_string s.

Definition str_eqb (a b : str) : bool :=
  if list_eq_dec ascii_dec a b then true else false.

(** Truthiness of a string value: only the empty string is falsy. *)
Definition truthy (s : str) : bool :=
  match s with [] => false | _ :: _ => true end.

(** WhiteSpace and LineTerminator code units below 256: TAB, LF, VT, FF, CR,
    SPACE and NBSP.  The same set is used by [trim] and by the regular
    expression class [\s]. *)
Definition isSpace (c : ascii) : bool :=
  let n := nat_of_ascii c in
  ((9 <=? n) && (n <=? 13)) || (n =? 32) || (n =? 160).

Fixpoint dropSpaces (s : str) : str :=
  match s with
  | c :: s' => if isSpace c then dropSpaces s' else s
  | [] => []
  end.

Definition trimStart (s : str) : str := dropSpaces s.
Definition trimEnd (s : str) : str := rev (dropSpaces (rev s)).

(** [String.prototype.trim] *)
Definition trim (s : str) : str := trimEnd (trimStart s).

(** [String.prototype.toLowerCase], code unit by code unit: the letters A-Z
    and the Latin-1 capitals 192-222 (215, the multiplication sign, apart). *)
Definition lowerChar (c : ascii) : ascii :=
  let n := nat_of_ascii c in
  if ((65 <=? n) && (n <=? 90))
     || ((192 <=? n) && (n <=? 222) && negb (n =? 215))
  then ascii_of_nat (n + 32) else c.

Definition toLowerCase (s : str) : str := map lowerChar s.

(** [String.prototype.startsWith] *)
Fixpoint startsWith (p s : str) : bool :=
  match p, s with
  | [], _ => true
  | _ :: _, [] => false
  | a :: p', b :: s' => if ascii_dec a b then startsWith p' s' else false
  end.

(** [String.prototype.includes] *)
Fixpoint includes (sub s : str) : bool :=
  startsWith sub s ||
  match s with
  | [] => false
  | _ :: s' => includes sub s'
  end.

(** [String.prototype.replace] with a string pattern: the first occurrence
    only. *)
Fixpoint replace (pat rep s : str) : str :=
  if startsWith pat s then rep ++ skipn (List.length pat) s
  else match s with
       | [] => []
       | c :: s' => c :: replace pat rep s'
       end.

(** [String.prototype.split] with a non-empty string separator.  [skip]
    counts the code units of a separator that has just been matched and is
    still to be passed over; [cur] is the current piece, reversed. *)
Fixpoint splitGo (sep : str) (skip : nat) (cur : str) (s : str) : list str :=
  match s with
  | [] => [rev cur]
  | c :: s' =>
      match skip with
      | S k => splitGo sep k cur s'
      | O => if startsWith sep s
             then rev cur :: splitGo sep (List.length sep - 1) [] s'
             else splitGo sep 0 (c :: cur) s'
      end
  end.

Definition split (sep s : str) : list str :=
  match sep with
  | [] => map (fun c => [c]) s
  | _ :: _ => splitGo sep 0 [] s
  end.

(** [Array.prototype.join] *)
Fixpoint join (sep : str) (l : list str) : str :=
  match l with
  | [] => []
  | [a] => a
  | a :: l' => a ++ sep ++ join sep l'
  end.

(** [Array.prototype.slice(from, to)] for indices within the usual range. *)
Definition slice {A} (from to : nat) (l : list A) : list A :=
  firstn (to - from) (skipn from l).

(** [Array.prototype.indexOf]: -1 when the element is absent. *)
Fixpoint indexOfFrom {A} (eqb : A -> A -> bool) (x : A) (l : list A) (i : Z) : Z :=
  match l with
  | [] => (-1)%Z
  | y :: l' => if eqb y x then i else indexOfFrom eqb x l' (i + 1)%Z
  end.

Definition indexOf {A} (eqb : A -> A -> bool) (x : A) (l : list A) : Z :=
  indexOfFrom eqb x l 0%Z.

(** [Array.prototype.map] with the index argument. *)
Fixpoint mapiFrom {A B} (f : A -> nat -> B) (i : nat) (l : list A) : list B :=
  match l with
  | [] => []
  | a :: l' => f a i :: mapiFrom f (S i) l'
  end.

Definition mapi {A B} (f : A -> nat -> B) (l : list A) : list B :=
  mapiFrom f 0 l.

(** [Number.prototype.toString] of a non-negative integer. *)
Definition natToString (n : nat) : str :=
  lit (NilEmpty.string_of_uint (Nat.to_uint n)).

Definition NToString (n : N) : str :=
  lit (NilEmpty.string_of_uint (N.to_uint n)).

(** *** The regular expressions of the sources *)

(** The character class [[A-D]]. *)
Definition isAD (c : ascii) : bool :=
  let n := nat_of_ascii c in (65 <=? n) && (n <=? 68).

(** [s.match(/[A-D]/)?.[0]]: the first code unit of the class, if any. *)
Definition matchAD (s : str) : option ascii := find isAD s.

(** [s.replace(/^[A-D]\)\s*/, '')] *)
Definition stripOptionLabel (s : str) : str :=
  match s with
  | c :: p :: rest =>
      if isAD c && (nat_of_ascii p =? 41) then dropSpaces rest else s
  | _ => s
  end.

(** Canonicalisation of a code unit under the [i] flag, restricted to what
    a comparison with an ASCII pattern can observe: ASCII letters fold to
    one case, and no code unit above 127 folds to an ASCII one. *)
Definition foldCase (c : ascii) : ascii :=
  let n := nat_of_ascii c in
  if (65 <=? n) && (n <=? 90) then ascii_of_nat (n + 32) else c.

Fixpoint startsWithCI (p s : str) : bool :=
  match p, s with
  | [], _ => true
  | _ :: _, [] => false
  | a :: p', b :: s' =>
      if ascii_dec (foldCase a) (foldCase b) then startsWithCI p' s' else false
  end.

(** [s.replace(/explanation:\s*/i, '')]: the leftmost match of the marker,
    with the white space after it, is removed. *)
Fixpoint stripExplanationMarker (s : str) : str :=
  if startsWithCI (lit "explanation:") s
  then dropSpaces (skipn (List.length (lit "explanation:")) s)
  else match s with
       | [] => []
       | c :: s' => c :: stripExplanationMarker s'
       end.

(** *** Thrown values and settled promises *)

(** What a [throw] or a rejected promise carries.  An [Error] instance,
    with its [name] and [message].  Or [undefined] or [null], of which no
    property can be read: [complaint] is the message of the [TypeError]
    that the engine throws on the attempt.  Or any other value: [name] is
    the string its [name] property holds, [message] the string its
    [message] property holds, [None] where it has no such property. *)
Inductive Thrown :=
| thrownError (name message : str)
| thrownNullish (complaint : str)
| thrownValue (name message : option str).

(** [error instanceof Error ? error.message : fallback] *)
Definition messageOr (fallback : str) (e : Thrown) : str :=
  match e with
  | thrownError _ message => message
  | thrownNullish _ | thrownValue _ _ => fallback
  end.

End Js.

(** ** The data model ([src/types/content.ts]) *)

Module Content.
Import Js.

Inductive ContentType := pdf | youtube | text.

Inductive Difficulty := easy | medium | hard.

(** Dates are milliseconds since the epoch. *)
Definition Date := N.

Record Flashcard := {
  fc_id : str;
  front : str;
  back : str;
  difficulty : Difficulty;
  lastReviewed : option Date
}.

Record QuizQuestion := {
  qq_id : str;
  question : str;
  options : list str;
  correctAnswer : Z;
  explanation : option str
}.

Record StudyContent := {
  id : str;
  title : str;
  type : ContentType;
  content : str;
  summary : option str;
  flashcards : option (list Flashcard);
  quiz : option (list QuizQuestion);
  createdAt : Date
}.

End Content.

(** ** The response parsers of [StudyDashboard.tsx] *)

Module Parser.
Import Js Content.

(** *** Flashcards: the chain [split / filter / map / filter] of
    [generateFlashcards] *)

Definition isFlashcardLine (line : str) : bool :=
  includes (lit "Q:") line && includes (lit "A:") line.

(** The callback of [map]: [const [front, back] = line.split(' | A: ')]. *)
Definition flashcardOfLine (contentId : str) (line : str) (index : nat)
  : Flashcard :=
  let parts := split (lit " | A: ") line in
  let front := hd [] parts in
  let back := nth_error parts 1 in
  {| fc_id := contentId ++ lit "-flashcard-" ++ natToString index;
     front := trim (replace (lit "Q: ") [] front);
     back := match back with
             | Some b => if truthy (trim b) then trim b else []
             | None => []
             end;
     difficulty := medium;
     lastReviewed := None |}.

Definition isCompleteCard (card : Flashcard) : bool :=
  truthy (front card) && truthy (back card).

(** The chain after [split]: [.filter(...).map(...).filter(...)]. *)
Definition cardsOfLines (contentId : str) (lines : list str) : list Flashcard :=
  filter isCompleteCard
    (mapi (flashcardOfLine contentId) (filter isFlashcardLine lines)).

Definition parseFlashcards (contentId : str) (flashcardsText : str)
  : list Flashcard :=
  cardsOfLines contentId (split (lit "
") flashcardsText).

(** *** Quiz questions: the loop of [generateQuiz] *)

Definition nonBlank (s : str) : bool := truthy (trim s).

Definition hasCorrectMarker (line : str) : bool :=
  includes (lit "correct:") (toLowerCase line).

Definition hasExplanationMarker (line : str) : bool :=
  includes (lit "explanation:") (toLowerCase line).

Definition letters : list ascii := ["A"; "B"; "C"; "D"]%char.

Definition ascii_eqb (a b : ascii) : bool :=
  if ascii_dec a b then true else false.

(** [correctLine?.match(/[A-D]/)?.[0]] and the conditional after it. *)
Definition correctAnswerOf (lines : list str) : Z :=
  let correctLine := find hasCorrectMarker lines in
  let correctLetter :=
    match correctLine with
    | Some l => matchAD l
    | None => None
    end in
  match correctLetter with
  | Some c => indexOf ascii_eqb c letters
  | None => 0%Z
  end.

Definition explanationOf (lines : list str) : str :=
  match find hasExplanationMarker lines with
  | Some l => stripExplanationMarker l
  | None => []
  end.

Definition blockLines (block : str) : list str :=
  filter nonBlank (split (lit "
") block).

(** The object pushed for block [i], once the block has its six lines. *)
Definition questionOfLines (contentId : str) (i : nat) (lines : list str)
  : QuizQuestion :=
  {| qq_id := contentId ++ lit "-quiz-" ++ natToString i;
     question := trim (nth 0 lines []);
     options := map (fun line => trim (stripOptionLabel line)) (slice 1 5 lines);
     correctAnswer := correctAnswerOf lines;
     explanation := Some (explanationOf lines) |}.

(** The body of the [for] loop: what block [i] adds to [questions]. *)
Definition questionsOfBlock (contentId : str) (i : nat) (block : str)
  : list QuizQuestion :=
  let lines := blockLines block in
  if 6 <=? List.length lines then [questionOfLines contentId i lines] else [].

(** [for (let i = 0; i < questionBlocks.length && i < 5; i++)], with
    [blocks] the blocks from index [i] on. *)
Fixpoint quizLoop (contentId : str) (blocks : list str) (i : nat)
  (questions : list QuizQuestion) : list QuizQuestion :=
  match blocks with
  | [] => questions
  | block :: rest =>
      if i <? 5
      then quizLoop contentId rest (S i)
             (questions ++ questionsOfBlock contentId i block)
      else questions
  end.

Definition questionBlocksOf (quizText : str) : list str :=
  filter nonBlank (split (lit "Q:") quizText).

Definition parseQuiz (contentId : str) (quizText : str) : list QuizQuestion :=
  quizLoop contentId (questionBlocksOf quizText) 0 [].

End Parser.

(** ** The properties of the parsers, in the words of the specification *)

Module ParserSpec.
Import Js Content Parser.

(** [x] is the first element of [l] that satisfies [P]. *)
Definition firstSuch {A} (P : A -> Prop) (l : list A) (x : A) : Prop :=
  exists i, nth_error l i = Some x /\ P x /\
    forall j y, j < i -> nth_error l j = Some y -> ~ P y.

Definition noneSuch {A} (P : A -> Prop) (l : list A) : Prop :=
  forall y, In y l -> ~ P y.

(** [line] contains [marker] up to the case of its letters. *)
Definition containsCI (marker line : str) : Prop :=
  exists pre m post, line = pre ++ m ++ post /\ toLowerCase m = marker.

Definition hasCorrect (line : str) : Prop := containsCI (lit "correct:") line.

(** One of the letters A, B, C, D. *)
Definition letterAD (c : ascii) : Prop :=
  c = "A"%char \/ c = "B"%char \/ c = "C"%char \/ c = "D"%char.

(** A = 0, B = 1, C = 2, D = 3. *)
Definition letterIndex (c : ascii) : Z := Z.of_nat (nat_of_ascii c) - 65.




(** What block [i] contributes to the questions. *)
Definition contribution (contentId : str) (block : str) (i : nat)
  : list QuizQuestion := questionsOfBlock contentId i block.



Definition newline : str := lit "
".


End ParserSpec.

(** ** The content store ([ContentProvider.tsx]) *)

Module Store.
Import Js Content.

(** The two [useState] cells of the provider. *)
Record State := {
  contents : list StudyContent;
  currentContent : option StudyContent
}.

Definition empty : State := {| contents := []; currentContent := None |}.

(** [Omit<StudyContent, 'id' | 'createdAt'>] *)
Record NewContent := {
  new_title : str;
  new_type : ContentType;
  new_content : str;
  new_summary : option str;
  new_flashcards : option (list Flashcard);
  new_quiz : option (list QuizQuestion)
}.

(** [Partial<StudyContent>]: [Some v] for a key that is present. *)
Record Updates := {
  upd_id : option str;
  upd_title : option str;
  upd_type : option ContentType;
  upd_content : option str;
  upd_summary : option str;
  upd_flashcards : option (list Flashcard);
  upd_quiz : option (list QuizQuestion);
  upd_createdAt : option Date
}.

Definition noUpdates : Updates :=
  {| upd_id := None; upd_title := None; upd_type := None; upd_content := None;
     upd_summary := None; upd_flashcards := None; upd_quiz := None;
     upd_createdAt := None |}.

Definition orKeep {A} (u : option A) (old : A) : A :=
  match u with Some v => v | None => old end.

Definition orKeepOpt {A} (u : option A) (old : option A) : option A :=
  match u with Some v => Some v | None => old end.

(** The object spread [{ ...content, ...updates }]. *)
Definition spread (c : StudyContent) (u : Updates) : StudyContent :=
  {| id := orKeep (upd_id u) (id c);
     title := orKeep (upd_title u) (title c);
     type := orKeep (upd_type u) (type c);
     content := orKeep (upd_content u) (content c);
     summary := orKeepOpt (upd_summary u) (summary c);
     flashcards := orKeepOpt (upd_flashcards u) (flashcards c);
     quiz := orKeepOpt (upd_quiz u) (quiz c);
     createdAt := orKeep (upd_createdAt u) (createdAt c) |}.

(** [addContent]; [now] is what [Date.now()] returns and [date] what
    [new Date()] does. *)
Definition addContent (now : N) (date : Date) (c : NewContent) (st : State)
  : State :=
  let newContent :=
    {| id := NToString now;
       title := new_title c;
       type := new_type c;
       content := new_content c;
       summary := new_summary c;
       flashcards := new_flashcards c;
       quiz := new_quiz c;
       createdAt := date |} in
  {| contents := contents st ++ [newContent];
     currentContent := Some newContent |}.

Definition setCurrentContent (c : option StudyContent) (st : State) : State :=
  {| contents := contents st; currentContent := c |}.

(** [currentContent?.id === id] *)
Definition currentHasId (st : State) (id0 : str) : bool :=
  match currentContent st with
  | Some cur => str_eqb (id cur) id0
  | None => false
  end.

(** [selection?.id === id] *)
Definition selectionHasId (selection : option StudyContent) (id0 : str)
  : bool :=
  match selection with
  | Some cur => str_eqb (id cur) id0
  | None => false
  end.

(** [updateContent].  The function is a closure of the render it was
    created in: its test [currentContent?.id === id] reads the selection
    of that render, [render], while its two functional updates apply to
    the state that is committed when they run, [st].  After an [await]
    the two need not be the same. *)
Definition updateContent (render : option StudyContent) (id0 : str)
  (updates : Updates) (st : State) : State :=
  {| contents :=
       map (fun content =>
              if str_eqb (id content) id0 then spread content updates
              else content)
           (contents st);
     currentContent :=
       if selectionHasId render id0
       then match currentContent st with
            | Some prev => Some (spread prev updates)
            | None => None
            end
       else currentContent st |}.

(** [deleteContent], called in the render of the committed state (no code
    of the repository calls it, in particular none after an [await]). *)
Definition deleteContent (id0 : str) (st : State) : State :=
  {| contents :=
       filter (fun content => negb (str_eqb (id content) id0)) (contents st);
     currentContent :=
       if currentHasId st id0 then None else currentContent st |}.

(** The operations the context exposes. *)
Inductive Op :=
| opAdd (now : N) (date : Date) (c : NewContent)
| opSetCurrent (c : option StudyContent)
| opUpdate (render : option StudyContent) (id0 : str) (updates : Updates)
| opDelete (id0 : str).

Definition step (st : State) (op : Op) : State :=
  match op with
  | opAdd now date c => addContent now date c st
  | opSetCurrent c => setCurrentContent c st
  | opUpdate render id0 u => updateContent render id0 u st
  | opDelete id0 => deleteContent id0 st
  end.

Definition run (ops : list Op) (st : State) : State := fold_left step ops st.


Definition ids (st : State) : list str := map id (contents st).

End Store.

(** ** The generation operations of [StudyDashboard.tsx] *)

Module Generation.
Import Js Content Parser Store.

(** What the component reads from its surroundings: the deployment switch,
    the connection flag, and the outcome of [generateText] on a prompt. *)
Record Env := {
  isDeployed : bool;
  isConnected : bool;
  generateText : str -> str + Thrown
}.

Inductive Toast :=
| toastError (message : str)
| toastSuccess (message : str).

Definition notConnectedMessage : str :=
  lit "Ollama is not connected. Please ensure Ollama is running locally.".

Definition summaryPrompt (c : StudyContent) : str :=
  lit "Please provide a concise summary of the following content. Focus on the key points and main ideas:

" ++ content c.

Definition demoSummary : str :=
  lit "Demo Summary (Ollama not connected): This is a sample AI-generated summary of your content. In the local version with Ollama running, this would contain an actual AI-powered summary of your uploaded content with key insights and main points extracted automatically.".

Definition flashcardsPrompt (c : StudyContent) : str :=
  lit "Create 10 flashcards from the following content. Format each flashcard as " ++ [ascii_of_nat 34] ++ lit "Q: [question] | A: [answer]" ++ [ascii_of_nat 34] ++ lit " on separate lines:

" ++ content c.

Definition demoFlashcards : str :=
  lit "Q: What is this demo showing? | A: This is a sample flashcard generated in demo mode
Q: How do I get real AI flashcards? | A: Run this app locally with Ollama installed
Q: What would real flashcards contain? | A: AI-generated questions and answers based on your actual content
Q: Is this functionality working? | A: Yes, but with demo data instead of real AI generation".

Definition quizPrompt (c : StudyContent) : str :=
  lit "Create 5 multiple choice questions from the following content. Format each question as:
Q: [question]
A) [option 1]
B) [option 2]
C) [option 3]
D) [option 4]
Correct: [A/B/C/D]
Explanation: [brief explanation]

Content: " ++ content c.

Definition demoQuiz : str :=
  lit "Q: What type of app is this?
A) A real AI-powered learning platform
B) A demo version of YouLearn.ai
C) A simple text editor
D) A file storage system
Correct: B
Explanation: This is a demo version that shows the interface and functionality, but uses sample responses instead of real AI generation.

Q: How can you get real AI features?
A) Pay for a premium subscription
B) Wait for the next update
C) Run the app locally with Ollama installed
D) Contact customer support
Correct: C
Explanation: The real AI features work when you run this app locally with Ollama installed and running.".

(** [isDeployed ? demo : await generateText(prompt)] *)
Definition respond (env : Env) (demo prompt : str) : str + Thrown :=
  if isDeployed env then inl demo else generateText env prompt.

(** The progress bar and the [isGenerating] flag are local to the
    component and reset by [finally]; the three operations below leave
    them out and return the store with the toast that is shown.

    The handlers are asynchronous.  The guards and the prompt read the
    [currentContent] of the render in which the button was clicked,
    [render]; the response is awaited; then [updateContent], the closure
    of that same render, runs on the store that is committed by then,
    [st].  Where nothing is awaited (a guard refuses, or the
    demonstration response is used) [st] is the store of the render
    itself. *)

Definition summaryUpdates (summary : str) : Updates :=
  {| upd_id := None; upd_title := None; upd_type := None; upd_content := None;
     upd_summary := Some summary; upd_flashcards := None; upd_quiz := None;
     upd_createdAt := None |}.

Definition flashcardsUpdates (flashcards : list Flashcard) : Updates :=
  {| upd_id := None; upd_title := None; upd_type := None; upd_content := None;
     upd_summary := None; upd_flashcards := Some flashcards; upd_quiz := None;
     upd_createdAt := None |}.

Definition quizUpdates (questions : list QuizQuestion) : Updates :=
  {| upd_id := None; upd_title := None; upd_type := None; upd_content := None;
     upd_summary := None; upd_flashcards := None; upd_quiz := Some questions;
     upd_createdAt := None |}.

Definition generateSummary (env : Env) (render st : State) : State * Toast :=
  match currentContent render with
  | None => (st, toastError (lit "No content selected"))
  | Some cur =>
      if negb (isConnected env) && negb (isDeployed env)
      then (st, toastError notConnectedMessage)
      else
        match respond env demoSummary (summaryPrompt cur) with
        | inl summary =>
            (updateContent (currentContent render) (id cur)
               (summaryUpdates summary) st,
             toastSuccess (lit "Summary generated successfully!"))
        | inr error =>
            (st, toastError (messageOr (lit "Failed to generate summary") error))
        end
  end.

Definition generateFlashcards (env : Env) (render st : State) : State * Toast :=
  match currentContent render with
  | None => (st, toastError (lit "No content selected"))
  | Some cur =>
      if negb (isConnected env) && negb (isDeployed env)
      then (st, toastError notConnectedMessage)
      else
        match respond env demoFlashcards (flashcardsPrompt cur) with
        | inl flashcardsText =>
            let flashcards := parseFlashcards (id cur) flashcardsText in
            (updateContent (currentContent render) (id cur)
               (flashcardsUpdates flashcards) st,
             toastSuccess (lit "Generated "
                             ++ natToString (List.length flashcards)
                             ++ lit " flashcards!"))
        | inr error =>
            (st, toastError
                   (messageOr (lit "Failed to generate flashcards") error))
        end
  end.

Definition generateQuiz (env : Env) (render st : State) : State * Toast :=
  match currentContent render with
  | None => (st, toastError (lit "No content selected"))
  | Some cur =>
      if negb (isConnected env) && negb (isDeployed env)
      then (st, toastError notConnectedMessage)
      else
        match respond env demoQuiz (quizPrompt cur) with
        | inl quizText =>
            let questions := parseQuiz (id cur) quizText in
            (updateContent (currentContent render) (id cur)
               (quizUpdates questions) st,
             toastSuccess (lit "Generated "
                             ++ natToString (List.length questions)
                             ++ lit " quiz questions!"))
        | inr error =>
            (st, toastError (messageOr (lit "Failed to generate quiz") error))
        end
  end.

(** The three operations, and what it means for one to succeed. *)
Inductive Kind := kSummary | kFlashcards | kQuiz.

Definition perform (k : Kind) (env : Env) (render st : State)
  : State * Toast :=
  match k with
  | kSummary => generateSummary env render st
  | kFlashcards => generateFlashcards env render st
  | kQuiz => generateQuiz env render st
  end.

Definition succeeded (t : Toast) : Prop :=
  match t with toastSuccess _ => True | toastError _ => False end.

End Generation.

(** ** The language-model client ([OllamaProvider.tsx]) *)

Module Ollama.
Import Js.

Record OllamaModel := {
  name : str;
  size : str;
  modified_at : str
}.

(** The [useState] cells of the provider. *)
Record Client := {
  models : list OllamaModel;
  selectedModel : str;
  isConnected : bool;
  isLoading : bool;
  ollamaUrl : str
}.

Definition initial : Client :=
  {| models := []; selectedModel := lit "llama2"; isConnected := false;
     isLoading := false; ollamaUrl := lit "http://localhost:11434" |}.

(** An HTTP response; [json] is what [await response.json()] and the
    reading of the expected properties give: a rejection or the body. *)
Record Response (Body : Type) := {
  ok : bool;
  status : nat;
  statusText : str;
  json : Thrown + Body
}.

(** How a request ends if nothing aborts it: the time it takes, in
    milliseconds ([None]: it never settles), and a rejection (network
    failure, CORS) or a response. *)
Record Request (Body : Type) := {
  latency : option N;
  settles : Thrown + Response Body
}.

Definition abortError : Thrown :=
  thrownError (lit "AbortError") (lit "The user aborted a request.").

(** [fetch] under an [AbortController] whose [abort()] is scheduled after
    [deadline] milliseconds: a request still pending when the timer fires
    rejects with an [AbortError]. *)
Definition fetchWithin {Body} (deadline : N) (r : Request Body)
  : Thrown + Response Body :=
  match latency r with
  | Some ms => if (ms <? deadline)%N then settles r else inl abortError
  | None => inl abortError
  end.

(** The body of [GET /api/tags]; [models] may be missing. *)
Record TagsData := { data_models : option (list OllamaModel) }.

(** The body of [POST /api/generate]. *)
Record GenerateData := { response : option str }.

(** The server, as the client sees it. *)
Record Net := {
  getTags : str -> Request TagsData;
  postGenerate : str -> str -> str -> Request GenerateData
}.

Definition setModels (m : list OllamaModel) (c : Client) : Client :=
  {| models := m; selectedModel := selectedModel c;
     isConnected := isConnected c; isLoading := isLoading c;
     ollamaUrl := ollamaUrl c |}.

Definition setSelectedModel (m : str) (c : Client) : Client :=
  {| models := models c; selectedModel := m;
     isConnected := isConnected c; isLoading := isLoading c;
     ollamaUrl := ollamaUrl c |}.

Definition setIsConnected (b : bool) (c : Client) : Client :=
  {| models := models c; selectedModel := selectedModel c;
     isConnected := b; isLoading := isLoading c;
     ollamaUrl := ollamaUrl c |}.

Definition setIsLoading (b : bool) (c : Client) : Client :=
  {| models := models c; selectedModel := selectedModel c;
     isConnected := isConnected c; isLoading := b;
     ollamaUrl := ollamaUrl c |}.

Definition setOllamaUrl (u : str) (c : Client) : Client :=
  {| models := models c; selectedModel := selectedModel c;
     isConnected := isConnected c; isLoading := isLoading c;
     ollamaUrl := u |}.

Definition tagsUrl (c : Client) : str := ollamaUrl c ++ lit "/api/tags".
Definition generateUrl (c : Client) : str := ollamaUrl c ++ lit "/api/generate".

Definition checkConnection (isDeployed : bool) (net : Net) (c : Client)
  : bool * Client :=
  if isDeployed then (false, setIsConnected false c)
  else
    match fetchWithin 3000%N (getTags net (tagsUrl c)) with
    | inr response =>
        let connected := ok response in
        (connected, setIsConnected connected c)
    | inl _ => (false, setIsConnected false c)
    end.

(** The [try] block of [loadModels] once the response is there; [inl] is
    an exception on its way to [catch]. *)
Definition loadModelsTry (response : Response TagsData) (c : Client)
  : Thrown + Client :=
  if ok response then
    match json response with
    | inr data =>
        let c1 :=
          setModels (match data_models data with Some m => m | None => [] end) c in
        let c2 := setIsConnected true c1 in
        inr match data_models data with
            | Some (first :: _) =>
                if negb (truthy (selectedModel c))
                then setSelectedModel (name first) c2
                else c2
            | _ => c2
            end
    | inl e => inl e
    end
  else inr (setIsConnected false c).

(** The [catch] block of [loadModels]. *)
Definition loadModelsCatch (c : Client) : Client :=
  setModels [] (setIsConnected false c).

Definition loadModels (isDeployed : bool) (net : Net) (c : Client) : Client :=
  if isDeployed
  then setModels [] (setIsConnected false (setIsLoading false c))
  else
    let c0 := setIsLoading true c in
    let c1 :=
      match fetchWithin 5000%N (getTags net (tagsUrl c)) with
      | inr response =>
          match loadModelsTry response c0 with
          | inr c' => c'
          | inl _ => loadModelsCatch c0
          end
      | inl _ => loadModelsCatch c0
      end in
    setIsLoading false c1.

Definition generateText (net : Net) (c : Client) (prompt : str)
  (context : option str) : str + Thrown :=
  if negb (isConnected c)
  then inr (thrownError (lit "Error")
              (lit "Ollama is not connected. Please ensure Ollama is running locally."))
  else
    let fullPrompt :=
      match context with
      | Some ctx =>
          if truthy ctx
          then lit "Context: " ++ ctx ++ lit "

Question: " ++ prompt
          else prompt
      | None => prompt
      end in
    let attempt : Thrown + str :=
      match fetchWithin 30000%N
              (postGenerate net (generateUrl c) (selectedModel c) fullPrompt) with
      | inr resp =>
          if negb (ok resp)
          then inl (thrownError (lit "Error")
                      (lit "Failed to generate text: " ++ natToString (status resp)
                         ++ lit " " ++ statusText resp))
          else match json resp with
               | inr data =>
                   inr (match response data with Some r => r | None => [] end)
               | inl e => inl e
               end
      | inl e => inl e
      end in
    match attempt with
    | inr text => inl text
    | inl (thrownError ename message) =>
        if str_eqb ename (lit "AbortError")
        then inr (thrownError (lit "Error")
                    (lit "Text generation timed out. Please try again."))
        else inr (thrownError (lit "Error")
                    (lit "Text generation failed: " ++ message))
    | inl notAnError => inr notAnError
    end.

(** A load that fails: the request is rejected (a network failure, or the
    abort of the timer), or the server answers with a non-success status. *)
Inductive LoadFailure (r : Request TagsData) : Prop :=
| failsRejected e : fetchWithin 5000%N r = inl e -> LoadFailure r
| failsStatus resp :
    fetchWithin 5000%N r = inr resp -> ok resp = false -> LoadFailure r.

End Ollama.

(** ** PDF text extraction ([src/utils/pdfProcessor.ts]) *)

Module Pdf.
Import Js.

(** [class PDFProcessingError extends Error] *)
Record PDFProcessingError := {
  message : str;
  code : str
}.

(** What the code of this file throws or lets through: its own error
    class, or a value that comes from the library, from the file or from
    the callback of the caller. *)
Inductive Raised :=
| raisedPDF (e : PDFProcessingError)
| raisedOther (t : Thrown).

(** *** The run: a clock, a trace, the accumulator *)

Inductive Progress :=
| percent (n : N)
| pageFraction (pageNum numPages : nat).   (* 30 + (pageNum / numPages) * 60 *)

Inductive Event :=
| progress (p : Progress)          (* onProgress?.(p) *)
| documentAcquired                 (* getDocument(...).promise resolves *)
| requestPage (pageNum : nat)      (* pdf.getPage(pageNum) is called *)
| pageAcquired (pageNum : nat)     (* ... and resolves with a page proxy *)
| pageCleanup (pageNum : nat)      (* page.cleanup() *)
| documentDestroy                  (* pdf.destroy() *)
| warn (pageNum : nat).            (* console.warn *)

(** The state the asynchronous function runs in: the time in milliseconds,
    what has happened so far (oldest first), and the local [fullText]. *)
Record World := {
  clock : N;
  trace : list Event;
  fullText : str
}.

Definition start : World := {| clock := 0; trace := []; fullText := [] |}.

(** A promise that resolves with a value, rejects, or never settles. *)
Inductive Outcome (A : Type) :=
| resolved (a : A)
| rejected (e : Raised)
| pending.
Arguments resolved {A} a.
Arguments rejected {A} e.
Arguments pending {A}.

Definition M (A : Type) : Type := World -> Outcome A * World.

Definition ret {A} (a : A) : M A := fun w => (resolved a, w).

Definition bind {A B} (m : M A) (k : A -> M B) : M B :=
  fun w =>
    match m w with
    | (resolved a, w') => k a w'
    | (rejected e, w') => (rejected e, w')
    | (pending, w') => (pending, w')
    end.

Definition raise {A} (e : Raised) : M A := fun w => (rejected e, w).

Definition throwPDF {A} (msg cd : str) : M A :=
  raise (raisedPDF {| message := msg; code := cd |}).

(** [try { m } catch (e) { h e }] *)
Definition tryCatch {A} (m : M A) (h : Raised -> M A) : M A :=
  fun w =>
    match m w with
    | (rejected e, w') => h e w'
    | r => r
    end.

Definition emit (ev : Event) : M unit :=
  fun w => (resolved tt,
            {| clock := clock w; trace := trace w ++ [ev];
               fullText := fullText w |}).

Definition getFullText : M str := fun w => (resolved (fullText w), w).

Definition setFullText (s : str) : M unit :=
  fun w => (resolved tt,
            {| clock := clock w; trace := trace w; fullText := s |}).

Declare Scope pdf_scope.
Delimit Scope pdf_scope with pdf.
Notation "x <- m ;; k" := (bind m (fun x => k))
  (at level 100, m at next level, right associativity) : pdf_scope.
Notation "m ;; k" := (bind m (fun _ => k))
  (at level 100, right associativity) : pdf_scope.
Local Open Scope pdf_scope.

(** *** The library and the file, as the function sees them *)

(** An asynchronous call of the environment: the time it takes ([None]:
    it never settles) and what it settles with. *)
Record Timed (A : Type) := {
  takes : option N;
  gives : Thrown + A
}.

Definition await {A} (t : Timed A) : M A :=
  fun w =>
    match takes t with
    | None => (pending, w)
    | Some d =>
        let w' := {| clock := clock w + d; trace := trace w;
                     fullText := fullText w |} in
        match gives t with
        | inl e => (rejected (raisedOther e), w')
        | inr a => (resolved a, w')
        end
    end.

(** A page proxy: the [str] fields of the items of its text content; an
    item without [str] counts as one with the empty string. *)
Record PDFPageProxy := {
  getTextContent : Timed (list str)
}.

Record Info := { Title : option str }.
Record Metadata := { info : option Info }.

Record PDFDocumentProxy := {
  numPages : nat;
  getMetadata : Timed Metadata;
  getPage : nat -> Timed PDFPageProxy
}.

Record File := {
  file_name : str;
  file_type : str;
  file_size : N;
  arrayBuffer : Timed str
}.

Record Env := {
  workerConfigured : bool;                      (* isPDFProcessingAvailable() *)
  getDocument : str -> Timed PDFDocumentProxy;  (* pdfjsLib.getDocument *)
  timerWinsTie : bool   (* the timer task runs first when both are due *)
}.

(** The [onProgress] callback is code of the caller: a call of it
    returns, or throws a value of the caller's (not an instance of the
    error class of this file).  Within one run no two calls carry the
    same value, so that a function of the value tells of each call how
    it ends. *)
Definition Callback : Type := Progress -> option Thrown.

Record PDFProcessingOptions := {
  onProgress : option Callback;
  maxPages : option nat;
  timeout : option N
}.

Record PDFProcessingResult := {
  text : str;
  pageCount : nat;
  title : str;
  metadata : option Info
}.

(** *** The function *)

(** [onProgress?.(p)] *)
Definition report (opts : PDFProcessingOptions) (p : Progress) : M unit :=
  match onProgress opts with
  | None => ret tt
  | Some callback =>
      emit (progress p) ;;
      match callback p with
      | None => ret tt
      | Some thrown => raise (raisedOther thrown)
      end
  end.

(** [.replace(/\s+/g, ' ')]; [inRun] tells that the run of white space the
    scan is in has been replaced already. *)
Fixpoint collapseGo (inRun : bool) (s : str) : str :=
  match s with
  | [] => []
  | c :: s' =>
      if isSpace c
      then if inRun then collapseGo true s' else " "%char :: collapseGo true s'
      else c :: collapseGo false s'
  end.

Definition collapseSpaces (s : str) : str := collapseGo false s.

Definition pageTextOf (items : list str) : str :=
  trim (collapseSpaces
          (join (lit " ")
             (filter (fun item => truthy item && truthy (trim item)) items))).

(** [`${error.message}`] of a value that is not an [Error]. *)
Definition messageText (msg : option str) : str :=
  match msg with
  | Some m => m
  | None => lit "undefined"
  end.

(** The [catch] of [getDocument].  It reads [error.name] and
    [error.message] of whatever was thrown: of [undefined] and [null]
    this read throws itself, and the [TypeError] leaves the [catch]. *)
Definition classifyLoadError (e : Raised) : Raised :=
  match e with
  | raisedOther (thrownError ename msg) =>
      if str_eqb ename (lit "PasswordException")
      then raisedPDF {| message := lit "PDF is password protected";
                        code := lit "PASSWORD_PROTECTED" |}
      else if str_eqb ename (lit "InvalidPDFException")
      then raisedPDF {| message := lit "Invalid or corrupted PDF file";
                        code := lit "INVALID_PDF" |}
      else raisedPDF {| message := lit "Failed to load PDF: " ++ msg;
                        code := lit "LOAD_ERROR" |}
  | raisedOther (thrownValue (Some ename) msg) =>
      if str_eqb ename (lit "PasswordException")
      then raisedPDF {| message := lit "PDF is password protected";
                        code := lit "PASSWORD_PROTECTED" |}
      else if str_eqb ename (lit "InvalidPDFException")
      then raisedPDF {| message := lit "Invalid or corrupted PDF file";
                        code := lit "INVALID_PDF" |}
      else raisedPDF {| message := lit "Failed to load PDF: " ++ messageText msg;
                        code := lit "LOAD_ERROR" |}
  | raisedOther (thrownValue None msg) =>
      raisedPDF {| message := lit "Failed to load PDF: " ++ messageText msg;
                   code := lit "LOAD_ERROR" |}
  | raisedOther (thrownNullish complaint) =>
      raisedOther (thrownError (lit "TypeError") complaint)
  | raisedPDF pe =>
      raisedPDF {| message := lit "Failed to load PDF: " ++ message pe;
                   code := lit "LOAD_ERROR" |}
  end.

(** The body of the [try] inside the loop. *)
Definition processPage (opts : PDFProcessingOptions) (pdf : PDFDocumentProxy)
  (numPages : nat) (pageNum : nat) : M unit :=
  emit (requestPage pageNum) ;;
  page <- await (getPage pdf pageNum) ;;
  emit (pageAcquired pageNum) ;;
  items <- await (getTextContent page) ;;
  let pageText := pageTextOf items in
  (if truthy pageText
   then (acc <- getFullText ;; setFullText (acc ++ pageText ++ [ascii_of_nat 10; ascii_of_nat 10]))
   else ret tt) ;;
  report opts (pageFraction pageNum numPages) ;;
  emit (pageCleanup pageNum).

(** [for (let pageNum = ...; pageNum <= numPages; pageNum++)], with
    [remaining] the number of iterations left. *)
Fixpoint pageLoop (opts : PDFProcessingOptions) (pdf : PDFDocumentProxy)
  (numPages : nat) (remaining : nat) (pageNum : nat) : M unit :=
  match remaining with
  | O => ret tt
  | S r =>
      tryCatch (processPage opts pdf numPages pageNum)
               (fun pageError => emit (warn pageNum)) ;;
      pageLoop opts pdf numPages r (S pageNum)
  end.

Definition defaultMaxPages : nat := 100.
Definition defaultTimeout : N := 60000.

Definition maxPagesOf (opts : PDFProcessingOptions) : nat :=
  match maxPages opts with Some n => n | None => defaultMaxPages end.

Definition timeoutOf (opts : PDFProcessingOptions) : N :=
  match timeout opts with Some t => t | None => defaultTimeout end.

(** [metadata?.info?.Title || file.name.replace('.pdf', '')] *)
Definition titleOf (file : File) (meta : option Metadata) : str :=
  let fallback := replace (lit ".pdf") [] (file_name file) in
  match meta with
  | Some {| info := Some {| Title := Some t |} |} =>
      if truthy t then t else fallback
  | _ => fallback
  end.

Definition infoOf (meta : option Metadata) : option Info :=
  match meta with
  | Some m => info m
  | None => None
  end.

(** The asynchronous function whose promise is [processingPromise]. *)
Definition processing (env : Env) (file : File) (opts : PDFProcessingOptions)
  : M PDFProcessingResult :=
  buffer <- await (arrayBuffer file) ;;
  report opts (percent 15) ;;
  pdf <- tryCatch (await (getDocument env buffer))
                  (fun error => raise (classifyLoadError error)) ;;
  emit documentAcquired ;;
  report opts (percent 25) ;;
  let numPages := Nat.min (numPages pdf) (maxPagesOf opts) in
  setFullText [] ;;
  meta <- tryCatch (m <- await (getMetadata pdf) ;; ret (Some m))
                   (fun _ => ret None) ;;
  report opts (percent 30) ;;
  pageLoop opts pdf numPages numPages 1 ;;
  report opts (percent 95) ;;
  emit documentDestroy ;;
  acc <- getFullText ;;
  if negb (truthy (trim acc))
  then throwPDF (lit "No text content found in PDF") (lit "NO_TEXT")
  else
    report opts (percent 100) ;;
    ret {| text := trim acc;
           pageCount := Pdf.numPages pdf;
           title := titleOf file meta;
           metadata := infoOf meta |}.

Definition timeoutError : Raised :=
  raisedPDF {| message := lit "PDF processing timed out";
               code := lit "TIMEOUT" |}.

(** [Promise.race([processingPromise, timeoutPromise])], the timer being
    set [ms] milliseconds ahead when the race starts.  The race settles as
    the promise that settles first does.  The function behind
    [processingPromise] is not cancelled: what it does after the timer has
    fired is still in the trace. *)
Definition raceTimeout {A} (env : Env) (ms : N) (p : M A) : M A :=
  fun w =>
    let deadline := (clock w + ms)%N in
    match p w with
    | (pending, w') => (rejected timeoutError, w')
    | (settled, w') =>
        if (clock w' <? deadline)%N then (settled, w')
        else if (deadline <? clock w')%N then (rejected timeoutError, w')
        else if timerWinsTie env then (rejected timeoutError, w')
        else (settled, w')
    end.

(** The outer [catch]. *)
Definition normalize (e : Raised) : Raised :=
  match e with
  | raisedPDF pe => raisedPDF pe
  | raisedOther (thrownError _ msg) =>
      raisedPDF {| message := lit "PDF processing failed: " ++ msg;
                   code := lit "PROCESSING_ERROR" |}
  | raisedOther (thrownNullish _) | raisedOther (thrownValue _ _) =>
      raisedPDF {| message := lit "Unknown error occurred during PDF processing";
                   code := lit "UNKNOWN_ERROR" |}
  end.

Definition maxFileSize : N := 50 * 1024 * 1024.

Definition processPDFFile (env : Env) (file : File)
  (opts : PDFProcessingOptions) : M PDFProcessingResult :=
  if negb (workerConfigured env)
  then throwPDF (lit "PDF processing is not available") (lit "UNAVAILABLE")
  else if negb (str_eqb (file_type file) (lit "application/pdf"))
  then throwPDF (lit "File is not a PDF") (lit "INVALID_TYPE")
  else if (maxFileSize <? file_size file)%N
  then throwPDF (lit "PDF file is too large (max 50MB)") (lit "FILE_TOO_LARGE")
  else
    report opts (percent 5) ;;
    tryCatch (raceTimeout env (timeoutOf opts) (processing env file opts))
             (fun error => raise (normalize error)).

End Pdf.

(** ** The properties of the store and of the generation operations *)

Module StoreSpec.
Import Js Content Store Generation.

(** [item] is the current selection. *)
Definition isCurrent (st : State) (item : StudyContent) : Prop :=
  currentContent st = Some item.

(** The id [Date.now()] yields is not the id of a stored item. *)
Definition freshId (now : N) (st : State) : Prop :=
  ~ In (NToString now) (ids st).



(** The fields a generation operation must leave alone. *)
Definition sameIdentity (old new : StudyContent) : Prop :=
  id new = id old /\ title new = title old /\ type new = type old /\
  content new = content old /\ createdAt new = createdAt old.

(** [new] is [old] with the one field of operation [k] replaced. *)
Definition replacedOnly (k : Kind) (old new : StudyContent) : Prop :=
  sameIdentity old new /\
  match k with
  | kSummary =>
      (exists s, summary new = Some s) /\
      flashcards new = flashcards old /\ quiz new = quiz old
  | kFlashcards =>
      (exists cards, flashcards new = Some cards) /\
      summary new = summary old /\ quiz new = quiz old
  | kQuiz =>
      (exists questions, quiz new = Some questions) /\
      summary new = summary old /\ flashcards new = flashcards old
  end.

(** The updates a successful operation applies. *)
Definition updatesOf (k : Kind) (u : Updates) : Prop :=
  match k with
  | kSummary => exists s, u = summaryUpdates s
  | kFlashcards => exists cards, u = flashcardsUpdates cards
  | kQuiz => exists questions, u = quizUpdates questions
  end.

(** The frame of a generation as the specification words it: of the
    collection [old], the item worked on, [cur], has the one field
    replaced in [new], and every other stored item is left as it was. *)
Definition frameAsStated (k : Kind) (cur : StudyContent)
  (old new : list StudyContent) : Prop :=
  forall i item,
    nth_error old i = Some item ->
    exists item',
      nth_error new i = Some item' /\
      (item = cur -> replacedOnly k item item') /\
      (item <> cur -> item' = item).

End StoreSpec.

(** ** The properties of the extraction *)

Module PdfSpec.
Import Js Pdf.

(** The pages [pdf.getPage] was called for, in the order of the calls. *)
Definition requestedPages (tr : list Event) : list nat :=
  flat_map (fun ev => match ev with requestPage n => [n] | _ => [] end) tr.

(** The checks that come before the extraction let the file through. *)
Definition accepted (env : Env) (file : File) : Prop :=
  workerConfigured env = true /\
  file_type file = lit "application/pdf" /\
  (file_size file <= maxFileSize)%N.

(** What the callback throws when it is called with [p], if it does. *)
Definition throwsAt (opts : PDFProcessingOptions) (p : Progress)
  : option Thrown :=
  match onProgress opts with
  | Some callback => callback p
  | None => None
  end.

(** No call of the callback throws. *)
Definition callbackReturns (opts : PDFProcessingOptions) : Prop :=
  forall p, throwsAt opts p = None.

(** The world in which the race starts: [onProgress?.(5)] has been called. *)
Definition raceStart (opts : PDFProcessingOptions) (w : World) : World :=
  snd (report opts (percent 5) w).


(** Every page that was acquired has been cleaned up. *)
Definition pagesReleased (tr : list Event) : Prop :=
  forall n, In (pageAcquired n) tr -> In (pageCleanup n) tr.

Definition documentReleased (tr : list Event) : Prop :=
  In documentAcquired tr -> In documentDestroy tr.

End PdfSpec.

(** ** Concrete inputs *)

Module Examples.
Import Js Content Parser ParserSpec.

(** The first block of the demonstration quiz of [generateQuiz]. *)
Definition demoBlock : str :=
  nth 0 (questionBlocksOf Generation.demoQuiz) [].

(** A response with a one-line block before a complete one. *)
Definition mixedQuiz : str :=
  lit "Q: Too short
A) only one option
Q: Which planet is the largest?
A) Mars
B) Venus
C) Earth
D) Jupiter
Correct: D
Explanation: Jupiter is the largest planet.".

Definition mixedBlock : str := nth 1 (questionBlocksOf mixedQuiz) [].

(** The block of the specification's example, and the same block without
    its [Correct:] line (a second explanation line keeps it at six). *)
Definition canonicalQuiz : str :=
  lit "Q: Which one?
A) first
B) second
C) third
D) fourth
Correct: C
Explanation: because".

Definition unmarkedQuiz : str :=
  lit "Q: Which one?
A) first
B) second
C) third
D) fourth
Explanation: because
It is explained above.".


(** A store with two items, the first one current. *)
Definition item (i : str) (t : str) : StudyContent :=
  {| id := i; title := t; type := text; content := lit "Some text.";
     summary := None; flashcards := None; quiz := None; createdAt := 0%N |}.

Definition twoItems : Store.State :=
  {| Store.contents := [item (lit "1") (lit "first"); item (lit "2") (lit "second")];
     Store.currentContent := Some (item (lit "1") (lit "first")) |}.

Definition newText : Store.NewContent :=
  {| Store.new_title := lit "third"; Store.new_type := text;
     Store.new_content := lit "More text."; Store.new_summary := None;
     Store.new_flashcards := None; Store.new_quiz := None |}.

Definition otherText : Store.NewContent :=
  {| Store.new_title := lit "other"; Store.new_type := text;
     Store.new_content := lit "Other text."; Store.new_summary := None;
     Store.new_flashcards := None; Store.new_quiz := None |}.

(** Two items added in the same millisecond: they have the same id, and
    the second one is current. *)
Definition sameMillisecond : Store.State :=
  Store.addContent 7%N 7%N newText
    (Store.addContent 7%N 7%N otherText Store.empty).

(** The item [addContent] makes of [c] in that millisecond. *)
Definition item7 (c : Store.NewContent) : StudyContent :=
  {| id := lit "7"; title := Store.new_title c; type := Store.new_type c;
     content := Store.new_content c; summary := Store.new_summary c;
     flashcards := Store.new_flashcards c; quiz := Store.new_quiz c;
     createdAt := 7%N |}.

(** The deployed application: the demonstration responses are used. *)
Definition deployedEnv : Generation.Env :=
  {| Generation.isDeployed := true; Generation.isConnected := false;
     Generation.generateText := fun _ => inr (thrownValue None None) |}.

(** A client that has loaded one model, and a server that now answers
    [GET /api/tags] with status 500. *)
Definition llama : Ollama.OllamaModel :=
  {| Ollama.name := lit "llama2"; Ollama.size := lit "3.8GB";
     Ollama.modified_at := lit "2024-01-01" |}.

Definition loadedClient : Ollama.Client :=
  {| Ollama.models := [llama]; Ollama.selectedModel := lit "llama2";
     Ollama.isConnected := true; Ollama.isLoading := false;
     Ollama.ollamaUrl := lit "http://localhost:11434" |}.

Definition errorResponse {Body} : Ollama.Response Body :=
  {| Ollama.ok := false; Ollama.status := 500;
     Ollama.statusText := lit "Internal Server Error";
     Ollama.json := inl (thrownError (lit "SyntaxError") (lit "Unexpected end of JSON input")) |}.

Definition failingServer : Ollama.Net :=
  {| Ollama.getTags := fun _ =>
       {| Ollama.latency := Some 20%N; Ollama.settles := inr errorResponse |};
     Ollama.postGenerate := fun _ _ _ =>
       {| Ollama.latency := Some 20%N; Ollama.settles := inr errorResponse |} |}.

(** PDF documents.  A page that loads in [d1] ms and whose text comes in
    [d2] ms; a page whose text extraction fails. *)
Definition goodPage (d1 d2 : N) (items : list str) : Pdf.Timed Pdf.PDFPageProxy :=
  {| Pdf.takes := Some d1;
     Pdf.gives := inr {| Pdf.getTextContent :=
                           {| Pdf.takes := Some d2; Pdf.gives := inr items |} |} |}.

Definition brokenPage (d1 d2 : N) : Pdf.Timed Pdf.PDFPageProxy :=
  {| Pdf.takes := Some d1;
     Pdf.gives := inr {| Pdf.getTextContent :=
                           {| Pdf.takes := Some d2;
                              Pdf.gives := inl (thrownError (lit "Error")
                                                  (lit "bad content stream")) |} |} |}.

Definition noMetadata : Pdf.Timed Pdf.Metadata :=
  {| Pdf.takes := Some 1%N; Pdf.gives := inr {| Pdf.info := None |} |}.

(** Three pages of text, 10 ms each. *)
Definition threePages : Pdf.PDFDocumentProxy :=
  {| Pdf.numPages := 3;
     Pdf.getMetadata := noMetadata;
     Pdf.getPage := fun n => goodPage 5 5 [lit "page"; natToString n] |}.

(** Two pages; the text of the second one takes two minutes. *)
Definition slowSecondPage : Pdf.PDFDocumentProxy :=
  {| Pdf.numPages := 2;
     Pdf.getMetadata := noMetadata;
     Pdf.getPage := fun n =>
       if n =? 1 then goodPage 5 5 [lit "first page"]
       else goodPage 5 120000 [lit "second page"] |}.

(** Two pages; the text extraction of the first one fails. *)
Definition brokenFirstPage : Pdf.PDFDocumentProxy :=
  {| Pdf.numPages := 2;
     Pdf.getMetadata := noMetadata;
     Pdf.getPage := fun n =>
       if n =? 1 then brokenPage 5 5 else goodPage 5 5 [lit "second page"] |}.

Definition envOf (pdf : Pdf.PDFDocumentProxy) : Pdf.Env :=
  {| Pdf.workerConfigured := true;
     Pdf.getDocument := fun _ => {| Pdf.takes := Some 10%N; Pdf.gives := inr pdf |};
     Pdf.timerWinsTie := false |}.

Definition someFile : Pdf.File :=
  {| Pdf.file_name := lit "notes.pdf";
     Pdf.file_type := lit "application/pdf";
     Pdf.file_size := 2048;
     Pdf.arrayBuffer := {| Pdf.takes := Some 3%N; Pdf.gives := inr (lit "%PDF-1.7") |} |}.

(** A callback that takes note of the progress and returns. *)
Definition listener : Pdf.Callback := fun _ => None.

Definition defaults : Pdf.PDFProcessingOptions :=
  {| Pdf.onProgress := Some listener; Pdf.maxPages := None;
     Pdf.timeout := None |}.

Definition twoPagesAtMost : Pdf.PDFProcessingOptions :=
  {| Pdf.onProgress := Some listener; Pdf.maxPages := Some 2;
     Pdf.timeout := None |}.

(** The result of extracting the first two of the three pages. *)
Definition twoOfThree : Pdf.PDFProcessingResult :=
  {| Pdf.text := lit "page 1

page 2";
     Pdf.pageCount := 3;
     Pdf.title := lit "notes";
     Pdf.metadata := None |}.

End Examples.

(** ** The rest of [pdfProcessor.ts] *)

Module PdfTools.
Import Js Pdf.



Definition unexpectedMessage : str :=
  lit "An unexpected error occurred while processing the PDF.".

(** [getErrorMessage]: the [switch] on [error.code]. *)
Definition getErrorMessage (error : PDFProcessingError) : str :=
  let c := code error in
  if str_eqb c (lit "UNAVAILABLE")
  then lit "PDF processing is currently unavailable. Please try refreshing the page."
  else if str_eqb c (lit "INVALID_TYPE")
  then lit "Please select a valid PDF file."
  else if str_eqb c (lit "FILE_TOO_LARGE")
  then lit "PDF file is too large. Please use a file smaller than 50MB."
  else if str_eqb c (lit "PASSWORD_PROTECTED")
  then lit "This PDF is password protected. Please use an unprotected PDF."
  else if str_eqb c (lit "INVALID_PDF")
  then lit "This PDF file appears to be corrupted or invalid."
  else if str_eqb c (lit "NO_TEXT")
  then lit "No text content was found in this PDF. It might be an image-only PDF."
  else if str_eqb c (lit "TIMEOUT")
  then lit "PDF processing timed out. Please try with a smaller file."
  else if str_eqb c (lit "LOAD_ERROR") || str_eqb c (lit "PROCESSING_ERROR")
  then lit "PDF processing failed: " ++ message error
  else unexpectedMessage.

Record Validation := {
  valid : bool;
  error : option str
}.

(** [validatePDFFile]; [None] is the absent file. *)
Definition validatePDFFile (file : option File) : Validation :=
  match file with
  | None => {| valid := false; error := Some (lit "No file provided") |}
  | Some f =>
      if negb (str_eqb (file_type f) (lit "application/pdf"))
      then {| valid := false; error := Some (lit "File must be a PDF") |}
      else if (file_size f =? 0)%N
      then {| valid := false; error := Some (lit "File is empty") |}
      else if (maxFileSize <? file_size f)%N
      then {| valid := false; error := Some (lit "File is too large (max 50MB)") |}
      else {| valid := true; error := None |}
  end.

End PdfTools.

(** ** The ingestion handlers of the home page ([HomePage.tsx]) *)

Module HomePage.
Import Js Content Store Pdf PdfTools.
Import Generation (Toast, toastError, toastSuccess).

(** *** [extractVideoId] *)

(** The class [[^&\n?#]] of the capture group. *)
Definition isIdChar (c : ascii) : bool :=
  let n := nat_of_ascii c in
  negb ((n =? 38) || (n =? 10) || (n =? 63) || (n =? 35)).

(** [[^&\n?#]+] is greedy and nothing follows it: the longest run. *)
Fixpoint takeIdChars (s : str) : str :=
  match s with
  | c :: s' => if isIdChar c then c :: takeIdChars s' else []
  | [] => []
  end.

(** The three alternatives of the non-capturing group, in their order. *)
Definition videoUrlForms : list str :=
  [lit "youtube.com/watch?v="; lit "youtu.be/"; lit "youtube.com/embed/"].

(** A match that starts at the head of [s]: the first alternative that is
    followed by one or more characters of the class. *)
Fixpoint matchForms (forms : list str) (s : str) : option str :=
  match forms with
  | [] => None
  | form :: rest =>
      if startsWith form s
      then let videoId := takeIdChars (skipn (List.length form) s) in
           if truthy videoId then Some videoId else matchForms rest s
      else matchForms rest s
  end.

(** [url.match(regex)] finds the leftmost match; [match[1]] is the group. *)
Fixpoint extractVideoId (url : str) : option str :=
  match matchForms videoUrlForms url with
  | Some videoId => Some videoId
  | None =>
      match url with
      | [] => None
      | _ :: url' => extractVideoId url'
      end
  end.

(** *** The three handlers

    Each one is given what [Date.now()] and [new Date()] return when
    [addContent] runs, and returns the store with the notification shown
    ([None]: none).  The progress bar, the [isProcessing] flag, the reset
    of the input fields and the navigation timer are local to the page and
    are left out. *)

Definition newItem (t : str) (k : ContentType) (body : str) : NewContent :=
  {| new_title := t; new_type := k; new_content := body;
     new_summary := None; new_flashcards := None; new_quiz := None |}.

(** The setter of the [progress] state cell: it schedules a render and
    returns. *)
Definition setProgress : Callback := fun _ => None.

Definition homePageOptions : PDFProcessingOptions :=
  {| onProgress := Some setProgress; maxPages := Some 100;
     timeout := Some 60000%N |}.

(** [processFile]; [pdfAvailable] is the page's state cell of that name. *)
Definition processFile (env : Env) (pdfAvailable : bool) (now : N)
  (date : Date) (file : File) (w : World) (st : State)
  : State * option Toast :=
  let validation := validatePDFFile (Some file) in
  if negb (valid validation)
  then (st, Some (toastError
                    (match error validation with
                     | Some e => if truthy e then e else lit "Invalid PDF file"
                     | None => lit "Invalid PDF file"
                     end)))
  else if negb pdfAvailable
  then (st, Some (toastError (lit "PDF processing is currently unavailable")))
  else
    match fst (processPDFFile env file homePageOptions w) with
    | resolved result =>
        (addContent now date
           (newItem (if truthy (title result) then title result
                     else replace (lit ".pdf") [] (file_name file))
                    pdf (text result)) st,
         Some (toastSuccess (lit "PDF processed successfully! ("
                               ++ natToString (pageCount result)
                               ++ lit " pages)")))
    | rejected (raisedPDF e) => (st, Some (toastError (getErrorMessage e)))
    | rejected (raisedOther _) =>
        (st, Some (toastError (lit "Failed to process PDF")))
    | pending => (st, None)
    end.

(** [onDrop] *)
Definition onDrop (env : Env) (pdfAvailable : bool) (now : N) (date : Date)
  (acceptedFiles : list File) (w : World) (st : State)
  : State * option Toast :=
  match acceptedFiles with
  | [] => (st, None)
  | file :: _ =>
      if negb (str_eqb (file_type file) (lit "application/pdf"))
      then (st, Some (toastError (lit "Please upload a PDF file")))
      else processFile env pdfAvailable now date file w st
  end.

Definition mockTranscript (videoId : str) : str :=
  lit "This is a placeholder transcript for YouTube video: " ++ videoId
    ++ lit ". " ++ [ascii_of_nat 10]
    ++ lit "      In a real implementation, this would contain the actual video transcript "
    ++ [ascii_of_nat 10]
    ++ lit "      extracted using YouTube's API or third-party transcript services.".

(** [processYouTube] *)
Definition processYouTube (now : N) (date : Date) (youtubeUrl : str)
  (st : State) : State * option Toast :=
  if negb (truthy (trim youtubeUrl))
  then (st, Some (toastError (lit "Please enter a YouTube URL")))
  else
    match extractVideoId youtubeUrl with
    | None => (st, Some (toastError (lit "Failed to process YouTube video")))
    | Some videoId =>
        (addContent now date
           (newItem (lit "YouTube Video: " ++ videoId) youtube
                    (mockTranscript videoId)) st,
         Some (toastSuccess (lit "YouTube video processed!")))
    end.

(** [processText]; [localeDate] is [new Date().toLocaleDateString()]. *)
Definition processText (now : N) (date : Date) (localeDate : str)
  (textContent : str) (st : State) : State * option Toast :=
  if negb (truthy (trim textContent))
  then (st, Some (toastError (lit "Please enter some text content")))
  else
    (addContent now date
       (newItem (lit "Text Content - " ++ localeDate) Content.text textContent) st,
     Some (toastSuccess (lit "Text content added!"))).

End HomePage.

(** ** The configuration dialog ([OllamaConfigModal.tsx]) *)

Module ConfigModal.
Import Js Ollama.
Import Generation (Toast, toastError, toastSuccess).

Inductive ConnectionStatus := idle | testing | success | error.

(** [testConnection]: the status it ends with and the notification. *)
Definition testConnection (net : Net) (tempUrl : str)
  : ConnectionStatus * Toast :=
  match fetchWithin 5000%N (getTags net (tempUrl ++ lit "/api/tags")) with
  | inr response =>
      if ok response
      then (success, toastSuccess (lit "Connection successful!"))
      else (error,
            toastError (lit "Connection failed - server responded with error"))
  | inl (thrownError ename _) =>
      (error,
       if str_eqb ename (lit "AbortError")
       then toastError (lit "Connection timeout - make sure Ollama is running")
       else toastError (lit "Connection failed - check URL and CORS settings"))
  | inl (thrownNullish _) | inl (thrownValue _ _) =>
      (error, toastError (lit "Connection failed - check URL and CORS settings"))
  end.

(** [saveConfiguration].  The handler calls the [checkConnection] and the
    [loadModels] it took from the context when the dialog was rendered:
    they read the [ollamaUrl] and the [selectedModel] of that render, [c],
    while their setters, like [setOllamaUrl(tempUrl)] before them, write
    to the state of the provider.  [net1] is the server as the check finds
    it and [net2] as the load does.  The boolean tells whether the dialog
    is closed. *)
Definition saveConfiguration (isDeployed : bool) (net1 net2 : Net)
  (connectionStatus : ConnectionStatus) (tempUrl : str) (c : Client)
  : Client * Toast * bool :=
  match connectionStatus with
  | success =>
      let (connected, checked) := checkConnection isDeployed net1 c in
      if connected
      then (setOllamaUrl tempUrl (loadModels isDeployed net2 c),
            toastSuccess (lit "Configuration saved successfully!"), true)
      else (setOllamaUrl tempUrl checked,
            toastError (lit "Failed to connect with the new configuration"),
            false)
  | _ => (c, toastError (lit "Please test the connection first"), false)
  end.

End ConfigModal.

(** ** The outcomes of an extraction *)

Module PdfSpec2.
Import Js Pdf PdfSpec.

(** What page [k] adds to [fullText]: its text and a blank line, or
    nothing when the page does not load, its text content does not come,
    or its text is empty. *)
Definition pageContribution (pdf : PDFDocumentProxy) (k : nat) : str :=
  match gives (getPage pdf k) with
  | inr page =>
      match gives (getTextContent page) with
      | inr items =>
          if truthy (pageTextOf items)
          then pageTextOf items ++ [ascii_of_nat 10; ascii_of_nat 10]
          else []
      | inl _ => []
      end
  | inl _ => []
  end.

(** What the loop accumulates over the pages it processes. *)
Definition extractedText (pdf : PDFDocumentProxy) (opts : PDFProcessingOptions)
  : str :=
  List.concat (map (pageContribution pdf)
                 (seq 1 (Nat.min (numPages pdf) (maxPagesOf opts)))).

Definition noTextError : Raised :=
  raisedPDF {| message := lit "No text content found in PDF";
               code := lit "NO_TEXT" |}.

(** The processing settles before the timer fires. *)
Definition completesInTime (env : Env) (file : File)
  (opts : PDFProcessingOptions) (w : World) : Prop :=
  let w0 := raceStart opts w in
  match processing env file opts w0 with
  | (pending, _) => False
  | (_, w') => (clock w' < clock w0 + timeoutOf opts)%N
  end.

(** The codes of the error taxonomy. *)
Definition validationCodes : list str :=
  [lit "UNAVAILABLE"; lit "INVALID_TYPE"; lit "FILE_TOO_LARGE"].

Definition extractionCodes : list str :=
  [lit "PASSWORD_PROTECTED"; lit "INVALID_PDF"; lit "LOAD_ERROR";
   lit "NO_TEXT"; lit "TIMEOUT"].

Definition wrapperCodes : list str :=
  [lit "PROCESSING_ERROR"; lit "UNKNOWN_ERROR"].

Definition errorCodes : list str :=
  validationCodes ++ extractionCodes ++ wrapperCodes.

(** No page of the range contributes any text: an image-only document. *)
Definition noPageHasText (pdf : PDFDocumentProxy) (opts : PDFProcessingOptions)
  : Prop :=
  forall k, 1 <= k <= Nat.min (numPages pdf) (maxPagesOf opts) ->
            pageContribution pdf k = [].

(** Where a wrapper code comes from: the file cannot be read, the
    callback throws, or the library rejects with [undefined] or [null]. *)
Definition wrapperCause (env : Env) (file : File)
  (opts : PDFProcessingOptions) : Prop :=
  (exists t, gives (arrayBuffer file) = inl t)
  \/ (exists p t, throwsAt opts p = Some t)
  \/ (exists buffer complaint,
         gives (arrayBuffer file) = inr buffer /\
         gives (getDocument env buffer) = inl (thrownNullish complaint)).



End PdfSpec2.

(** ** What the home page stores *)

Module HomePageSpec.
Import Js Content Store.

(** A new item with the given kind and body has been appended to the
    collection and is the selection; nothing has been generated for it. *)
Definition ingested (now : N) (k : ContentType) (body : str)
  (st st' : State) : Prop :=
  exists item,
    contents st' = contents st ++ [item] /\
    currentContent st' = Some item /\
    id item = NToString now /\
    type item = k /\
    content item = body /\
    summary item = None /\ flashcards item = None /\ quiz item = None.

(** The character after a video id, if any, ends the id. *)
Definition endsId (rest : str) : Prop :=
  match rest with
  | [] => True
  | c :: _ => HomePage.isIdChar c = false
  end.

Definition isVideoId (videoId : str) : Prop :=
  videoId <> [] /\ forallb HomePage.isIdChar videoId = true.

End HomePageSpec.

(** ** What the server answers *)

Module OllamaSpec.
Import Js Ollama.

(** The server answers the listing request of client [c] in time, with a
    success status and a body that can be read. *)
Definition tagsAnswered (net : Net) (c : Client) (data : TagsData) : Prop :=
  exists resp,
    fetchWithin 5000%N (getTags net (tagsUrl c)) = inr resp /\
    ok resp = true /\ json resp = inr data.

(** The same for the generation request with the prompt as it is. *)
Definition generateAnswered (net : Net) (c : Client) (prompt : str)
  (data : GenerateData) : Prop :=
  exists resp,
    fetchWithin 30000%N
      (postGenerate net (generateUrl c) (selectedModel c) prompt) = inr resp /\
    ok resp = true /\ json resp = inr data.

Definition modelsOf (data : TagsData) : list OllamaModel :=
  match data_models data with Some m => m | None => [] end.

(** The prompt of an operation of the dashboard on item [cur]. *)
Definition promptOf (k : Generation.Kind) (cur : Content.StudyContent) : str :=
  match k with
  | Generation.kSummary => Generation.summaryPrompt cur
  | Generation.kFlashcards => Generation.flashcardsPrompt cur
  | Generation.kQuiz => Generation.quizPrompt cur
  end.

Definition timedOutMessage : str :=
  lit "Text generation timed out. Please try again.".

(** The surroundings of the dashboard when the client is [c] and the
    server is [net]. *)
Definition envOfClient (isDeployed : bool) (net : Net) (c : Client)
  : Generation.Env :=
  {| Generation.isDeployed := isDeployed;
     Generation.isConnected := isConnected c;
     Generation.generateText := fun prompt => generateText net c prompt None |}.

End OllamaSpec.

(** ** Selections of stored items *)

Module StoreSpec2.
Import Js Content Store.

(** The selection, when there is one, is one of the stored items. *)
Definition selectionStored (st : State) : Prop :=
  forall cur, currentContent st = Some cur -> In cur (contents st).

(** An operation that is in step with the store: what it selects is a
    stored item, and when it is an update, the render it is called from
    is not out of date, that is, the selection of that render passes the
    test on the id exactly when the committed selection does. *)
Definition inStep (st : State) (op : Op) : Prop :=
  match op with
  | opSetCurrent (Some c) => In c (contents st)
  | opUpdate render id0 _ => selectionHasId render id0 = currentHasId st id0
  | _ => True
  end.

Fixpoint allInStep (st : State) (ops : list Op) : Prop :=
  match ops with
  | [] => True
  | op :: rest => inStep st op /\ allInStep (step st op) rest
  end.

(** A new item as the home page makes it: nothing is generated yet. *)
Definition plain (c : NewContent) : Prop :=
  new_summary c = None /\ new_flashcards c = None /\ new_quiz c = None.

End StoreSpec2.

(** ** The operations of the dashboard, by kind *)

Module GenerationSpec.
Import Js Content Parser Store Generation OllamaSpec.

(** The demonstration response of an operation. *)
Definition demoOf (k : Kind) : str :=
  match k with
  | kSummary => demoSummary
  | kFlashcards => demoFlashcards
  | kQuiz => demoQuiz
  end.

(** The response an operation on item [cur] works with. *)
Definition responseOf (env : Env) (k : Kind) (cur : StudyContent)
  : str + Thrown :=
  respond env (demoOf k) (promptOf k cur).

(** The updates an operation makes of a response. *)
Definition updatesFor (k : Kind) (contentId : str) (response : str) : Updates :=
  match k with
  | kSummary => summaryUpdates response
  | kFlashcards => flashcardsUpdates (parseFlashcards contentId response)
  | kQuiz => quizUpdates (parseQuiz contentId response)
  end.

(** The model can be asked: demonstration mode, or a connected client. *)
Definition reachable (env : Env) : Prop :=
  isDeployed env = true \/ isConnected env = true.

End GenerationSpec.

(** ** Well-formed artifacts and the formats the prompts ask for *)

Module ParserSpec2.
Import Js Content Parser ParserSpec.

(** A string with no white space at either end. *)
Definition trimmed (s : str) : Prop := trim s = s.

(** A card as the parser should leave it. *)
Definition wellFormedCard (contentId : str) (card : Flashcard) : Prop :=
  front card <> [] /\ back card <> [] /\
  trimmed (front card) /\ trimmed (back card) /\
  difficulty card = medium /\ lastReviewed card = None /\
  exists index,
    fc_id card = contentId ++ lit "-flashcard-" ++ natToString index.

(** A question as the parser should leave it. *)
Definition wellFormedQuestion (contentId : str) (q : QuizQuestion) : Prop :=
  (0 <= correctAnswer q <= 3)%Z /\
  List.length (options q) = 4 /\
  Forall trimmed (options q) /\
  trimmed (question q) /\
  explanation q <> None /\
  exists i, i < 5 /\ qq_id q = contentId ++ lit "-quiz-" ++ natToString i.

(** The line the flashcard prompt asks for:
    [Q: [question] | A: [answer]]. *)
Definition formatCard (p : str * str) : str :=
  lit "Q: " ++ fst p ++ lit " | A: " ++ snd p.

Definition formatCards (pairs : list (str * str)) : str :=
  join newline (map formatCard pairs).

Definition bar : ascii := "|"%char.
Definition lineFeed : ascii := ascii_of_nat 10.
Definition colon : ascii := ":"%char.

(** A front or a back that survives the round trip: not empty, no white
    space at the ends, no bar and no line feed inside. *)
Definition cardField (s : str) : Prop :=
  s <> [] /\ trimmed s /\ ~ In bar s /\ ~ In lineFeed s.

Definition cardOf (contentId : str) (p : str * str) (index : nat) : Flashcard :=
  {| fc_id := contentId ++ lit "-flashcard-" ++ natToString index;
     front := fst p; back := snd p;
     difficulty := medium; lastReviewed := None |}.

(** The block the quiz prompt asks for, from after its [Q:] on. *)
Definition formatQuestion (q o1 o2 o3 o4 : str) (X : ascii) (e : str) : str :=
  join newline
    [lit " " ++ q; lit "A) " ++ o1; lit "B) " ++ o2; lit "C) " ++ o3;
     lit "D) " ++ o4; lit "Correct: " ++ [X]; lit "Explanation: " ++ e].

(** A question or an option that survives the round trip: not empty, no
    white space at the ends, no colon and no line feed inside. *)
Definition quizField (s : str) : Prop :=
  s <> [] /\ trimmed s /\ ~ In colon s /\ ~ In lineFeed s.

(** An explanation that does: one line that does not begin with white
    space. *)
Definition questionOf (contentId : str) (i : nat) (q o1 o2 o3 o4 e : str)
  : QuizQuestion :=
  {| qq_id := contentId ++ lit "-quiz-" ++ natToString i;
     question := q;
     options := [o1; o2; o3; o4];
     correctAnswer := 2;
     explanation := Some e |}.

Definition explanationField (e : str) : Prop :=
  dropSpaces e = e /\ ~ In lineFeed e.

Definition cardSep : str := lit " | A: ".

End ParserSpec2.

(** ** Sessions of the application *)

Module SessionSpec.
Import Js Content Store.

(** What the user can do in the pages of the application: drop files,
    submit a YouTube URL or a text on the home page, and ask for one of the
    three generations on the dashboard.  Each action carries what its
    handler reads from its surroundings, and stands in the session at the
    point where its handler writes to the store.  For a generation that
    is when the response has arrived: [earlier] tells how many actions
    ago the button was clicked (0 when nothing has come in between). *)
Inductive Action :=
| dropFiles (env : Pdf.Env) (pdfAvailable : bool) (now : N) (date : Date)
            (acceptedFiles : list Pdf.File) (w : Pdf.World)
| submitYouTube (now : N) (date : Date) (youtubeUrl : str)
| submitText (now : N) (date : Date) (localeDate : str) (textContent : str)
| askFor (k : Generation.Kind) (env : Generation.Env) (earlier : nat).

(** The store after each action so far, the latest first. *)
Definition History : Type := list State.

Definition latest (h : History) : State := hd Store.empty h.

(** The store as it was [earlier] actions ago; before the first action
    it was empty. *)
Definition past (h : History) (earlier : nat) : State :=
  nth earlier h Store.empty.

(** The render a generation was asked in: in demonstration mode nothing
    is awaited, so that it is the render of the store as it is. *)
Definition renderOf (h : History) (env : Generation.Env) (earlier : nat)
  : State :=
  if Generation.isDeployed env then latest h else past h earlier.

Definition act (h : History) (a : Action) : State :=
  let st := latest h in
  match a with
  | dropFiles env pdfAvailable now date files w =>
      fst (HomePage.onDrop env pdfAvailable now date files w st)
  | submitYouTube now date url =>
      fst (HomePage.processYouTube now date url st)
  | submitText now date localeDate textContent =>
      fst (HomePage.processText now date localeDate textContent st)
  | askFor k env earlier =>
      fst (Generation.perform k env (renderOf h env earlier) st)
  end.

Definition record (h : History) (a : Action) : History := act h a :: h.

Definition session (actions : list Action) : State :=
  latest (fold_left record actions []).

Definition lastItem (items : list StudyContent) : option StudyContent :=
  match rev items with
  | item :: _ => Some item
  | [] => None
  end.

(** The response of every generation arrives before anything else is
    done. *)
Definition answeredAtOnce (a : Action) : Prop :=
  match a with
  | askFor _ env earlier => earlier = 0 \/ Generation.isDeployed env = true
  | _ => True
  end.

(** The selection is the item added last, as far as the fields go that
    make the item (id, title, kind, body, date); there is none when
    nothing is stored; and no stored body is blank. *)
Definition sessionInvariant (st : State) : Prop :=
  match currentContent st, lastItem (contents st) with
  | Some cur, Some item => StoreSpec.sameIdentity item cur
  | None, None => True
  | _, _ => False
  end /\
  Forall (fun item => Parser.nonBlank (content item) = true) (contents st).

(** The selection is the item added last with all its fields as they
    are stored. *)
Definition inSync (st : State) : Prop :=
  currentContent st = lastItem (contents st).

End SessionSpec.

(** ** Further inputs *)

Module MoreExamples.
Import Js Content.

(** A file that is not a PDF. *)
Definition textFile : Pdf.File :=
  {| Pdf.file_name := lit "notes.txt";
     Pdf.file_type := lit "text/plain";
     Pdf.file_size := 2048;
     Pdf.arrayBuffer := {| Pdf.takes := Some 3%N; Pdf.gives := inr (lit "hello") |} |}.

(** A file the browser cannot read. *)
Definition unreadableFile : Pdf.File :=
  {| Pdf.file_name := lit "gone.pdf";
     Pdf.file_type := lit "application/pdf";
     Pdf.file_size := 2048;
     Pdf.arrayBuffer :=
       {| Pdf.takes := Some 3%N;
          Pdf.gives := inl (thrownError (lit "NotReadableError")
                              (lit "The file could not be read")) |} |}.

(** Two scanned pages: no text item on either. *)
Definition scannedPages : Pdf.PDFDocumentProxy :=
  {| Pdf.numPages := 2;
     Pdf.getMetadata := Examples.noMetadata;
     Pdf.getPage := fun _ => Examples.goodPage 5 5 [] |}.

(** A library that asks for a password. *)
Definition protectedEnv : Pdf.Env :=
  {| Pdf.workerConfigured := true;
     Pdf.getDocument := fun _ =>
       {| Pdf.takes := Some 10%N;
          Pdf.gives := inl (thrownError (lit "PasswordException")
                              (lit "No password given")) |};
     Pdf.timerWinsTie := false |}.

Definition shortUrl : str := lit "https://youtu.be/dQw4w9WgXcQ?t=42".
Definition videoId : str := lit "dQw4w9WgXcQ".

(** A client with no model selected and a server that lists two. *)
Definition mistral : Ollama.OllamaModel :=
  {| Ollama.name := lit "mistral"; Ollama.size := lit "4.1GB";
     Ollama.modified_at := lit "2024-02-01" |}.

Definition unselectedClient : Ollama.Client :=
  {| Ollama.models := []; Ollama.selectedModel := [];
     Ollama.isConnected := false; Ollama.isLoading := false;
     Ollama.ollamaUrl := lit "http://localhost:11434" |}.

Definition tagsResponse : Ollama.Response Ollama.TagsData :=
  {| Ollama.ok := true; Ollama.status := 200; Ollama.statusText := lit "OK";
     Ollama.json := inr {| Ollama.data_models := Some [mistral; Examples.llama] |} |}.

Definition listingServer : Ollama.Net :=
  {| Ollama.getTags := fun _ =>
       {| Ollama.latency := Some 20%N; Ollama.settles := inr tagsResponse |};
     Ollama.postGenerate := fun _ _ _ =>
       {| Ollama.latency := None; Ollama.settles := inr Examples.errorResponse |} |}.

(** A server that does not answer generation requests. *)
Definition silentServer : Ollama.Net :=
  {| Ollama.getTags := fun _ =>
       {| Ollama.latency := None; Ollama.settles := inr Examples.errorResponse |};
     Ollama.postGenerate := fun _ _ _ =>
       {| Ollama.latency := None; Ollama.settles := inr Examples.errorResponse |} |}.

Definition firstItem : StudyContent := Examples.item (lit "1") (lit "first").

(** A connected client whose model answers every prompt. *)
Definition answeringEnv : Generation.Env :=
  {| Generation.isDeployed := false; Generation.isConnected := true;
     Generation.generateText := fun _ => inl (lit "In short: some text.") |}.

Definition twoCards : list (str * str) :=
  [(lit "What is 2+2?", lit "4"); (lit "Capital of France?", lit "Paris")].

End MoreExamples.

(* ===================================================================== *)
(** * Part II: what the program guarantees                                *)
(* ===================================================================== *)

Unset Implicit Arguments.

(** ** Facts about the string built-ins *)

Module JsFacts.
Import Js.

Lemma startsWith_app (p post : str) : startsWith p (p ++ post) = true.
Proof.
  induction p as [|a p IH]; simpl; [reflexivity|].
  destruct (ascii_dec a a); [assumption | congruence].
Qed.

Lemma startsWith_inv (p s : str) :
  startsWith p s = true -> exists post, s = p ++ post.
Proof.
  revert s; induction p as [|a p IH]; intros s H.
  - exists s; reflexivity.
  - destruct s as [|b s]; simpl in H; [discriminate|].
    destruct (ascii_dec a b) as [->|]; [|discriminate].
    destruct (IH _ H) as [post ->]. exists post; reflexivity.
Qed.

Lemma startsWith_skipn (p s : str) :
  startsWith p s = true -> s = p ++ skipn (List.length p) s.
Proof.
  intros H. destruct (startsWith_inv _ _ H) as [post ->].
  now rewrite skipn_app, skipn_all, Nat.sub_diag.
Qed.

Lemma includes_unfold (sub s : str) :
  includes sub s =
  startsWith sub s || match s with [] => false | _ :: s' => includes sub s' end.
Proof. destruct s; reflexivity. Qed.

(** [includes] is the substring test. *)
Lemma includes_spec (sub s : str) :
  includes sub s = true <-> exists pre post, s = pre ++ sub ++ post.
Proof.
  split.
  - induction s as [|c s IH]; simpl; intros H.
    + rewrite orb_false_r in H. apply startsWith_inv in H.
      destruct H as [post ->]. now exists [], post.
    + apply orb_true_iff in H. destruct H as [H|H].
      * apply startsWith_inv in H. destruct H as [post ->]. now exists [], post.
      * destruct (IH H) as (pre & post & ->). now exists (c :: pre), post.
  - intros (pre & post & ->). induction pre as [|c pre IH].
    + simpl app. now rewrite includes_unfold, startsWith_app.
    + simpl app. rewrite includes_unfold. cbv iota. simpl app in IH.
      rewrite IH. apply orb_true_r.
Qed.

Lemma isSpace_dropSpaces_hd (s : str) c rest :
  dropSpaces s = c :: rest -> isSpace c = false.
Proof.
  induction s as [|d s IH]; simpl; [discriminate|].
  destruct (isSpace d) eqn:E; [assumption|]. now intros [= <- _].
Qed.

(** [split] never returns the empty array for the separators in use. *)
Lemma splitGo_not_nil sep skip cur s : splitGo sep skip cur s <> [].
Proof.
  revert skip cur; induction s as [|c s IH]; intros skip cur; simpl.
  - discriminate.
  - destruct skip; [|apply IH].
    destruct (startsWith sep (c :: s)); [discriminate | apply IH].
Qed.

Lemma join_cons sep a l :
  l <> [] -> join sep (a :: l) = a ++ sep ++ join sep l.
Proof. destruct l; [congruence | reflexivity]. Qed.

(** Joining the pieces with the separator gives the string back. *)
Lemma join_splitGo sep skip cur s :
  sep <> [] ->
  skip <= List.length s ->
  (skip = 0 \/ cur = []) ->
  join sep (splitGo sep skip cur s) = rev cur ++ skipn skip s.
Proof.
  intros Hsep. revert skip cur.
  induction s as [|c s IH]; intros skip cur Hle Hc; simpl in *.
  - assert (skip = 0) by lia. subst. simpl. now rewrite app_nil_r.
  - destruct skip as [|k].
    + destruct (startsWith sep (c :: s)) eqn:E.
      * rewrite join_cons by apply splitGo_not_nil.
        pose proof (startsWith_skipn _ _ E) as Hs.
        destruct sep as [|a sep']; [congruence|].
        simpl in Hs. injection Hs as Hc' Hs.
        assert (Hlen : List.length sep' <= List.length s).
        { rewrite Hs, length_app. lia. }
        rewrite IH; [| simpl; lia | now right].
        simpl. rewrite Nat.sub_0_r. subst c.
        f_equal. f_equal. symmetry. exact Hs.
      * rewrite IH; [| simpl; lia | now left].
        simpl. now rewrite <- app_assoc.
    + destruct Hc as [Hc|Hc]; [discriminate|]. subst cur.
      rewrite IH; [reflexivity | lia | now right].
Qed.

Theorem join_split sep s : sep <> [] -> join sep (split sep s) = s.
Proof.
  intros Hsep. unfold split. destruct sep as [|a sep]; [congruence|].
  rewrite join_splitGo; simpl; try lia; auto; discriminate.
Qed.

Lemma split_not_nil sep s : sep <> [] -> split sep s <> [].
Proof.
  intros Hsep. unfold split. destruct sep; [congruence|]. apply splitGo_not_nil.
Qed.

Lemma mapiFrom_app {A B} (f : A -> nat -> B) i l1 l2 :
  mapiFrom f i (l1 ++ l2) = mapiFrom f i l1 ++ mapiFrom f (List.length l1 + i) l2.
Proof.
  revert i; induction l1 as [|a l1 IH]; intros i; simpl; [reflexivity|].
  rewrite IH. do 2 f_equal. f_equal. lia.
Qed.

Lemma mapiFrom_length {A B} (f : A -> nat -> B) i l :
  List.length (mapiFrom f i l) = List.length l.
Proof. revert i; induction l; intros; simpl; auto. Qed.

Lemma mapiFrom_nth_error {A B} (f : A -> nat -> B) i l k :
  nth_error (mapiFrom f i l) k = option_map (fun a => f a (k + i)) (nth_error l k).
Proof.
  revert i k; induction l as [|a l IH]; intros i [|k]; simpl; auto.
  rewrite IH. now rewrite Nat.add_succ_r.
Qed.

End JsFacts.

(** ** The response parsers *)

Module ParserFacts.
Import Js Content Parser ParserSpec JsFacts.

(** *** [Array.prototype.find] returns the first match *)

Lemma find_firstSuch {A} (f : A -> bool) (l : list A) (x : A) :
  find f l = Some x <-> firstSuch (fun y => f y = true) l x.
Proof.
  split.
  - induction l as [|a l IH]; simpl; [discriminate|].
    destruct (f a) eqn:E.
    + intros [= <-]. exists 0. repeat split; auto. intros j y Hj; lia.
    + intros H. destruct (IH H) as (i & Hi & Hx & Hfirst).
      exists (S i). repeat split; auto.
      intros [|j] y Hj Hy; simpl in Hy.
      * injection Hy as <-. congruence.
      * apply (Hfirst j); [lia | assumption].
  - intros (i & Hi & Hx & Hfirst). revert i Hi Hfirst.
    induction l as [|a l IH]; intros [|i] Hi Hfirst; simpl in *; try discriminate.
    + injection Hi as ->. now rewrite Hx.
    + destruct (f a) eqn:E.
      * exfalso. apply (Hfirst 0 a); [lia | reflexivity | assumption].
      * apply (IH i Hi). intros j y Hj Hy. apply (Hfirst (S j)); [lia | assumption].
Qed.


Lemma firstSuch_iff {A} (P Q : A -> Prop) (l : list A) (x : A) :
  (forall y, P y <-> Q y) -> firstSuch P l x -> firstSuch Q l x.
Proof.
  intros HPQ (i & Hi & Hx & Hfirst). exists i. repeat split; auto.
  - now apply HPQ.
  - intros j y Hj Hy HQ. apply (Hfirst j y Hj Hy). now apply HPQ.
Qed.


Lemma firstSuch_unique {A} (P : A -> Prop) (l : list A) (x y : A) :
  firstSuch P l x -> firstSuch P l y -> x = y.
Proof.
  intros (i & Hi & Hx & Hfi) (j & Hj & Hy & Hfj).
  destruct (Nat.lt_trichotomy i j) as [H|[H|H]].
  - now destruct (Hfj i x H Hi).
  - subst. congruence.
  - now destruct (Hfi j y H Hj).
Qed.

Lemma firstSuch_not_noneSuch {A} (P : A -> Prop) (l : list A) (x : A) :
  firstSuch P l x -> noneSuch P l -> False.
Proof.
  intros (i & Hi & Hx & _) H. exact (H x (nth_error_In _ _ Hi) Hx).
Qed.

(** *** The two tests of the correct-answer scan *)

Lemma hasCorrectMarker_spec (line : str) :
  hasCorrectMarker line = true <-> hasCorrect line.
Proof.
  unfold hasCorrectMarker, hasCorrect, containsCI, toLowerCase.
  rewrite includes_spec. split.
  - intros (pre & post & H).
    apply map_eq_app in H. destruct H as (pre' & rest & -> & Hpre & H).
    apply map_eq_app in H. destruct H as (m & post' & -> & Hm & Hpost).
    now exists pre', m, post'.
  - intros (pre & m & post & -> & Hm).
    exists (map lowerChar pre), (map lowerChar post).
    now rewrite !map_app, Hm.
Qed.

Lemma isAD_spec (c : ascii) : isAD c = true <-> letterAD c.
Proof.
  unfold isAD, letterAD. split.
  - intros H. apply andb_true_iff in H. destruct H as [Hlo Hhi].
    apply Nat.leb_le in Hlo, Hhi.
    rewrite <- (ascii_nat_embedding c).
    assert (Hn : nat_of_ascii c = 65 \/ nat_of_ascii c = 66
                 \/ nat_of_ascii c = 67 \/ nat_of_ascii c = 68) by lia.
    destruct Hn as [-> | [-> | [-> | ->]]]; auto.
  - intros [-> | [-> | [-> | ->]]]; reflexivity.
Qed.

Lemma isAD_false_spec (c : ascii) : isAD c = false <-> ~ letterAD c.
Proof.
  rewrite <- isAD_spec. destruct (isAD c); split; congruence.
Qed.

(** [['A', 'B', 'C', 'D'].indexOf] is the index of the letter. *)
Lemma indexOf_letter (c : ascii) :
  letterAD c -> indexOf ascii_eqb c letters = letterIndex c.
Proof. intros [-> | [-> | [-> | ->]]]; reflexivity. Qed.

Lemma letterIndex_range (c : ascii) :
  letterAD c -> (0 <= letterIndex c <= 3)%Z.
Proof. intros [-> | [-> | [-> | ->]]]; vm_compute; split; congruence. Qed.




(** *** The loop over the blocks *)

Lemma quizLoop_spec contentId blocks i questions :
  quizLoop contentId blocks i questions =
  questions ++ List.concat (mapiFrom (contribution contentId) i (firstn (5 - i) blocks)).
Proof.
  revert i questions. induction blocks as [|block rest IH]; intros i questions.
  - simpl. rewrite firstn_nil. simpl. now rewrite app_nil_r.
  - cbn [quizLoop]. destruct (i <? 5) eqn:E.
    + apply Nat.ltb_lt in E. rewrite IH.
      replace (5 - i) with (S (5 - S i)) by lia.
      cbn [firstn mapiFrom List.concat]. now rewrite <- app_assoc.
    + apply Nat.ltb_ge in E. replace (5 - i) with 0 by lia.
      cbn [firstn mapiFrom List.concat]. now rewrite app_nil_r.
Qed.

Lemma parseQuiz_spec contentId quizText :
  parseQuiz contentId quizText =
  List.concat (mapi (contribution contentId) (firstn 5 (questionBlocksOf quizText))).
Proof. unfold parseQuiz. now rewrite quizLoop_spec. Qed.

Lemma questionsOfBlock_length contentId i block :
  List.length (questionsOfBlock contentId i block) <= 1.
Proof.
  unfold questionsOfBlock. destruct (6 <=? _); simpl; lia.
Qed.

Lemma concat_length_le {A} (ls : list (list A)) :
  (forall l, In l ls -> List.length l <= 1) ->
  List.length (List.concat ls) <= List.length ls.
Proof.
  induction ls as [|l ls IH]; intros H; simpl; [lia|].
  rewrite length_app.
  pose proof (H l (or_introl eq_refl)).
  assert (List.length (List.concat ls) <= List.length ls)
    by (apply IH; intros; apply H; now right).
  lia.
Qed.

Lemma mapiFrom_In {A B} (f : A -> nat -> B) i l b :
  In b (mapiFrom f i l) -> exists a k, nth_error l k = Some a /\ b = f a (k + i).
Proof.
  intros H. apply In_nth_error in H. destruct H as [k Hk].
  rewrite mapiFrom_nth_error in Hk.
  destruct (nth_error l k) as [a|] eqn:E; [|discriminate].
  injection Hk as <-. now exists a, k.
Qed.

Lemma parseQuiz_length contentId quizText :
  List.length (parseQuiz contentId quizText) <= 5.
Proof.
  rewrite parseQuiz_spec.
  etransitivity; [apply concat_length_le|].
  - intros l Hl. apply mapiFrom_In in Hl. destruct Hl as (a & k & _ & ->).
    apply questionsOfBlock_length.
  - unfold mapi. rewrite mapiFrom_length, length_firstn. lia.
Qed.

(** A block among the first five contributes its questions to the result. *)
Lemma parseQuiz_block contentId quizText i block q :
  nth_error (questionBlocksOf quizText) i = Some block -> i < 5 ->
  In q (questionsOfBlock contentId i block) ->
  In q (parseQuiz contentId quizText).
Proof.
  intros Hi Hlt Hq. rewrite parseQuiz_spec. apply in_concat.
  exists (questionsOfBlock contentId i block). split; [|assumption].
  apply (nth_error_In _ i). unfold mapi. rewrite mapiFrom_nth_error.
  rewrite nth_error_firstn.
  destruct (Nat.ltb_spec i 5) as [_|]; [|lia].
  rewrite Hi. simpl. now rewrite Nat.add_0_r.
Qed.

(** Every question of the result is the contribution of such a block. *)
Lemma parseQuiz_In contentId quizText q :
  In q (parseQuiz contentId quizText) ->
  exists i block,
    nth_error (questionBlocksOf quizText) i = Some block /\ i < 5 /\
    In q (questionsOfBlock contentId i block).
Proof.
  rewrite parseQuiz_spec. intros H. apply in_concat in H.
  destruct H as (l & Hl & Hq). apply mapiFrom_In in Hl.
  destruct Hl as (block & k & Hk & ->). rewrite Nat.add_0_r in Hq.
  rewrite nth_error_firstn in Hk.
  destruct (Nat.ltb_spec k 5); [|discriminate].
  now exists k, block.
Qed.

Lemma questionsOfBlock_enough contentId i block :
  6 <= List.length (blockLines block) ->
  questionsOfBlock contentId i block =
  [questionOfLines contentId i (blockLines block)].
Proof.
  intros H. unfold questionsOfBlock.
  destruct (Nat.leb_spec 6 (List.length (blockLines block))); [reflexivity | lia].
Qed.

Lemma questionsOfBlock_short contentId i block :
  List.length (blockLines block) < 6 ->
  questionsOfBlock contentId i block = [].
Proof.
  intros H. unfold questionsOfBlock.
  destruct (Nat.leb_spec 6 (List.length (blockLines block))); [lia | reflexivity].
Qed.

Lemma options_length contentId i lines :
  6 <= List.length lines ->
  List.length (options (questionOfLines contentId i lines)) = 4.
Proof.
  intros H. simpl. unfold slice.
  rewrite length_map, length_firstn, length_skipn. lia.
Qed.

End ParserFacts.

(** ** The parsers: the properties of the specification *)

Module ParserClaims.
Import Js Content Parser ParserSpec JsFacts ParserFacts.

(** *** Flashcards *)



Lemma truthy_nil_false (s : str) : truthy s = true -> s <> [].
Proof. destruct s; [discriminate | discriminate]. Qed.






(** *** Quiz questions *)

Example canonical_block_parses :
  map (fun q => (question q, options q, correctAnswer q, explanation q))
      (parseQuiz (lit "17") Examples.canonicalQuiz)
  = [(lit "Which one?",
      [lit "first"; lit "second"; lit "third"; lit "fourth"],
      2%Z, Some (lit "because"))].
Proof. reflexivity. Qed.

Example unmarked_block_defaults_to_zero :
  map (fun q => (correctAnswer q, explanation q))
      (parseQuiz (lit "17") Examples.unmarkedQuiz)
  = [(0%Z, Some (lit "because"))].
Proof. reflexivity. Qed.



Lemma matchAD_Correct (rest : str) : matchAD (lit "Correct: " ++ rest) = Some "C"%char.
Proof. reflexivity. Qed.

(** C4.  When the line with the marker is written the way the prompt asks
    for it, [Correct: X], and X is A, B or D, the question's
    [correctAnswer] is 2 all the same: the first A-D letter of that line is
    the capital C of the word [Correct], and the letter after the colon is
    not looked at. *)
Theorem C4_correct_line_always_two :
  forall (contentId quizText : str) (i : nat) (block : str) (X : ascii),
    nth_error (questionBlocksOf quizText) i = Some block ->
    i < 5 ->
    6 <= List.length (blockLines block) ->
    firstSuch hasCorrect (blockLines block) (lit "Correct: " ++ [X]) ->
    X = "A"%char \/ X = "B"%char \/ X = "D"%char ->
    exists q,
      In q (parseQuiz contentId quizText) /\
      questionsOfBlock contentId i block = [q] /\
      correctAnswer q = 2%Z /\
      correctAnswer q <> letterIndex X.
Proof.
  intros contentId quizText i block X Hi Hlt Hlen Hline HX.
  exists (questionOfLines contentId i (blockLines block)).
  pose proof (questionsOfBlock_enough contentId i block Hlen) as Hq.
  assert (Hc : correctAnswerOf (blockLines block) = 2%Z).
  { unfold correctAnswerOf.
    apply firstSuch_iff with (Q := fun y => hasCorrectMarker y = true) in Hline;
      [| intro; symmetry; apply hasCorrectMarker_spec].
    apply find_firstSuch in Hline. rewrite Hline, matchAD_Correct. reflexivity. }
  split; [|split; [exact Hq|]].
  - apply (parseQuiz_block contentId quizText i block _ Hi Hlt). rewrite Hq. now left.
  - cbn [correctAnswer questionOfLines]. rewrite Hc. split; [reflexivity|].
    destruct HX as [-> | [-> | ->]]; vm_compute; discriminate.
Qed.

Lemma demoBlock_correct_line :
  firstSuch hasCorrect (blockLines Examples.demoBlock) (lit "Correct: " ++ ["B"%char]).
Proof.
  apply firstSuch_iff with (P := fun y => hasCorrectMarker y = true);
    [intro; apply hasCorrectMarker_spec|].
  apply find_firstSuch. reflexivity.
Qed.

Lemma C4_correct_line_always_two_witness :
  nth_error (questionBlocksOf Generation.demoQuiz) 0 = Some Examples.demoBlock
  /\ 0 < 5
  /\ 6 <= List.length (blockLines Examples.demoBlock)
  /\ firstSuch hasCorrect (blockLines Examples.demoBlock)
       (lit "Correct: " ++ ["B"%char])
  /\ ("B"%char = "A"%char \/ "B"%char = "B"%char \/ "B"%char = "D"%char)
  /\ exists q,
       In q (parseQuiz (lit "17") Generation.demoQuiz) /\
       questionsOfBlock (lit "17") 0 Examples.demoBlock = [q] /\
       correctAnswer q = 2%Z /\
       correctAnswer q <> letterIndex "B"%char.
Proof.
  assert (H1 : nth_error (questionBlocksOf Generation.demoQuiz) 0
               = Some Examples.demoBlock) by reflexivity.
  assert (H2 : 0 < 5) by lia.
  assert (H3 : 6 <= List.length (blockLines Examples.demoBlock))
    by (vm_compute; lia).
  assert (H5 : "B"%char = "A"%char \/ "B"%char = "B"%char \/ "B"%char = "D"%char)
    by (right; left; reflexivity).
  split; [exact H1|]. split; [exact H2|]. split; [exact H3|].
  split; [exact demoBlock_correct_line|]. split; [exact H5|].
  exact (C4_correct_line_always_two (lit "17") Generation.demoQuiz 0
           Examples.demoBlock "B"%char H1 H2 H3 demoBlock_correct_line H5).
Defined.

(** C6.  Whatever the response, the parse returns at most five questions.
    The result is the concatenation of what each of the first five blocks
    contributes, one block having no effect on another: a block with fewer
    than six non-empty lines contributes nothing, a block with six or more
    contributes exactly one question, with its four options, and that
    question is in the result whatever the other blocks are. *)
Theorem C6_quiz_blocks :
  forall (contentId quizText : str),
    List.length (parseQuiz contentId quizText) <= 5
    /\
    parseQuiz contentId quizText
    = List.concat (mapi (contribution contentId)
                     (firstn 5 (questionBlocksOf quizText)))
    /\
    (forall i block,
        List.length (blockLines block) < 6 ->
        contribution contentId block i = [])
    /\
    (forall i block,
        nth_error (questionBlocksOf quizText) i = Some block -> i < 5 ->
        6 <= List.length (blockLines block) ->
        contribution contentId block i
        = [questionOfLines contentId i (blockLines block)]
        /\ In (questionOfLines contentId i (blockLines block))
             (parseQuiz contentId quizText))
    /\
    (forall q,
        In q (parseQuiz contentId quizText) ->
        exists i block,
          nth_error (questionBlocksOf quizText) i = Some block /\ i < 5 /\
          6 <= List.length (blockLines block) /\
          q = questionOfLines contentId i (blockLines block) /\
          List.length (options q) = 4).
Proof.
  intros contentId quizText.
  split; [apply parseQuiz_length|].
  split; [apply parseQuiz_spec|].
  split; [intros i block; apply questionsOfBlock_short|].
  split.
  - intros i block Hi Hlt Hlen. unfold contribution.
    pose proof (questionsOfBlock_enough contentId i block Hlen) as Hq.
    split; [exact Hq|].
    apply (parseQuiz_block contentId quizText i block _ Hi Hlt). rewrite Hq. now left.
  - intros q Hq. apply parseQuiz_In in Hq.
    destruct Hq as (i & block & Hi & Hlt & Hq).
    exists i, block.
    destruct (Nat.lt_ge_cases (List.length (blockLines block)) 6) as [Hs|Hl].
    + rewrite questionsOfBlock_short in Hq by assumption. destruct Hq.
    + rewrite questionsOfBlock_enough in Hq by assumption.
      destruct Hq as [<-|[]]. repeat split; auto.
      now apply options_length.
Qed.

Lemma C6_quiz_blocks_witness :
  List.length (blockLines (nth 0 (questionBlocksOf Examples.mixedQuiz) [])) < 6
  /\ contribution (lit "17") (nth 0 (questionBlocksOf Examples.mixedQuiz) []) 0 = []
  /\ nth_error (questionBlocksOf Examples.mixedQuiz) 1 = Some Examples.mixedBlock
  /\ 1 < 5
  /\ 6 <= List.length (blockLines Examples.mixedBlock)
  /\ In (questionOfLines (lit "17") 1 (blockLines Examples.mixedBlock))
        (parseQuiz (lit "17") Examples.mixedQuiz).
Proof.
  assert (H0 : List.length
                 (blockLines (nth 0 (questionBlocksOf Examples.mixedQuiz) [])) < 6)
    by (vm_compute; lia).
  assert (H1 : nth_error (questionBlocksOf Examples.mixedQuiz) 1
               = Some Examples.mixedBlock) by reflexivity.
  assert (H2 : 1 < 5) by lia.
  assert (H3 : 6 <= List.length (blockLines Examples.mixedBlock))
    by (vm_compute; lia).
  pose proof (C6_quiz_blocks (lit "17") Examples.mixedQuiz) as (_ & _ & Hshort & Hfull & _).
  split; [exact H0|]. split; [exact (Hshort 0 _ H0)|].
  split; [exact H1|]. split; [exact H2|]. split; [exact H3|].
  exact (proj2 (Hfull 1 _ H1 H2 H3)).
Defined.

End ParserClaims.

(** ** The content store *)

Module StoreFacts.
Import Js Content Store Generation StoreSpec.

Lemma str_eqb_eq (a b : str) : str_eqb a b = true <-> a = b.
Proof.
  unfold str_eqb. destruct (list_eq_dec ascii_dec a b); split; congruence.
Qed.

Lemma str_eqb_neq (a b : str) : str_eqb a b = false <-> a <> b.
Proof.
  unfold str_eqb. destruct (list_eq_dec ascii_dec a b); split; congruence.
Qed.

Lemma str_eqb_refl (a : str) : str_eqb a a = true.
Proof. now apply str_eqb_eq. Qed.



Lemma spread_id (c : StudyContent) (u : Updates) :
  upd_id u = None -> id (spread c u) = id c.
Proof. intros H. simpl. now rewrite H. Qed.





End StoreFacts.

Module StoreClaims.
Import Js Content Store Generation StoreSpec StoreFacts.



(** *** The generation operations *)

Lemma updateContent_nth (render : option StudyContent) (id0 : str)
  (u : Updates) (st : State) (i : nat) :
  nth_error (contents (updateContent render id0 u st)) i
  = option_map (fun c => if str_eqb (id c) id0 then spread c u else c)
               (nth_error (contents st) i).
Proof. unfold updateContent. simpl. apply nth_error_map. Qed.

Lemma updateContent_length (render : option StudyContent) (id0 : str)
  (u : Updates) (st : State) :
  List.length (contents (updateContent render id0 u st))
  = List.length (contents st).
Proof. unfold updateContent. simpl. apply length_map. Qed.

(** An update on the id of the selection of the render it is called
    from reaches the committed selection, whatever that is. *)
Lemma updateContent_selection (u : Updates) (st : State)
  (cur : StudyContent) :
  currentContent (updateContent (Some cur) (id cur) u st)
  = option_map (fun prev => spread prev u) (currentContent st).
Proof.
  unfold updateContent, selectionHasId. simpl. rewrite str_eqb_refl.
  now destruct (currentContent st).
Qed.

Lemma updateContent_current (u : Updates) (st : State) (cur : StudyContent) :
  currentContent st = Some cur ->
  currentContent (updateContent (currentContent st) (id cur) u st)
  = Some (spread cur u).
Proof.
  intros H. rewrite H, updateContent_selection, H. reflexivity.
Qed.

Lemma spread_replacedOnly (k : Kind) (u : Updates) (c : StudyContent) :
  updatesOf k u -> replacedOnly k c (spread c u).
Proof.
  destruct k; intros [v ->]; unfold replacedOnly, sameIdentity; simpl;
    repeat split; eauto.
Qed.

(** A success is an [updateContent] on the id of the item that was
    current in the render of the click, made by the closure of that
    render. *)
Lemma perform_success (k : Kind) (env : Env) (render st st' : State)
  (t : Toast) :
  perform k env render st = (st', t) -> succeeded t ->
  exists cur u,
    currentContent render = Some cur /\ updatesOf k u /\
    st' = updateContent (Some cur) (id cur) u st.
Proof.
  destruct k; simpl;
    [unfold generateSummary | unfold generateFlashcards | unfold generateQuiz];
    (destruct (currentContent render) as [cur|] eqn:Hcur;
     [| now intros [= <- <-] []]);
    (destruct (negb (isConnected env) && negb (isDeployed env));
     [now intros [= <- <-] []|]);
    (match goal with |- context [respond ?e ?d ?p] =>
       destruct (respond e d p) as [resp|err] end;
     [| now intros [= <- <-] []]);
    intros [= <- <-] _; exists cur; eexists; (split; [reflexivity|]);
    (split; [|reflexivity]); simpl; eauto.
Qed.

(** A failure leaves the store as it was. *)
Lemma perform_failure (k : Kind) (env : Env) (render st st' : State)
  (t : Toast) :
  perform k env render st = (st', t) -> ~ succeeded t -> st' = st.
Proof.
  destruct k; simpl;
    [unfold generateSummary | unfold generateFlashcards | unfold generateQuiz];
    (destruct (currentContent render) as [cur|];
     [| now intros [= <- <-]]);
    (destruct (negb (isConnected env) && negb (isDeployed env));
     [now intros [= <- <-]|]);
    (match goal with |- context [respond ?e ?d ?p] =>
       destruct (respond e d p) as [resp|err] end;
     [| now intros [= <- <-]]);
    intros [= <- <-] H; exfalso; apply H; exact I.
Qed.

(** C8, as the code has it.  A generation operation that succeeds works
    on the item that was current in the render of the click, and
    addresses it by its id.  In the store as it is when the operation
    writes, the collection keeps its length and its order; every stored
    item with that id has exactly the field of the operation replaced
    ([summary], [flashcards] or [quiz]) and keeps its id, title, kind,
    body, date and its two other generated fields; every stored item
    with another id is left as it was.  A selection with that id has the
    same one field replaced, and no selection appears where there was
    none. *)
Theorem C8_generation_frame :
  forall (k : Kind) (env : Env) (render st st' : State) (t : Toast),
    perform k env render st = (st', t) ->
    succeeded t ->
    exists cur,
      isCurrent render cur /\
      List.length (contents st') = List.length (contents st) /\
      (forall i item,
          nth_error (contents st) i = Some item ->
          exists item',
            nth_error (contents st') i = Some item' /\
            (id item = id cur -> replacedOnly k item item') /\
            (id item <> id cur -> item' = item)) /\
      (forall selection,
          isCurrent st selection -> id selection = id cur ->
          exists selection',
            isCurrent st' selection' /\ replacedOnly k selection selection') /\
      (currentContent st = None -> currentContent st' = None).
Proof.
  intros k env render st st' t Hrun Hok.
  destruct (perform_success k env render st st' t Hrun Hok)
    as (cur & u & Hcur & Hu & ->).
  exists cur. split; [exact Hcur|].
  split; [apply updateContent_length|]. split; [|split].
  - intros i item Hi. rewrite updateContent_nth, Hi. simpl.
    eexists; split; [reflexivity|].
    destruct (str_eqb (id item) (id cur)) eqn:E.
    + split; [intros _; now apply spread_replacedOnly|].
      apply str_eqb_eq in E. intros Hne. now destruct Hne.
    + apply str_eqb_neq in E. split; [intros He; now destruct E | reflexivity].
  - unfold isCurrent. intros selection Hsel _.
    exists (spread selection u). split.
    + now rewrite updateContent_selection, Hsel.
    + now apply spread_replacedOnly.
  - intros Hnone. now rewrite updateContent_selection, Hnone.
Qed.

Lemma C8_generation_frame_witness :
  perform kFlashcards Examples.deployedEnv Examples.twoItems Examples.twoItems
  = (fst (perform kFlashcards Examples.deployedEnv Examples.twoItems
            Examples.twoItems),
     toastSuccess (lit "Generated 4 flashcards!"))
  /\ succeeded (toastSuccess (lit "Generated 4 flashcards!"))
  /\ exists cur,
      isCurrent Examples.twoItems cur /\
      List.length
        (contents (fst (perform kFlashcards Examples.deployedEnv
                          Examples.twoItems Examples.twoItems)))
      = List.length (contents Examples.twoItems) /\
      (forall i item,
          nth_error (contents Examples.twoItems) i = Some item ->
          exists item',
            nth_error
              (contents (fst (perform kFlashcards Examples.deployedEnv
                                Examples.twoItems Examples.twoItems))) i
            = Some item' /\
            (id item = id cur -> replacedOnly kFlashcards item item') /\
            (id item <> id cur -> item' = item)) /\
      (forall selection,
          isCurrent Examples.twoItems selection -> id selection = id cur ->
          exists selection',
            isCurrent (fst (perform kFlashcards Examples.deployedEnv
                              Examples.twoItems Examples.twoItems)) selection'
            /\ replacedOnly kFlashcards selection selection') /\
      (currentContent Examples.twoItems = None ->
       currentContent (fst (perform kFlashcards Examples.deployedEnv
                              Examples.twoItems Examples.twoItems)) = None).
Proof.
  assert (Hrun : perform kFlashcards Examples.deployedEnv Examples.twoItems
                   Examples.twoItems
                 = (fst (perform kFlashcards Examples.deployedEnv
                           Examples.twoItems Examples.twoItems),
                    toastSuccess (lit "Generated 4 flashcards!")))
    by reflexivity.
  assert (Hok : succeeded (toastSuccess (lit "Generated 4 flashcards!")))
    by exact I.
  split; [exact Hrun|]. split; [exact Hok|].
  exact (C8_generation_frame kFlashcards Examples.deployedEnv Examples.twoItems
           Examples.twoItems _ _ Hrun Hok).
Defined.

(** C8, as the specification has it, fails.  Of two items that were added
    in the same millisecond, and so have one id, the second is current;
    a summary is generated for it, with success; the first item, which is
    another stored item, has its summary replaced as well. *)
Lemma C8_shared_id_counterexample :
  succeeded (snd (perform kSummary Examples.deployedEnv
                    Examples.sameMillisecond Examples.sameMillisecond))
  /\ isCurrent Examples.sameMillisecond (Examples.item7 Examples.newText)
  /\ nth_error (contents Examples.sameMillisecond) 0
     = Some (Examples.item7 Examples.otherText)
  /\ Examples.item7 Examples.otherText <> Examples.item7 Examples.newText
  /\ ~ frameAsStated kSummary (Examples.item7 Examples.newText)
         (contents Examples.sameMillisecond)
         (contents (fst (perform kSummary Examples.deployedEnv
                           Examples.sameMillisecond Examples.sameMillisecond))).
Proof.
  assert (Hne : Examples.item7 Examples.otherText
                <> Examples.item7 Examples.newText) by discriminate.
  split; [exact I|]. split; [reflexivity|]. split; [reflexivity|].
  split; [exact Hne|].
  intros Hframe.
  destruct (Hframe 0 (Examples.item7 Examples.otherText) eq_refl)
    as (item' & Hnth & _ & Hsame).
  specialize (Hsame Hne). subst item'.
  vm_compute in Hnth. discriminate Hnth.
Qed.

End StoreClaims.

(** ** The language-model client *)

Module OllamaClaims.
Import Js Ollama.

(** A rejected request (network failure, abort) ends in [catch]: the client
    is disconnected and the list is emptied. *)
Lemma loadModels_rejected (net : Net) (c : Client) (e : Thrown) :
  fetchWithin 5000%N (getTags net (tagsUrl c)) = inl e ->
  isConnected (loadModels false net c) = false /\
  models (loadModels false net c) = [].
Proof. intros H. unfold loadModels. rewrite H. split; reflexivity. Qed.

(** So does a body that cannot be read. *)
Lemma loadModels_bad_body (net : Net) (c : Client) (resp : Response TagsData)
  (e : Thrown) :
  fetchWithin 5000%N (getTags net (tagsUrl c)) = inr resp ->
  ok resp = true -> json resp = inl e ->
  isConnected (loadModels false net c) = false /\
  models (loadModels false net c) = [].
Proof.
  intros H Hok Hjson. unfold loadModels, loadModelsTry.
  rewrite H, Hok, Hjson. split; reflexivity.
Qed.

(** The deployed application does not even try. *)
Lemma loadModels_deployed (net : Net) (c : Client) :
  isConnected (loadModels true net c) = false /\
  models (loadModels true net c) = [].
Proof. split; reflexivity. Qed.

(** A non-success status disconnects the client and keeps the list it
    had: the [else] branch calls [setIsConnected(false)] only. *)
Lemma loadModels_error_status (net : Net) (c : Client) (resp : Response TagsData) :
  fetchWithin 5000%N (getTags net (tagsUrl c)) = inr resp ->
  ok resp = false ->
  isConnected (loadModels false net c) = false /\
  models (loadModels false net c) = models c.
Proof.
  intros H Hok. unfold loadModels, loadModelsTry.
  rewrite H, Hok. split; reflexivity.
Qed.

(** C9, at the input where it fails.  A client that holds one model asks a
    server that answers with status 500: the load has failed, the client is
    disconnected, and the model list still holds that model. *)
Theorem C9_error_status_keeps_models :
  LoadFailure (getTags Examples.failingServer (tagsUrl Examples.loadedClient))
  /\ isConnected (loadModels false Examples.failingServer Examples.loadedClient)
     = false
  /\ models (loadModels false Examples.failingServer Examples.loadedClient)
     = [Examples.llama]
  /\ models (loadModels false Examples.failingServer Examples.loadedClient)
     <> [].
Proof.
  split.
  - apply failsStatus with (resp := Examples.errorResponse); reflexivity.
  - repeat split. discriminate.
Qed.

End OllamaClaims.

(** ** PDF text extraction *)

Module PdfFacts.
Import Js Pdf PdfSpec.
Local Open Scope pdf_scope.

Lemma requestedPages_app (a b : list Event) :
  requestedPages (a ++ b) = requestedPages a ++ requestedPages b.
Proof. apply flat_map_app. Qed.

(** The cases of a call of the callback: there is none, it returns, or
    it throws. *)
Ltac callback_cases opts :=
  let callback := fresh "callback" in
  destruct (onProgress opts) as [callback|];
  [ match goal with
    | |- context [callback ?p] => destruct (callback p)
    | H : context [callback ?p] |- _ => destruct (callback p)
    end
  | ].

Lemma report_clock opts p w : clock (snd (report opts p w)) = clock w.
Proof.
  unfold report, bind, emit, ret, raise. callback_cases opts; reflexivity.
Qed.

Lemma report_fullText opts p w : fullText (snd (report opts p w)) = fullText w.
Proof.
  unfold report, bind, emit, ret, raise. callback_cases opts; reflexivity.
Qed.

(** A report settles at once: it returns unless the callback throws. *)
Lemma report_outcome opts p w :
  fst (report opts p w)
  = match throwsAt opts p with
    | None => resolved tt
    | Some thrown => rejected (raisedOther thrown)
    end.
Proof.
  unfold report, throwsAt, bind, emit, ret, raise.
  destruct (onProgress opts) as [callback|]; [|reflexivity].
  now destruct (callback p).
Qed.

Lemma report_resolved opts p w :
  throwsAt opts p = None -> fst (report opts p w) = resolved tt.
Proof. intros H. now rewrite report_outcome, H. Qed.

Lemma report_requests opts p w :
  requestedPages (trace (snd (report opts p w))) = requestedPages (trace w).
Proof.
  unfold report, bind, emit, ret, raise.
  callback_cases opts; simpl; try reflexivity;
    rewrite requestedPages_app; simpl; now rewrite app_nil_r.
Qed.

Ltac crush_trace :=
  simpl; rewrite ?requestedPages_app; simpl;
  rewrite ?app_nil_r, <- ?app_assoc; simpl.

(** One iteration of the loop asks for its page, once, whatever happens
    to the page; it never rejects. *)
Lemma iteration_requests opts pdf n p w :
  let r := tryCatch (processPage opts pdf n p) (fun _ => emit (warn p)) w in
  (fst r = resolved tt \/ fst r = pending) /\
  requestedPages (trace (snd r)) = requestedPages (trace w) ++ [p].
Proof.
  unfold tryCatch, processPage, bind, emit, await, report, getFullText,
    setFullText, ret.
  simpl.
  destruct (takes (getPage pdf p)) as [d1|]; [|split; [now right | now crush_trace]].
  destruct (gives (getPage pdf p)) as [e|page]; [split; [now left | now crush_trace]|].
  simpl.
  destruct (takes (getTextContent page)) as [d2|];
    [|split; [now right | now crush_trace]].
  destruct (gives (getTextContent page)) as [e|items];
    [split; [now left | now crush_trace]|].
  simpl.
  destruct (truthy (pageTextOf items)); simpl;
    callback_cases opts; simpl; split; try (now left); now crush_trace.
Qed.

(** The loop asks for the pages [pageNum], [pageNum + 1], ... in turn. *)
Lemma pageLoop_requests opts pdf n remaining :
  forall pageNum w w',
    pageLoop opts pdf n remaining pageNum w = (resolved tt, w') ->
    requestedPages (trace w')
    = requestedPages (trace w) ++ seq pageNum remaining.
Proof.
  induction remaining as [|r IH]; intros pageNum w w' H.
  - injection H as <-. simpl. now rewrite app_nil_r.
  - cbn [pageLoop] in H. unfold bind at 1 in H.
    pose proof (iteration_requests opts pdf n pageNum w) as [Hfst Htr].
    cbv zeta in Hfst, Htr.
    destruct (tryCatch (processPage opts pdf n pageNum)
                (fun _ => emit (warn pageNum)) w) as [o w1].
    simpl in Hfst, Htr.
    destruct Hfst as [-> | ->]; [|discriminate].
    rewrite (IH _ _ _ H), Htr. simpl. now rewrite <- app_assoc.
Qed.

Lemma pageLoop_never_rejects opts pdf n remaining :
  forall pageNum w e w',
    pageLoop opts pdf n remaining pageNum w <> (rejected e, w').
Proof.
  induction remaining as [|r IH]; intros pageNum w e w' H.
  - discriminate.
  - cbn [pageLoop] in H. unfold bind at 1 in H.
    pose proof (iteration_requests opts pdf n pageNum w) as [Hfst _].
    cbv zeta in Hfst.
    destruct (tryCatch (processPage opts pdf n pageNum)
                (fun _ => emit (warn pageNum)) w) as [o w1].
    simpl in Hfst.
    destruct Hfst as [-> | ->]; [|discriminate].
    exact (IH _ _ _ _ H).
Qed.

(** *** What is in the trace *)

Lemma await_trace {A} (t : Timed A) w o w1 :
  await t w = (o, w1) -> trace w1 = trace w.
Proof.
  unfold await. destruct (takes t); [|now intros [= <- <-]].
  destruct (gives t); now intros [= <- <-].
Qed.

Lemma report_In opts p w ev :
  (forall q, ev <> progress q) ->
  In ev (trace (snd (report opts p w))) <-> In ev (trace w).
Proof.
  intros Hev. unfold report, bind, emit, ret, raise.
  callback_cases opts; simpl; try tauto;
    rewrite in_app_iff; simpl; (split; [|tauto]);
    (intros [H | [H | []]]; [assumption|]); now destruct (Hev p).
Qed.

Lemma iteration_keeps opts pdf n p w ev :
  In ev (trace w) ->
  In ev (trace (snd (tryCatch (processPage opts pdf n p)
                       (fun _ => emit (warn p)) w))).
Proof.
  intros H.
  unfold tryCatch, processPage, bind, emit, await, report, getFullText,
    setFullText, ret.
  simpl.
  destruct (takes (getPage pdf p)); [|simpl; rewrite in_app_iff; tauto].
  destruct (gives (getPage pdf p)) as [e|page];
    [simpl; rewrite !in_app_iff; tauto|].
  simpl.
  destruct (takes (getTextContent page)); [|simpl; rewrite !in_app_iff; tauto].
  destruct (gives (getTextContent page));
    [simpl; rewrite !in_app_iff; tauto|].
  simpl.
  destruct (truthy (pageTextOf l)); simpl; callback_cases opts; simpl;
    rewrite !in_app_iff; tauto.
Qed.

Lemma pageLoop_keeps opts pdf n remaining ev :
  forall pageNum w,
    In ev (trace w) ->
    In ev (trace (snd (pageLoop opts pdf n remaining pageNum w))).
Proof.
  induction remaining as [|r IH]; intros pageNum w H; [exact H|].
  cbn [pageLoop]. unfold bind at 1.
  pose proof (iteration_keeps opts pdf n pageNum w ev H) as Hk.
  pose proof (iteration_requests opts pdf n pageNum w) as [Hfst _].
  cbv zeta in Hfst.
  destruct (tryCatch (processPage opts pdf n pageNum)
              (fun _ => emit (warn pageNum)) w) as [o w1].
  simpl in Hfst, Hk. destruct Hfst as [-> | ->]; [|exact Hk].
  now apply IH.
Qed.

(** A page is extractable when it loads and its text content comes; it
    is cleaned up when the callback returns as well. *)
Lemma iteration_cleans opts pdf n p w page items d1 d2 :
  throwsAt opts (pageFraction p n) = None ->
  takes (getPage pdf p) = Some d1 -> gives (getPage pdf p) = inr page ->
  takes (getTextContent page) = Some d2 ->
  gives (getTextContent page) = inr items ->
  In (pageCleanup p)
     (trace (snd (tryCatch (processPage opts pdf n p)
                    (fun _ => emit (warn p)) w))).
Proof.
  intros Hquiet T1 G1 T2 G2.
  unfold tryCatch, processPage, bind, emit, await, report, getFullText,
    setFullText, ret, raise. unfold throwsAt in Hquiet.
  simpl. rewrite T1, G1. simpl. rewrite T2, G2. simpl.
  destruct (truthy (pageTextOf items)); simpl;
    (destruct (onProgress opts) as [callback|]; [rewrite Hquiet|]); simpl;
    rewrite !in_app_iff; simpl; tauto.
Qed.

(** The loop cleans up every page of its range that is extractable. *)
Lemma pageLoop_cleans opts pdf n remaining k page items d1 d2 :
  callbackReturns opts ->
  takes (getPage pdf k) = Some d1 -> gives (getPage pdf k) = inr page ->
  takes (getTextContent page) = Some d2 ->
  gives (getTextContent page) = inr items ->
  forall pageNum w w',
    pageLoop opts pdf n remaining pageNum w = (resolved tt, w') ->
    pageNum <= k < pageNum + remaining ->
    In (pageCleanup k) (trace w').
Proof.
  intros Hquiet T1 G1 T2 G2.
  induction remaining as [|r IH]; intros pageNum w w' H Hk; [lia|].
  cbn [pageLoop] in H. unfold bind at 1 in H.
  pose proof (iteration_requests opts pdf n pageNum w) as [Hfst _].
  cbv zeta in Hfst.
  destruct (Nat.eq_dec k pageNum) as [->|Hne].
  - pose proof (iteration_cleans opts pdf n pageNum w page items d1 d2
                  (Hquiet _) T1 G1 T2 G2) as Hc.
    destruct (tryCatch (processPage opts pdf n pageNum)
                (fun _ => emit (warn pageNum)) w) as [o w1].
    simpl in Hfst, Hc. destruct Hfst as [-> | ->]; [|discriminate].
    pose proof (pageLoop_keeps opts pdf n r (pageCleanup pageNum)
                  (S pageNum) w1 Hc) as Hkeep.
    now rewrite H in Hkeep.
  - destruct (tryCatch (processPage opts pdf n pageNum)
                (fun _ => emit (warn pageNum)) w) as [o w1].
    simpl in Hfst. destruct Hfst as [-> | ->]; [|discriminate].
    apply (IH (S pageNum) w1 w' H). lia.
Qed.

(** Whenever the processing settles, having loaded the document, it has
    destroyed it, as long as the callback returns.  The loop cannot
    reject, so that [pdf.destroy()] is reached; what comes after it does
    not undo it. *)
Lemma processing_destroys_document env file opts w o w' :
  callbackReturns opts ->
  processing env file opts w = (o, w') ->
  o <> pending ->
  In documentAcquired (trace w') ->
  In documentAcquired (trace w) \/ In documentDestroy (trace w').
Proof.
  intros Hquiet H Hsettled Hacq. unfold processing in H.
  (* arrayBuffer *)
  unfold bind at 1 in H.
  destruct (await (arrayBuffer file) w) as [[buffer|e|] w1] eqn:E1;
    apply await_trace in E1;
    [| injection H as _ <-; left; congruence
     | injection H as <- _; congruence].
  (* onProgress(15) *)
  unfold bind at 1 in H.
  pose proof (report_resolved opts (percent 15) w1 (Hquiet _)) as R2.
  pose proof (report_In opts (percent 15) w1 documentAcquired
                ltac:(discriminate)) as I2.
  destruct (report opts (percent 15) w1) as [o2 w2].
  cbn [fst snd] in R2, I2. subst o2.
  (* getDocument *)
  unfold bind at 1 in H.
  destruct (tryCatch (await (getDocument env buffer))
              (fun error => raise (classifyLoadError error)) w2)
    as [[pdf|e|] w3] eqn:E3.
  2: { injection H as _ <-. left. rewrite <- E1. apply I2.
       unfold tryCatch, raise in E3.
       destruct (await (getDocument env buffer) w2) as [[?|?|] w2'] eqn:E3';
         apply await_trace in E3'; injection E3 as _ <-; congruence. }
  2: { injection H as <- _. congruence. }
  clear Hacq.
  (* from here on the document is held *)
  right.
  unfold bind at 1 in H. cbn [emit] in H.
  unfold bind at 1 in H.
  match type of H with context [report opts (percent 25) ?w0] =>
    pose proof (report_resolved opts (percent 25) w0 (Hquiet _)) as R5;
    destruct (report opts (percent 25) w0) as [o5 w5] end.
  cbn [fst] in R5. subst o5.
  unfold bind at 1 in H. cbn [setFullText] in H.
  unfold bind at 1 in H.
  match type of H with context [tryCatch ?m ?h ?w0] =>
    destruct (tryCatch m h w0) as [[meta|e|] w7] eqn:E7 end.
  2: { exfalso. unfold tryCatch, bind, await, ret in E7.
       destruct (takes (getMetadata pdf)); [|discriminate].
       destruct (gives (getMetadata pdf)); discriminate. }
  2: { injection H as <- _. congruence. }
  unfold bind at 1 in H.
  pose proof (report_resolved opts (percent 30) w7 (Hquiet _)) as R8.
  destruct (report opts (percent 30) w7) as [o8 w8].
  cbn [fst] in R8. subst o8.
  unfold bind at 1 in H.
  destruct (pageLoop opts pdf (Nat.min (numPages pdf) (maxPagesOf opts))
              (Nat.min (numPages pdf) (maxPagesOf opts)) 1 w8)
    as [[u9|e|] w9] eqn:E9.
  2: { exfalso. exact (pageLoop_never_rejects _ _ _ _ _ _ _ _ E9). }
  2: { injection H as <- _. congruence. }
  unfold bind at 1 in H.
  pose proof (report_resolved opts (percent 95) w9 (Hquiet _)) as R10.
  destruct (report opts (percent 95) w9) as [o10 w10].
  cbn [fst] in R10. subst o10.
  unfold bind at 1 in H. cbn [emit] in H.
  unfold bind at 1 in H. cbn [getFullText] in H.
  set (w11 := {| clock := clock w10; trace := trace w10 ++ [documentDestroy];
                 fullText := fullText w10 |}) in H.
  assert (Hd : In documentDestroy (trace w11))
    by (subst w11; cbn [trace]; rewrite in_app_iff; simpl; tauto).
  cbn [fullText] in H.
  destruct (negb (truthy (trim (fullText w11)))).
  - injection H as _ <-. exact Hd.
  - unfold bind at 1 in H.
    pose proof (report_In opts (percent 100) w11 documentDestroy
                  ltac:(discriminate)) as I13.
    destruct (report opts (percent 100) w11) as [[u13|e|] w13];
      injection H as _ <-; cbn [snd] in I13; now apply I13.
Qed.

End PdfFacts.

Module PdfClaims.
Import Js Pdf PdfSpec PdfFacts.
Local Open Scope pdf_scope.

Lemma await_resolved {A} (t : Timed A) (w w' : World) (a : A) :
  await t w = (resolved a, w') ->
  gives t = inr a /\ trace w' = trace w.
Proof.
  unfold await. destruct (takes t); [|discriminate].
  destruct (gives t); [discriminate|]. now intros [= <- <-].
Qed.

Ltac mstep H a w E :=
  unfold bind at 1 in H;
  match type of H with
  | context [match ?m ?w0 with _ => _ end] =>
      destruct (m w0) as [[a| |] w] eqn:E;
      [ | discriminate H | discriminate H]
  end.

Lemma report_step opts p w o w1 :
  report opts p w = (o, w1) ->
  o <> pending /\ requestedPages (trace w1) = requestedPages (trace w)
  /\ clock w1 = clock w.
Proof.
  intros H.
  pose proof (report_outcome opts p w) as H1.
  pose proof (report_requests opts p w) as H2.
  pose proof (report_clock opts p w) as H3.
  rewrite H in H1, H2, H3. simpl in *. repeat split; auto.
  rewrite H1. destruct (throwsAt opts p); discriminate.
Qed.

Lemma load_resolved env buffer w pdf w1 :
  tryCatch (await (getDocument env buffer))
           (fun error => raise (classifyLoadError error)) w = (resolved pdf, w1) ->
  gives (getDocument env buffer) = inr pdf /\ trace w1 = trace w.
Proof.
  unfold tryCatch, await, raise.
  destruct (takes (getDocument env buffer)); [|discriminate].
  destruct (gives (getDocument env buffer)); [discriminate|].
  now intros [= <- <-].
Qed.

Lemma metadata_trace (pdf : PDFDocumentProxy) w o w1 :
  tryCatch (m <- await (getMetadata pdf) ;; ret (Some m))
           (fun _ => ret None) w = (o, w1) ->
  trace w1 = trace w.
Proof.
  unfold tryCatch, bind, await, ret.
  destruct (takes (getMetadata pdf)); [|now intros [= <- <-]].
  destruct (gives (getMetadata pdf)); now intros [= <- <-].
Qed.

(** What a resolved [processingPromise] tells: the document was loaded,
    [pageCount] is its number of pages, and the pages asked for are
    the first [min(numPages, maxPages)] ones. *)
Lemma processing_resolved env file opts w r w' :
  processing env file opts w = (resolved r, w') ->
  exists buffer pdf,
    gives (arrayBuffer file) = inr buffer /\
    gives (getDocument env buffer) = inr pdf /\
    pageCount r = numPages pdf /\
    text r <> [] /\
    requestedPages (trace w')
    = requestedPages (trace w)
        ++ seq 1 (Nat.min (numPages pdf) (maxPagesOf opts)).
Proof.
  intros H. unfold processing in H.
  mstep H buffer w1 E1. apply await_resolved in E1. destruct E1 as [Hbuf T1].
  mstep H u2 w2 E2. apply report_step in E2. destruct E2 as (_ & T2 & _).
  mstep H pdf w3 E3. apply load_resolved in E3. destruct E3 as [Hpdf T3].
  mstep H u4 w4 E4. injection E4 as _ <-.
  mstep H u5 w5 E5. apply report_step in E5. destruct E5 as (_ & T5 & _).
  mstep H u6 w6 E6. injection E6 as _ <-.
  mstep H meta w7 E7. apply metadata_trace in E7.
  mstep H u8 w8 E8. apply report_step in E8. destruct E8 as (_ & T8 & _).
  mstep H u9 w9 E9. destruct u9. apply pageLoop_requests in E9.
  mstep H u10 w10 E10. apply report_step in E10. destruct E10 as (_ & T10 & _).
  mstep H u11 w11 E11. injection E11 as _ <-.
  mstep H acc w12 E12. injection E12 as <- <-.
  destruct (truthy (trim (fullText _))) eqn:Htext; [|discriminate H].
  cbn [negb] in H.
  mstep H u13 w13 E13. apply report_step in E13. destruct E13 as (_ & T13 & _).
  injection H as <- <-.
  exists buffer, pdf. repeat split; auto.
  - cbn [text]. intros Hnil. rewrite Hnil in Htext. discriminate.
  - rewrite T13. cbn [trace]. rewrite requestedPages_app. cbn [requestedPages flat_map app].
    rewrite app_nil_r, T10, E9, T8, E7. cbn [trace]. rewrite T5.
    cbn [trace]. rewrite requestedPages_app. cbn [requestedPages flat_map app].
    rewrite app_nil_r, T3, T2, T1. reflexivity.
Qed.

Lemma str_eqb_pdf :
  negb (str_eqb (lit "application/pdf") (lit "application/pdf")) = false.
Proof. reflexivity. Qed.

Lemma raceTimeout_resolved {A} env ms (p : M A) w a w' :
  raceTimeout env ms p w = (resolved a, w') -> p w = (resolved a, w').
Proof.
  unfold raceTimeout. destruct (p w) as [[a0|e|] w1]; [| |discriminate].
  - destruct (clock w1 <? clock w + ms)%N; [now intros [= <- <-]|].
    destruct (clock w + ms <? clock w1)%N; [discriminate|].
    destruct (timerWinsTie env); [discriminate | now intros [= <- <-]].
  - destruct (clock w1 <? clock w + ms)%N; [discriminate|].
    destruct (clock w + ms <? clock w1)%N; [discriminate|].
    destruct (timerWinsTie env); discriminate.
Qed.

Lemma processPDFFile_resolved env file opts w r w' :
  processPDFFile env file opts w = (resolved r, w') ->
  accepted env file /\
  raceTimeout env (timeoutOf opts) (processing env file opts) (raceStart opts w)
  = (resolved r, w').
Proof.
  unfold processPDFFile, accepted, raceStart.
  destruct (workerConfigured env); [|discriminate]. cbn [negb].
  destruct (str_eqb (file_type file) (lit "application/pdf")) eqn:Htype;
    [|discriminate]. cbn [negb].
  destruct (N.ltb_spec maxFileSize (file_size file)) as [|Hsize]; [discriminate|].
  intros H. unfold bind at 1 in H.
  destruct (report opts (percent 5) w) as [[u0|e0|] w0] eqn:E0;
    try discriminate.
  unfold tryCatch in H. cbn [snd].
  destruct (raceTimeout env (timeoutOf opts) (processing env file opts) w0)
    as [[r0|e|] w1] eqn:E1; try discriminate.
  injection H as <- <-.
  repeat split; auto.
  unfold str_eqb in Htype. now destruct (list_eq_dec _ _ _).
Qed.

(** C1, as the code has it.  An ingestion that succeeds has loaded a
    document, and the [pageCount] it returns is the number of pages of
    that document, also when this is more than [maxPages]; the pages
    that were processed are the first [min(numPages, maxPages)] ones, in
    order, and the text returned is not empty. *)
Theorem C1_page_count_is_document_total :
  forall env file opts w r w',
    processPDFFile env file opts w = (resolved r, w') ->
    exists buffer pdf,
      gives (arrayBuffer file) = inr buffer /\
      gives (getDocument env buffer) = inr pdf /\
      pageCount r = numPages pdf /\
      text r <> [] /\
      requestedPages (trace w')
      = requestedPages (trace w)
          ++ seq 1 (Nat.min (numPages pdf) (maxPagesOf opts)).
Proof.
  intros env file opts w r w' H.
  apply processPDFFile_resolved in H. destruct H as [_ H].
  apply raceTimeout_resolved, processing_resolved in H.
  destruct H as (buffer & pdf & H1 & H2 & H3 & H4 & H5).
  exists buffer, pdf. repeat split; auto.
  rewrite H5. unfold raceStart. now rewrite report_requests.
Qed.

Lemma C1_page_count_is_document_total_witness :
  processPDFFile (Examples.envOf Examples.threePages) Examples.someFile
    Examples.twoPagesAtMost start
  = (resolved Examples.twoOfThree,
     snd (processPDFFile (Examples.envOf Examples.threePages) Examples.someFile
            Examples.twoPagesAtMost start))
  /\ exists buffer pdf,
      gives (arrayBuffer Examples.someFile) = inr buffer /\
      gives (getDocument (Examples.envOf Examples.threePages) buffer) = inr pdf /\
      pageCount Examples.twoOfThree = numPages pdf /\
      text Examples.twoOfThree <> [] /\
      requestedPages
        (trace (snd (processPDFFile (Examples.envOf Examples.threePages)
                       Examples.someFile Examples.twoPagesAtMost start)))
      = requestedPages (trace start)
          ++ seq 1 (Nat.min (numPages pdf) (maxPagesOf Examples.twoPagesAtMost)).
Proof.
  assert (Hrun : processPDFFile (Examples.envOf Examples.threePages)
                   Examples.someFile Examples.twoPagesAtMost start
                 = (resolved Examples.twoOfThree,
                    snd (processPDFFile (Examples.envOf Examples.threePages)
                           Examples.someFile Examples.twoPagesAtMost start)))
    by (vm_compute; reflexivity).
  split; [exact Hrun|].
  exact (C1_page_count_is_document_total _ _ _ _ _ _ Hrun).
Defined.

(** C1, as the specification has it, fails: of a document of three pages
    with [maxPages = 2] two pages are processed, the ingestion succeeds,
    and the [pageCount] returned is 3, not [min(3, 2)]. *)
Lemma C1_clamped_page_count_counterexample :
  match fst (processPDFFile (Examples.envOf Examples.threePages)
               Examples.someFile Examples.twoPagesAtMost start) with
  | resolved r =>
      maxPagesOf Examples.twoPagesAtMost < numPages Examples.threePages /\
      pageCount r = 3 /\
      pageCount r
      <> Nat.min (numPages Examples.threePages) (maxPagesOf Examples.twoPagesAtMost)
  | _ => False
  end.
Proof. vm_compute. repeat split; [lia | discriminate]. Qed.



(** C10, at the input where it fails.  In a document of two pages whose
    first page loads but whose text extraction rejects, the first page is
    acquired and never cleaned up, while the second page is, the document
    is destroyed and the call succeeds with the text of the second page. *)
Theorem C10_failed_page_is_not_cleaned_up :
  let run := processPDFFile (Examples.envOf Examples.brokenFirstPage)
               Examples.someFile Examples.defaults start in
  In (pageAcquired 1) (trace (snd run))
  /\ ~ In (pageCleanup 1) (trace (snd run))
  /\ In (pageCleanup 2) (trace (snd run))
  /\ In documentDestroy (trace (snd run))
  /\ ~ pagesReleased (trace (snd run))
  /\ exists r, fst run = resolved r /\ text r = lit "second page".
Proof.
  cbv zeta.
  assert (Hacq : In (pageAcquired 1)
                   (trace (snd (processPDFFile
                                  (Examples.envOf Examples.brokenFirstPage)
                                  Examples.someFile Examples.defaults start))))
    by (vm_compute; tauto).
  assert (Hnot : ~ In (pageCleanup 1)
                   (trace (snd (processPDFFile
                                  (Examples.envOf Examples.brokenFirstPage)
                                  Examples.someFile Examples.defaults start)))).
  { vm_compute. intuition discriminate. }
  split; [exact Hacq|]. split; [exact Hnot|].
  split; [vm_compute; tauto|]. split; [vm_compute; tauto|].
  split.
  - intros Hall. exact (Hnot (Hall 1 Hacq)).
  - eexists. split; vm_compute; reflexivity.
Qed.

End PdfClaims.

(** ** The errors of [processPDFFile] and what a success holds *)

Ltac not_in :=
  let H := fresh in
  intros H; cbn in H;
  repeat (destruct H as [H|H]; [discriminate H|]); exact H.

Module PdfMore.
Import Js Pdf PdfSpec PdfFacts PdfSpec2 PdfTools.
Local Open Scope pdf_scope.

(** One iteration adds the contribution of its page, if it completes;
    the text is added before the callback is called. *)
Lemma iteration_text opts pdf n p w w1 :
  tryCatch (processPage opts pdf n p) (fun _ => emit (warn p)) w
  = (resolved tt, w1) ->
  fullText w1 = fullText w ++ pageContribution pdf p.
Proof.
  unfold tryCatch, processPage, bind, emit, await, report, getFullText,
    setFullText, ret, raise, pageContribution.
  simpl.
  destruct (takes (getPage pdf p)); [|discriminate].
  destruct (gives (getPage pdf p)) as [e|page];
    [intros [= <-]; simpl; now rewrite app_nil_r|].
  simpl.
  destruct (takes (getTextContent page)); [|discriminate].
  destruct (gives (getTextContent page)) as [e|items];
    [intros [= <-]; simpl; now rewrite app_nil_r|].
  simpl.
  destruct (truthy (pageTextOf items)); simpl; callback_cases opts; simpl;
    intros [= <-]; simpl; now rewrite ?app_nil_r.
Qed.

Lemma pageLoop_text opts pdf n remaining :
  forall pageNum w w',
    pageLoop opts pdf n remaining pageNum w = (resolved tt, w') ->
    fullText w'
    = fullText w ++ List.concat (map (pageContribution pdf) (seq pageNum remaining)).
Proof.
  induction remaining as [|r IH]; intros pageNum w w' H.
  - injection H as <-. simpl. now rewrite app_nil_r.
  - cbn [pageLoop] in H. unfold bind at 1 in H.
    pose proof (iteration_requests opts pdf n pageNum w) as [Hfst _].
    cbv zeta in Hfst.
    destruct (tryCatch (processPage opts pdf n pageNum)
                (fun _ => emit (warn pageNum)) w) as [o w1] eqn:E.
    simpl in Hfst. destruct Hfst as [-> | ->]; [|discriminate].
    apply iteration_text in E. rewrite (IH _ _ _ H), E.
    cbn [seq map List.concat]. now rewrite app_assoc.
Qed.

(** A step through [report opts p] in [H]: when the callback throws,
    [H] tells the outcome and [thrown_case] closes the goal; when it
    returns, the run goes on in world [w], with [F] for its text. *)
Ltac through_report H p F w thrown_case :=
  unfold bind at 1 in H;
  match type of H with
  | context [report ?opts p ?w0] =>
      let R := fresh "R" in
      let o := fresh "o" in
      let thrown := fresh "thrown" in
      let T := fresh "T" in
      pose proof (report_outcome opts p w0) as R;
      pose proof (report_fullText opts p w0) as F;
      destruct (report opts p w0) as [o w];
      cbn [fst snd] in R, F;
      destruct (throwsAt opts p) as [thrown|] eqn:T; subst o;
      [ injection H as <- _; thrown_case | ]
  end.

(** Every way [processingPromise] can settle. *)
Lemma processing_cases env file opts w o w' :
  processing env file opts w = (o, w') ->
  match o with
  | pending => True
  | rejected e =>
      (exists t, gives (arrayBuffer file) = inl t /\ e = raisedOther t)
      \/ (exists p t, throwsAt opts p = Some t /\ e = raisedOther t)
      \/ (exists buffer t,
             gives (arrayBuffer file) = inr buffer /\
             gives (getDocument env buffer) = inl t /\
             e = classifyLoadError (raisedOther t))
      \/ (exists buffer pdf,
             gives (arrayBuffer file) = inr buffer /\
             gives (getDocument env buffer) = inr pdf /\
             e = noTextError /\ trim (extractedText pdf opts) = [])
  | resolved r =>
      exists buffer pdf,
        gives (arrayBuffer file) = inr buffer /\
        gives (getDocument env buffer) = inr pdf /\
        text r = trim (extractedText pdf opts) /\
        text r <> [] /\
        pageCount r = numPages pdf
  end.
Proof.
  intros H. unfold processing in H.
  (* arrayBuffer *)
  unfold bind at 1 in H. unfold await at 1 in H.
  destruct (takes (arrayBuffer file)) as [d1|]; [|now injection H as <- _].
  destruct (gives (arrayBuffer file)) as [t|buffer] eqn:G1.
  { injection H as <- _. left. now exists t. }
  (* onProgress(15) *)
  through_report H (percent 15) F2 w2 ltac:(right; left; eauto).
  (* getDocument *)
  unfold bind at 1 in H. unfold tryCatch at 1 in H. unfold await at 1 in H.
  destruct (takes (getDocument env buffer)) as [d3|]; [|now injection H as <- _].
  destruct (gives (getDocument env buffer)) as [t|pdf] eqn:G3.
  { unfold raise in H. injection H as <- _. right. right. left.
    now exists buffer, t. }
  unfold bind at 1 in H. cbn [emit] in H.
  through_report H (percent 25) F5 w5 ltac:(right; left; eauto).
  unfold bind at 1 in H. cbn [setFullText] in H.
  unfold bind at 1 in H.
  match type of H with context [tryCatch ?m ?h ?w0] =>
    assert (Hmeta : fst (tryCatch m h w0) = pending
                    \/ exists meta, fst (tryCatch m h w0) = resolved meta
                                    /\ fullText (snd (tryCatch m h w0)) = []);
    [ unfold tryCatch, bind, await, ret;
      destruct (takes (getMetadata pdf)); [|now left];
      destruct (gives (getMetadata pdf)); right; eexists; split; reflexivity
    | destruct (tryCatch m h w0) as [o7 w7] ]
  end.
  cbn [fst snd] in Hmeta.
  destruct Hmeta as [-> | (meta & -> & F7)]; [now injection H as <- _|].
  through_report H (percent 30) F8 w8 ltac:(right; left; eauto).
  unfold bind at 1 in H.
  destruct (pageLoop opts pdf (Nat.min (numPages pdf) (maxPagesOf opts))
              (Nat.min (numPages pdf) (maxPagesOf opts)) 1 w8)
    as [[[]|e|] w9] eqn:E9.
  2: { exfalso. exact (pageLoop_never_rejects _ _ _ _ _ _ _ _ E9). }
  2: { now injection H as <- _. }
  apply pageLoop_text in E9. rewrite F8, F7 in E9. cbn [app] in E9.
  fold (extractedText pdf opts) in E9.
  through_report H (percent 95) F10 w10 ltac:(right; left; eauto).
  unfold bind at 1 in H. cbn [emit] in H.
  unfold bind at 1 in H. cbn [getFullText fullText] in H.
  rewrite F10, E9 in H.
  destruct (truthy (trim (extractedText pdf opts))) eqn:Htext; cbn [negb] in H.
  - through_report H (percent 100) F13 w13 ltac:(right; left; eauto).
    injection H as <- _.
    exists buffer, pdf. repeat split; auto.
    cbn [text]. intros Hnil. rewrite Hnil in Htext. discriminate.
  - injection H as <- _. right. right. right. exists buffer, pdf.
    repeat split; auto.
    destruct (trim (extractedText pdf opts)); [reflexivity | discriminate].
Qed.

Lemma raceTimeout_cases {A} env ms (p : M A) w o w1 :
  raceTimeout env ms p w = (o, w1) ->
  o = rejected timeoutError \/ (p w = (o, w1) /\ o <> pending).
Proof.
  unfold raceTimeout. destruct (p w) as [[a|e|] w2].
  - destruct (clock w2 <? clock w + ms)%N;
      [intros [= <- <-]; right; split; [reflexivity | discriminate]|].
    destruct (clock w + ms <? clock w2)%N; [intros [= <- <-]; now left|].
    destruct (timerWinsTie env); intros [= <- <-];
      [now left | right; split; [reflexivity | discriminate]].
  - destruct (clock w2 <? clock w + ms)%N;
      [intros [= <- <-]; right; split; [reflexivity | discriminate]|].
    destruct (clock w + ms <? clock w2)%N; [intros [= <- <-]; now left|].
    destruct (timerWinsTie env); intros [= <- <-];
      [now left | right; split; [reflexivity | discriminate]].
  - intros [= <- <-]. now left.
Qed.

Lemma accepted_dec env file : accepted env file \/ ~ accepted env file.
Proof.
  unfold accepted.
  destruct (workerConfigured env); [|right; intros [H _]; discriminate].
  destruct (list_eq_dec ascii_dec (file_type file) (lit "application/pdf"));
    [|right; tauto].
  destruct (N.le_gt_cases (file_size file) maxFileSize);
    [left; tauto | right; intros (_ & _ & H'); lia].
Qed.

(** Once the file is let through, the first report is made; the call is
    what comes of it. *)
Lemma processPDFFile_let_through env file opts w :
  accepted env file ->
  processPDFFile env file opts w
  = (report opts (percent 5) ;;
     tryCatch (raceTimeout env (timeoutOf opts) (processing env file opts))
              (fun error => raise (normalize error))) w.
Proof.
  intros (Havail & Htype & Hsize).
  unfold processPDFFile. rewrite Havail, Htype. cbn [negb].
  rewrite PdfClaims.str_eqb_pdf.
  destruct (N.ltb_spec maxFileSize (file_size file)); [lia | reflexivity].
Qed.

(** When that report returns, the call is the race with the outer
    [catch] around it. *)
Lemma processPDFFile_accepted env file opts w :
  accepted env file -> throwsAt opts (percent 5) = None ->
  processPDFFile env file opts w
  = tryCatch (raceTimeout env (timeoutOf opts) (processing env file opts))
             (fun error => raise (normalize error)) (raceStart opts w).
Proof.
  intros Hacc Hquiet. rewrite processPDFFile_let_through by assumption.
  unfold bind at 1. unfold raceStart.
  pose proof (report_resolved opts (percent 5) w Hquiet) as R.
  destruct (report opts (percent 5) w) as [o w0]. cbn [fst] in R. subst o.
  reflexivity.
Qed.

(** When the callback throws there, the call rejects with what it threw:
    this report stands before the [try]. *)
Lemma processPDFFile_interrupted env file opts w thrown :
  accepted env file -> throwsAt opts (percent 5) = Some thrown ->
  processPDFFile env file opts w
  = (rejected (raisedOther thrown), raceStart opts w).
Proof.
  intros Hacc Hthrows. rewrite processPDFFile_let_through by assumption.
  unfold bind at 1. unfold raceStart.
  pose proof (report_outcome opts (percent 5) w) as R. rewrite Hthrows in R.
  destruct (report opts (percent 5) w) as [o w0]. cbn [fst] in R. subst o.
  reflexivity.
Qed.

(** A file that is not let through is refused on the spot. *)
Lemma processPDFFile_refused env file opts w :
  ~ accepted env file ->
  exists e,
    processPDFFile env file opts w = (rejected (raisedPDF e), w) /\
    In (code e) validationCodes.
Proof.
  intros Hno. unfold processPDFFile, throwPDF, raise.
  destruct (workerConfigured env) eqn:Havail; cbn [negb];
    [|eexists; split; [reflexivity | simpl; tauto]].
  destruct (str_eqb (file_type file) (lit "application/pdf")) eqn:Htype;
    cbn [negb]; [|eexists; split; [reflexivity | simpl; tauto]].
  destruct (N.ltb_spec maxFileSize (file_size file)) as [Hbig|Hok];
    [eexists; split; [reflexivity | simpl; tauto]|].
  exfalso. apply Hno. repeat split; auto.
  unfold str_eqb in Htype. now destruct (list_eq_dec _ _ _).
Qed.

(** The [catch] of [getDocument] throws a load error of the class, unless
    what it caught is [undefined] or [null]. *)
Lemma classifyLoadError_code t :
  (exists pe, classifyLoadError (raisedOther t) = raisedPDF pe /\
              In (code pe) [lit "PASSWORD_PROTECTED"; lit "INVALID_PDF";
                            lit "LOAD_ERROR"])
  \/ (exists complaint,
         t = thrownNullish complaint /\
         classifyLoadError (raisedOther t)
         = raisedOther (thrownError (lit "TypeError") complaint)).
Proof.
  destruct t as [ename msg | complaint | [ename|] msg]; unfold classifyLoadError;
    try (right; eexists; split; reflexivity);
    left;
    repeat match goal with
           | |- context [if ?b then _ else _] => destruct b
           end;
    eexists; (split; [reflexivity | simpl; tauto]).
Qed.

(** What the outer [catch] makes of a value that is not of the class. *)
Lemma normalize_wraps t :
  exists pe, normalize (raisedOther t) = raisedPDF pe /\
             In (code pe) wrapperCodes.
Proof.
  destruct t; (eexists; split; [reflexivity | simpl; tauto]).
Qed.

(** What an accepted file can be rejected with. *)
Lemma accepted_rejection env file opts w e w' :
  accepted env file ->
  processPDFFile env file opts w = (rejected e, w') ->
  (exists thrown,
      e = raisedOther thrown /\ throwsAt opts (percent 5) = Some thrown)
  \/ exists pe, e = raisedPDF pe /\
       (In (code pe) extractionCodes
        \/ (In (code pe) wrapperCodes /\ wrapperCause env file opts)).
Proof.
  intros Hacc H.
  destruct (throwsAt opts (percent 5)) as [thrown|] eqn:Hfirst.
  { rewrite (processPDFFile_interrupted _ _ _ _ _ Hacc Hfirst) in H.
    injection H as <- _. left. now exists thrown. }
  right. rewrite processPDFFile_accepted in H by assumption.
  unfold tryCatch in H.
  destruct (raceTimeout env (timeoutOf opts) (processing env file opts)
              (raceStart opts w)) as [[r|e0|] w1] eqn:E; try discriminate.
  unfold raise in H. injection H as <- <-.
  apply raceTimeout_cases in E. destruct E as [[= ->] | [E _]].
  - eexists. split; [reflexivity|]. left. simpl. tauto.
  - apply processing_cases in E.
    destruct E as [(t & G & ->) | [(p & t & T & ->)
                  | [(buffer & t & G1 & G3 & ->)
                    | (buffer & pdf & _ & _ & -> & _)]]].
    + destruct (normalize_wraps t) as (pe & -> & Hin).
      exists pe. split; [reflexivity|]. right. split; [exact Hin|].
      left. now exists t.
    + destruct (normalize_wraps t) as (pe & -> & Hin).
      exists pe. split; [reflexivity|]. right. split; [exact Hin|].
      right. left. now exists p, t.
    + destruct (classifyLoadError_code t)
        as [(pe & -> & Hin) | (complaint & -> & ->)].
      * exists pe. split; [reflexivity|]. left. simpl in *. tauto.
      * eexists. split; [reflexivity|]. right. split; [simpl; tauto|].
        right. right. now exists buffer, complaint.
    + eexists. split; [reflexivity|]. left. simpl. tauto.
Qed.


(** A rejection is an error of the class with a code of the taxonomy, or
    what the callback threw at the first report. *)
Lemma rejection_in_taxonomy env file opts w e w' :
  processPDFFile env file opts w = (rejected e, w') ->
  (exists pe, e = raisedPDF pe /\ In (code pe) errorCodes)
  \/ (exists thrown,
         e = raisedOther thrown /\ accepted env file /\
         throwsAt opts (percent 5) = Some thrown).
Proof.
  intros E. unfold errorCodes.
  destruct (accepted_dec env file) as [Hacc|Hno].
  - destruct (accepted_rejection env file opts w e w' Hacc E)
      as [(thrown & -> & Hfirst) | (pe & -> & [Hin | [Hin _]])].
    + right. now exists thrown.
    + left. exists pe. rewrite !in_app_iff. tauto.
    + left. exists pe. rewrite !in_app_iff. tauto.
  - destruct (processPDFFile_refused env file opts w Hno) as (pe & E' & Hin).
    rewrite E in E'. injection E' as -> _.
    left. exists pe. rewrite !in_app_iff. tauto.
Qed.


Lemma codes_apart c :
  In c validationCodes -> In c extractionCodes \/ In c wrapperCodes -> False.
Proof.
  unfold validationCodes, extractionCodes, wrapperCodes. simpl.
  intros [<- | [<- | [<- | []]]] H; intuition discriminate.
Qed.

(** X2.  A validation code is given exactly when one of the three checks
    that precede the extraction fails, and then nothing has been done: no
    progress is reported, no time has passed. *)
Theorem validation_codes_mean_refusal :
  forall env file opts w,
    (~ accepted env file ->
     exists e,
       processPDFFile env file opts w = (rejected (raisedPDF e), w) /\
       In (code e) validationCodes)
    /\
    (forall e w',
        processPDFFile env file opts w = (rejected (raisedPDF e), w') ->
        In (code e) validationCodes -> ~ accepted env file).
Proof.
  intros env file opts w. split; [apply processPDFFile_refused|].
  intros e w' H Hin Hacc.
  destruct (accepted_rejection env file opts w _ w' Hacc H)
    as [(thrown & [=] & _) | (pe & [= <-] & Hcases)].
  apply (codes_apart (code e) Hin). tauto.
Qed.

Lemma raceTimeout_in_time env file opts w :
  completesInTime env file opts w ->
  raceTimeout env (timeoutOf opts) (processing env file opts) (raceStart opts w)
  = processing env file opts (raceStart opts w)
  /\ fst (processing env file opts (raceStart opts w)) <> pending.
Proof.
  unfold completesInTime, raceTimeout. cbv zeta.
  destruct (processing env file opts (raceStart opts w)) as [[r|e|] w1];
    intros H; try contradiction;
    (destruct (N.ltb_spec (clock w1) (clock (raceStart opts w) + timeoutOf opts));
     [split; [reflexivity | discriminate] | lia]).
Qed.

(** X3.  The text of a successful extraction is what the pages of the range
    contribute, in page order, trimmed; a page that fails to load or to
    give its text contributes nothing and stops nothing. *)
Theorem extracted_text_of_success :
  forall env file opts w r w',
    processPDFFile env file opts w = (resolved r, w') ->
    exists buffer pdf,
      gives (arrayBuffer file) = inr buffer /\
      gives (getDocument env buffer) = inr pdf /\
      text r = trim (extractedText pdf opts).
Proof.
  intros env file opts w r w' H.
  apply PdfClaims.processPDFFile_resolved in H. destruct H as [_ H].
  apply PdfClaims.raceTimeout_resolved, processing_cases in H.
  destruct H as (buffer & pdf & H1 & H2 & H3 & _).
  now exists buffer, pdf.
Qed.

Lemma noPageHasText_empty pdf opts :
  noPageHasText pdf opts -> extractedText pdf opts = [].
Proof.
  unfold noPageHasText, extractedText.
  generalize (Nat.min (numPages pdf) (maxPagesOf opts)). intros n H.
  assert (G : forall start len,
             (forall k, start <= k < start + len -> pageContribution pdf k = []) ->
             List.concat (map (pageContribution pdf) (seq start len)) = []).
  { intros start len. revert start.
    induction len as [|len IH]; intros start Hk; [reflexivity|].
    cbn [seq map List.concat]. rewrite Hk by lia. rewrite IH; [reflexivity|].
    intros k Hr. apply Hk. lia. }
  apply G. intros k Hk. apply H. lia.
Qed.

(** X4.  A document none of whose pages has text is rejected with
    [NO_TEXT], provided the extraction ends before the timer fires and
    the callback, if there is one, does not throw. *)
Theorem image_only_document_has_no_text :
  forall env file opts w buffer pdf,
    accepted env file ->
    callbackReturns opts ->
    completesInTime env file opts w ->
    gives (arrayBuffer file) = inr buffer ->
    gives (getDocument env buffer) = inr pdf ->
    noPageHasText pdf opts ->
    fst (processPDFFile env file opts w) = rejected noTextError.
Proof.
  intros env file opts w buffer pdf Hacc Hquiet Htime G1 G3 Hnone.
  rewrite processPDFFile_accepted by auto.
  unfold tryCatch.
  destruct (raceTimeout_in_time env file opts w Htime) as [-> Hsettled].
  destruct (processing env file opts (raceStart opts w)) as [[r|e|] w1] eqn:E;
    cbn [fst] in Hsettled; [| |congruence]; apply processing_cases in E.
  - destruct E as (b & p & G1' & G3' & Ht & Hne & _).
    rewrite G1 in G1'. injection G1' as <-.
    rewrite G3 in G3'. injection G3' as <-.
    rewrite noPageHasText_empty in Ht by assumption. now destruct Hne.
  - destruct E as [(t & G & _) | [(p & t & T & _)
                  | [(b & t & G1' & G3' & _)
                    | (b & p & _ & _ & -> & _)]]].
    + congruence.
    + rewrite Hquiet in T. discriminate T.
    + rewrite G1 in G1'. injection G1' as <-. congruence.
    + reflexivity.
Qed.

(** X5.  A document whose load fails with an [Error] is rejected with the
    code of the reason: [PASSWORD_PROTECTED] for a [PasswordException],
    [INVALID_PDF] for an [InvalidPDFException], [LOAD_ERROR] with the
    message of the library for anything else; provided the extraction
    ends before the timer fires and the callback, if there is one, does
    not throw. *)
Theorem load_failure_is_classified :
  forall env file opts w buffer ename msg,
    accepted env file ->
    callbackReturns opts ->
    completesInTime env file opts w ->
    gives (arrayBuffer file) = inr buffer ->
    gives (getDocument env buffer) = inl (thrownError ename msg) ->
    exists pe,
      fst (processPDFFile env file opts w) = rejected (raisedPDF pe) /\
      (ename = lit "PasswordException" -> code pe = lit "PASSWORD_PROTECTED") /\
      (ename = lit "InvalidPDFException" -> code pe = lit "INVALID_PDF") /\
      (ename <> lit "PasswordException" -> ename <> lit "InvalidPDFException" ->
       code pe = lit "LOAD_ERROR" /\
       message pe = lit "Failed to load PDF: " ++ msg).
Proof.
  intros env file opts w buffer ename msg Hacc Hquiet Htime G1 G3.
  rewrite processPDFFile_accepted by auto.
  unfold tryCatch.
  destruct (raceTimeout_in_time env file opts w Htime) as [-> Hsettled].
  destruct (processing env file opts (raceStart opts w)) as [[r|e|] w1] eqn:E;
    cbn [fst] in Hsettled; [| |congruence]; apply processing_cases in E.
  - destruct E as (b & p & G1' & G3' & _).
    rewrite G1 in G1'. injection G1' as <-. congruence.
  - destruct E as [(t & G & _) | [(p & t & T & _)
                  | [(b & t & G1' & G3' & ->)
                    | (b & p & G1' & G3' & _)]]].
    + congruence.
    + rewrite Hquiet in T. discriminate T.
    + rewrite G1 in G1'. injection G1' as <-.
      rewrite G3 in G3'. injection G3' as <-.
      unfold classifyLoadError.
      destruct (str_eqb ename (lit "PasswordException")) eqn:E1.
      { apply StoreFacts.str_eqb_eq in E1. subst ename.
        eexists. split; [reflexivity|]. cbn [code].
        repeat split; auto; intros; try discriminate; congruence. }
      apply StoreFacts.str_eqb_neq in E1.
      destruct (str_eqb ename (lit "InvalidPDFException")) eqn:E2.
      { apply StoreFacts.str_eqb_eq in E2. subst ename.
        eexists. split; [reflexivity|]. cbn [code].
        repeat split; auto; intros; try discriminate; congruence. }
      apply StoreFacts.str_eqb_neq in E2.
      eexists. split; [reflexivity|]. cbn [code message].
      repeat split; auto; intros; congruence.
    + rewrite G1 in G1'. injection G1' as <-. congruence.
Qed.

(** X6.  Of all the errors the call can reject with, [getErrorMessage]
    answers the catch-all sentence for [UNKNOWN_ERROR] only. *)
Theorem only_unknown_error_is_unexpected :
  forall env file opts w e w',
    processPDFFile env file opts w = (rejected (raisedPDF e), w') ->
    (getErrorMessage e = unexpectedMessage <-> code e = lit "UNKNOWN_ERROR").
Proof.
  intros env file opts w e w' H.
  destruct (rejection_in_taxonomy env file opts w _ w' H)
    as [(pe & [= <-] & Hc) | (thrown & [=] & _)].
  destruct e as [m c]. cbn [code] in *. unfold getErrorMessage. cbn [code message].
  unfold errorCodes, validationCodes, extractionCodes, wrapperCodes in Hc.
  cbn [app In] in Hc.
  repeat (destruct Hc as [<- | Hc];
          [split; intros Hx; try reflexivity; vm_compute in Hx; discriminate Hx|]).
  destruct Hc.
Qed.


Lemma validation_codes_mean_refusal_witness :
  ~ accepted (Examples.envOf Examples.threePages) MoreExamples.textFile
  /\ exists e,
      processPDFFile (Examples.envOf Examples.threePages) MoreExamples.textFile
        Examples.defaults start = (rejected (raisedPDF e), start)
      /\ In (code e) validationCodes.
Proof.
  assert (Hno : ~ accepted (Examples.envOf Examples.threePages)
                  MoreExamples.textFile).
  { intros (_ & H & _). vm_compute in H. discriminate H. }
  split; [exact Hno|].
  exact (proj1 (validation_codes_mean_refusal
                  (Examples.envOf Examples.threePages) MoreExamples.textFile
                  Examples.defaults start) Hno).
Defined.

Lemma extracted_text_of_success_witness :
  processPDFFile (Examples.envOf Examples.threePages) Examples.someFile
    Examples.twoPagesAtMost start
  = (resolved Examples.twoOfThree,
     snd (processPDFFile (Examples.envOf Examples.threePages) Examples.someFile
            Examples.twoPagesAtMost start))
  /\ exists buffer pdf,
      gives (arrayBuffer Examples.someFile) = inr buffer /\
      gives (getDocument (Examples.envOf Examples.threePages) buffer) = inr pdf /\
      text Examples.twoOfThree = trim (extractedText pdf Examples.twoPagesAtMost).
Proof.
  assert (Hrun : processPDFFile (Examples.envOf Examples.threePages)
                   Examples.someFile Examples.twoPagesAtMost start
                 = (resolved Examples.twoOfThree,
                    snd (processPDFFile (Examples.envOf Examples.threePages)
                           Examples.someFile Examples.twoPagesAtMost start)))
    by (vm_compute; reflexivity).
  split; [exact Hrun|].
  exact (extracted_text_of_success _ _ _ _ _ _ Hrun).
Defined.

Lemma image_only_document_has_no_text_witness :
  accepted (Examples.envOf MoreExamples.scannedPages) Examples.someFile
  /\ callbackReturns Examples.defaults
  /\ completesInTime (Examples.envOf MoreExamples.scannedPages) Examples.someFile
       Examples.defaults start
  /\ noPageHasText MoreExamples.scannedPages Examples.defaults
  /\ fst (processPDFFile (Examples.envOf MoreExamples.scannedPages)
            Examples.someFile Examples.defaults start)
     = rejected noTextError.
Proof.
  assert (Hacc : accepted (Examples.envOf MoreExamples.scannedPages)
                   Examples.someFile).
  { repeat split. vm_compute. discriminate. }
  assert (Htime : completesInTime (Examples.envOf MoreExamples.scannedPages)
                    Examples.someFile Examples.defaults start)
    by (vm_compute; reflexivity).
  assert (Hnone : noPageHasText MoreExamples.scannedPages Examples.defaults)
    by (intros k _; reflexivity).
  assert (Hquiet : callbackReturns Examples.defaults)
    by (intros p; reflexivity).
  split; [exact Hacc|]. split; [exact Hquiet|]. split; [exact Htime|].
  split; [exact Hnone|].
  exact (image_only_document_has_no_text
           (Examples.envOf MoreExamples.scannedPages) Examples.someFile
           Examples.defaults start (lit "%PDF-1.7") MoreExamples.scannedPages
           Hacc Hquiet Htime eq_refl eq_refl Hnone).
Defined.

Lemma load_failure_is_classified_witness :
  accepted MoreExamples.protectedEnv Examples.someFile
  /\ callbackReturns Examples.defaults
  /\ completesInTime MoreExamples.protectedEnv Examples.someFile
       Examples.defaults start
  /\ exists pe,
      fst (processPDFFile MoreExamples.protectedEnv Examples.someFile
             Examples.defaults start) = rejected (raisedPDF pe) /\
      (lit "PasswordException" = lit "PasswordException" ->
       code pe = lit "PASSWORD_PROTECTED") /\
      (lit "PasswordException" = lit "InvalidPDFException" ->
       code pe = lit "INVALID_PDF") /\
      (lit "PasswordException" <> lit "PasswordException" ->
       lit "PasswordException" <> lit "InvalidPDFException" ->
       code pe = lit "LOAD_ERROR" /\
       message pe = lit "Failed to load PDF: " ++ lit "No password given").
Proof.
  assert (Hacc : accepted MoreExamples.protectedEnv Examples.someFile).
  { repeat split. vm_compute. discriminate. }
  assert (Htime : completesInTime MoreExamples.protectedEnv Examples.someFile
                    Examples.defaults start)
    by (vm_compute; reflexivity).
  assert (Hquiet : callbackReturns Examples.defaults)
    by (intros p; reflexivity).
  split; [exact Hacc|]. split; [exact Hquiet|]. split; [exact Htime|].
  exact (load_failure_is_classified MoreExamples.protectedEnv Examples.someFile
           Examples.defaults start (lit "%PDF-1.7") (lit "PasswordException")
           (lit "No password given") Hacc Hquiet Htime eq_refl eq_refl).
Defined.

Lemma only_unknown_error_is_unexpected_witness :
  processPDFFile (Examples.envOf Examples.slowSecondPage) Examples.someFile
    Examples.defaults start
  = (rejected (raisedPDF {| message := lit "PDF processing timed out";
                            code := lit "TIMEOUT" |}),
     snd (processPDFFile (Examples.envOf Examples.slowSecondPage)
            Examples.someFile Examples.defaults start))
  /\ (getErrorMessage {| message := lit "PDF processing timed out";
                         code := lit "TIMEOUT" |} = unexpectedMessage
      <-> lit "TIMEOUT" = lit "UNKNOWN_ERROR").
Proof.
  assert (Hrun : processPDFFile (Examples.envOf Examples.slowSecondPage)
                   Examples.someFile Examples.defaults start
                 = (rejected (raisedPDF {| message := lit "PDF processing timed out";
                                           code := lit "TIMEOUT" |}),
                    snd (processPDFFile (Examples.envOf Examples.slowSecondPage)
                           Examples.someFile Examples.defaults start)))
    by (vm_compute; reflexivity).
  split; [exact Hrun|].
  exact (only_unknown_error_is_unexpected _ _ _ _ _ _ Hrun).
Defined.


End PdfMore.

(** ** Trimming *)

Module TrimFacts.
Import Js JsFacts.

Lemma dropSpaces_snoc (x : str) (h : ascii) :
  isSpace h = false -> dropSpaces (x ++ [h]) = dropSpaces x ++ [h].
Proof.
  intros Hh. induction x as [|c x IH]; simpl; [now rewrite Hh|].
  destruct (isSpace c); [exact IH | reflexivity].
Qed.

Lemma dropSpaces_fixed (s : str) :
  match s with [] => True | c :: _ => isSpace c = false end ->
  dropSpaces s = s.
Proof. destruct s as [|c s]; simpl; [reflexivity | now intros ->]. Qed.

Lemma dropSpaces_idem (s : str) : dropSpaces (dropSpaces s) = dropSpaces s.
Proof.
  apply dropSpaces_fixed. destruct (dropSpaces s) eqn:E; [exact I|].
  exact (isSpace_dropSpaces_hd _ _ _ E).
Qed.

(** The shape of a trimmed string: empty, or a non-space first character
    and a tail that is a reversed [dropSpaces]. *)
Lemma trim_shape (s : str) :
  trim s = []
  \/ exists h u, dropSpaces s = h :: u /\ isSpace h = false /\
                 trim s = h :: rev (dropSpaces (rev u)).
Proof.
  unfold trim, trimEnd, trimStart.
  destruct (dropSpaces s) as [|h u] eqn:E; [now left|].
  right. exists h, u. pose proof (isSpace_dropSpaces_hd _ _ _ E) as Hh.
  repeat split; auto. simpl rev.
  now rewrite dropSpaces_snoc, rev_app_distr by assumption.
Qed.

(** [trim] is idempotent. *)
Lemma trim_idem (s : str) : trim (trim s) = trim s.
Proof.
  destruct (trim_shape s) as [-> | (h & u & _ & Hh & ->)]; [reflexivity|].
  unfold trim, trimEnd, trimStart. simpl dropSpaces at 2. rewrite Hh.
  simpl rev at 2. rewrite rev_involutive.
  rewrite dropSpaces_snoc, dropSpaces_idem by assumption.
  now rewrite rev_app_distr.
Qed.

(** A string is blank exactly when all its characters are white space. *)
Lemma truthy_trim (s : str) :
  truthy (trim s) = existsb (fun c => negb (isSpace c)) s.
Proof.
  destruct (trim_shape s) as [E | (h & u & E & Hh & ->)].
  - rewrite E. simpl. symmetry.
    unfold trim, trimEnd, trimStart in E.
    assert (Hd : dropSpaces s = []).
    { destruct (dropSpaces s) as [|h u] eqn:D; [reflexivity|].
      pose proof (isSpace_dropSpaces_hd _ _ _ D) as Hh.
      simpl rev in E. rewrite dropSpaces_snoc in E by assumption.
      apply (f_equal (@List.length ascii)) in E.
      rewrite length_rev, length_app in E. simpl in E. lia. }
    clear E. induction s as [|c s IH]; [reflexivity|].
    simpl in *. destruct (isSpace c); [now apply IH | discriminate].
  - simpl. symmetry. clear -E Hh.
    induction s as [|c s IH]; [discriminate|].
    simpl in *. destruct (isSpace c) eqn:Hc; simpl; [now apply IH | reflexivity].
Qed.

Lemma nonBlank_trim (s : str) : truthy (trim s) = true -> truthy (trim (trim s)) = true.
Proof. now rewrite trim_idem. Qed.

End TrimFacts.

(** ** The home page *)

Module HomePageFacts.
Import Js JsFacts Content Store Pdf PdfSpec PdfTools HomePage HomePageSpec.
Import PdfSpec2 PdfMore TrimFacts.
Import Generation (Toast, toastError, toastSuccess).
Import Parser (nonBlank).

(** *** [extractVideoId] *)

Lemma takeIdChars_spec (s : str) :
  forallb isIdChar (takeIdChars s) = true /\
  exists rest, s = takeIdChars s ++ rest /\ endsId rest.
Proof.
  induction s as [|c s (IH1 & rest & IH2 & IH3)]; simpl.
  - split; [reflexivity|]. now exists [].
  - destruct (isIdChar c) eqn:E; simpl.
    + rewrite E, IH1. split; [reflexivity|].
      exists rest. split; [now rewrite <- IH2 | assumption].
    + split; [reflexivity|]. exists (c :: s). split; [reflexivity | exact E].
Qed.

Lemma takeIdChars_app (videoId rest : str) :
  forallb isIdChar videoId = true -> endsId rest ->
  takeIdChars (videoId ++ rest) = videoId.
Proof.
  intros Hid Hrest. induction videoId as [|c v IH]; simpl in *.
  - destruct rest as [|c rest]; [reflexivity|]. simpl in *. now rewrite Hrest.
  - apply andb_true_iff in Hid. destruct Hid as [-> Hv]. now rewrite IH.
Qed.

Lemma matchForms_sound (forms : list str) (s videoId : str) :
  matchForms forms s = Some videoId ->
  exists form,
    In form forms /\ startsWith form s = true /\
    videoId = takeIdChars (skipn (List.length form) s) /\ videoId <> [].
Proof.
  induction forms as [|form forms IH]; simpl; [discriminate|].
  destruct (startsWith form s) eqn:E.
  - destruct (takeIdChars (skipn (List.length form) s)) as [|c v] eqn:T; simpl.
    + intros H. destruct (IH H) as (f & Hin & Hf). exists f. tauto.
    + intros [= <-]. exists form. rewrite T. repeat split; auto. discriminate.
  - intros H. destruct (IH H) as (f & Hin & Hf). exists f. tauto.
Qed.

(** X8.  What [extractVideoId] returns is a non-empty run of characters
    other than [&], line feed, [?] and [#], it stands in the URL right
    after one of the three forms, and it is the whole run. *)
Theorem extractVideoId_sound :
  forall url videoId,
    extractVideoId url = Some videoId ->
    isVideoId videoId /\
    exists before form rest,
      In form videoUrlForms /\
      url = before ++ form ++ videoId ++ rest /\ endsId rest.
Proof.
  induction url as [|c url IH]; intros videoId H.
  - simpl in H. discriminate.
  - cbn [extractVideoId] in H.
    destruct (matchForms videoUrlForms (c :: url)) as [v|] eqn:E.
    + injection H as <-. apply matchForms_sound in E.
      destruct E as (form & Hin & Hstart & Hv & Hne).
      destruct (takeIdChars_spec (skipn (List.length form) (c :: url)))
        as (Hall & rest & Hrest & Hend).
      split; [split; [exact Hne | now rewrite Hv]|].
      exists [], form, rest. repeat split; auto.
      simpl app. rewrite Hv, <- Hrest. now apply startsWith_skipn.
    + destruct (IH _ H) as (Hid & before & form & rest & Hin & -> & Hend).
      split; [exact Hid|]. now exists (c :: before), form, rest.
Qed.

Lemma extractVideoId_at (before url videoId : str) :
  (forall k, k < List.length before ->
             matchForms videoUrlForms (skipn k (before ++ url)) = None) ->
  matchForms videoUrlForms url = Some videoId ->
  extractVideoId (before ++ url) = Some videoId.
Proof.
  induction before as [|c before IH]; intros Hnone Hhere.
  - simpl app. destruct url; cbn [extractVideoId]; now rewrite Hhere.
  - pose proof (Hnone 0 ltac:(simpl; lia)) as H0. cbn [skipn] in H0.
    simpl app in *. cbn [extractVideoId]. rewrite H0.
    apply IH; [|assumption].
    intros k Hk. apply (Hnone (S k)). simpl. lia.
Qed.

(** X9.  The id of a watch, short or embed URL is read back: for every
    non-empty id made of characters of the class, followed by nothing or
    by a character that ends it. *)
Theorem extractVideoId_reads_id :
  forall videoId rest,
    isVideoId videoId -> endsId rest ->
    extractVideoId (lit "https://www.youtube.com/watch?v=" ++ videoId ++ rest)
    = Some videoId
    /\ extractVideoId (lit "https://youtu.be/" ++ videoId ++ rest) = Some videoId
    /\ extractVideoId (lit "https://www.youtube.com/embed/" ++ videoId ++ rest)
       = Some videoId.
Proof.
  intros videoId rest [Hne Hall] Hend.
  pose proof (takeIdChars_app videoId rest Hall Hend) as Htake.
  assert (Htruthy : truthy videoId = true) by (destruct videoId; [congruence | reflexivity]).
  repeat split.
  - change (lit "https://www.youtube.com/watch?v=" ++ videoId ++ rest)
      with (lit "https://www." ++ (lit "youtube.com/watch?v=" ++ videoId ++ rest)).
    apply extractVideoId_at.
    + intros k Hk. simpl in Hk.
      do 12 (destruct k as [|k]; [reflexivity|]). lia.
    + cbn. rewrite Htake, Htruthy. reflexivity.
  - change (lit "https://youtu.be/" ++ videoId ++ rest)
      with (lit "https://" ++ (lit "youtu.be/" ++ videoId ++ rest)).
    apply extractVideoId_at.
    + intros k Hk. simpl in Hk.
      do 8 (destruct k as [|k]; [reflexivity|]). lia.
    + cbn. rewrite Htake, Htruthy. reflexivity.
  - change (lit "https://www.youtube.com/embed/" ++ videoId ++ rest)
      with (lit "https://www." ++ (lit "youtube.com/embed/" ++ videoId ++ rest)).
    apply extractVideoId_at.
    + intros k Hk. simpl in Hk.
      do 12 (destruct k as [|k]; [reflexivity|]). lia.
    + cbn. rewrite Htake, Htruthy. reflexivity.
Qed.

Lemma matchForms_needs_form (forms : list str) (s : str) :
  (forall form, In form forms -> startsWith form s = false) ->
  matchForms forms s = None.
Proof.
  induction forms as [|form forms IH]; intros H; simpl; [reflexivity|].
  rewrite (H form) by now left. apply IH. intros f Hf. apply H. now right.
Qed.

(** X10.  A URL in which none of the three forms occurs has no video id. *)
Theorem extractVideoId_needs_form :
  forall url,
    (forall form, In form videoUrlForms -> includes form url = false) ->
    extractVideoId url = None.
Proof.
  induction url as [|c url IH]; intros H.
  - cbn [extractVideoId]. rewrite matchForms_needs_form; [reflexivity|].
    intros form Hin. specialize (H form Hin). rewrite includes_unfold in H.
    now apply orb_false_iff in H.
  - cbn [extractVideoId]. rewrite matchForms_needs_form.
    + apply IH. intros form Hin. specialize (H form Hin).
      rewrite includes_unfold in H. now apply orb_false_iff in H.
    + intros form Hin. specialize (H form Hin). rewrite includes_unfold in H.
      now apply orb_false_iff in H.
Qed.

(** *** The handlers *)

Lemma addContent_ingested now date t k body st :
  ingested now k body st (addContent now date (newItem t k body) st).
Proof. eexists. repeat split. Qed.

Lemma mockTranscript_nonBlank videoId :
  nonBlank (mockTranscript videoId) = true.
Proof. unfold nonBlank. rewrite truthy_trim. reflexivity. Qed.

(** X11.  [processYouTube] stores an item exactly when the URL is not blank
    and has a video id: a new current item of kind [youtube], titled after
    the id, whose body is the placeholder transcript, which is never
    blank.  Otherwise the store is left as it was. *)
Theorem processYouTube_ingests :
  forall now date youtubeUrl st,
    (forall videoId,
        nonBlank youtubeUrl = true ->
        extractVideoId youtubeUrl = Some videoId ->
        let st' := fst (processYouTube now date youtubeUrl st) in
        ingested now youtube (mockTranscript videoId) st st' /\
        nonBlank (mockTranscript videoId) = true /\
        (exists item, currentContent st' = Some item /\
                      Content.title item = lit "YouTube Video: " ++ videoId))
    /\
    (nonBlank youtubeUrl = false \/ extractVideoId youtubeUrl = None ->
     fst (processYouTube now date youtubeUrl st) = st).
Proof.
  intros now date youtubeUrl st. unfold processYouTube, nonBlank. split.
  - intros videoId -> ->. cbn [negb fst]. cbv zeta.
    split; [apply addContent_ingested|].
    split; [apply mockTranscript_nonBlank|].
    eexists. split; reflexivity.
  - intros [-> | H]; cbn [negb fst]; [reflexivity|].
    destruct (negb (truthy (trim youtubeUrl))); [reflexivity|].
    now rewrite H.
Qed.

(** The text of a result is never blank: a blank text is the [NO_TEXT]
    rejection. *)
Lemma resolved_text_nonBlank env file opts w r w' :
  processPDFFile env file opts w = (resolved r, w') ->
  nonBlank (text r) = true.
Proof.
  intros E.
  apply PdfClaims.processPDFFile_resolved in E. destruct E as [_ E].
  apply PdfClaims.raceTimeout_resolved, processing_cases in E.
  destruct E as (buffer & pdf0 & _ & _ & Ht & Hne & _).
  unfold nonBlank. rewrite Ht, trim_idem. rewrite <- Ht.
  destruct (text r); [congruence | reflexivity].
Qed.


(** X13.  When the file cannot be read, the message shown carries the prefix
    twice: the outer [catch] puts it into the message, and
    [getErrorMessage] puts it before the message again. *)
Theorem unreadable_file_message :
  forall env now date file w st ename msg,
    valid (validatePDFFile (Some file)) = true ->
    workerConfigured env = true ->
    completesInTime env file homePageOptions w ->
    gives (arrayBuffer file) = inl (thrownError ename msg) ->
    processFile env true now date file w st
    = (st, Some (toastError
                   (lit "PDF processing failed: PDF processing failed: " ++ msg))).
Proof.
  intros env now date file w st ename msg Hvalid Havail Htime Hread.
  assert (Hacc : accepted env file).
  { unfold validatePDFFile in Hvalid.
    destruct (str_eqb (file_type file) (lit "application/pdf")) eqn:Ht;
      cbn [negb] in Hvalid; [|discriminate].
    destruct (file_size file =? 0)%N; [discriminate|].
    destruct (N.ltb_spec maxFileSize (file_size file)); [discriminate|].
    repeat split; auto. now apply StoreFacts.str_eqb_eq. }
  unfold processFile. rewrite Hvalid. cbn [negb].
  rewrite processPDFFile_accepted by (auto; reflexivity). unfold tryCatch.
  destruct (raceTimeout_in_time env file homePageOptions w Htime) as [-> Hsettled].
  destruct (processing env file homePageOptions (raceStart homePageOptions w))
    as [[r|e|] w1] eqn:E; cbn [fst] in Hsettled; [| |congruence];
    apply processing_cases in E.
  - destruct E as (b & p & G & _). congruence.
  - destruct E as [(t & G & ->) | [(p & t & T & _)
                  | [(b & t & G & _) | (b & p & G & _)]]];
      try congruence; [|discriminate T].
    rewrite Hread in G. injection G as <-. reflexivity.
Qed.

Lemma extractVideoId_sound_witness :
  extractVideoId MoreExamples.shortUrl = Some MoreExamples.videoId
  /\ isVideoId MoreExamples.videoId
  /\ exists before form rest,
      In form videoUrlForms /\
      MoreExamples.shortUrl = before ++ form ++ MoreExamples.videoId ++ rest /\
      endsId rest.
Proof.
  assert (H : extractVideoId MoreExamples.shortUrl = Some MoreExamples.videoId)
    by reflexivity.
  split; [exact H|].
  exact (extractVideoId_sound MoreExamples.shortUrl MoreExamples.videoId H).
Defined.

Lemma extractVideoId_reads_id_witness :
  isVideoId MoreExamples.videoId
  /\ endsId (lit "?t=42")
  /\ extractVideoId (lit "https://youtu.be/" ++ MoreExamples.videoId ++ lit "?t=42")
     = Some MoreExamples.videoId.
Proof.
  assert (Hid : isVideoId MoreExamples.videoId)
    by (split; [discriminate | reflexivity]).
  assert (Hend : endsId (lit "?t=42")) by reflexivity.
  split; [exact Hid|]. split; [exact Hend|].
  exact (proj1 (proj2 (extractVideoId_reads_id MoreExamples.videoId
                         (lit "?t=42") Hid Hend))).
Defined.

Lemma extractVideoId_needs_form_witness :
  (forall form, In form videoUrlForms ->
                includes form (lit "https://vimeo.com/123") = false)
  /\ extractVideoId (lit "https://vimeo.com/123") = None.
Proof.
  assert (H : forall form, In form videoUrlForms ->
                           includes form (lit "https://vimeo.com/123") = false).
  { intros form [<- | [<- | [<- | []]]]; reflexivity. }
  split; [exact H|].
  exact (extractVideoId_needs_form (lit "https://vimeo.com/123") H).
Defined.

Lemma processYouTube_ingests_witness :
  nonBlank MoreExamples.shortUrl = true
  /\ extractVideoId MoreExamples.shortUrl = Some MoreExamples.videoId
  /\ ingested 7%N Content.youtube (mockTranscript MoreExamples.videoId)
       Store.empty
       (fst (processYouTube 7%N 7%N MoreExamples.shortUrl Store.empty)).
Proof.
  assert (H1 : nonBlank MoreExamples.shortUrl = true) by reflexivity.
  assert (H2 : extractVideoId MoreExamples.shortUrl = Some MoreExamples.videoId)
    by reflexivity.
  split; [exact H1|]. split; [exact H2|].
  exact (proj1 (proj1 (processYouTube_ingests 7%N 7%N MoreExamples.shortUrl
                         Store.empty) MoreExamples.videoId H1 H2)).
Defined.

Lemma unreadable_file_message_witness :
  valid (validatePDFFile (Some MoreExamples.unreadableFile)) = true
  /\ completesInTime (Examples.envOf Examples.threePages)
       MoreExamples.unreadableFile homePageOptions start
  /\ processFile (Examples.envOf Examples.threePages) true 7%N 7%N
       MoreExamples.unreadableFile start Store.empty
     = (Store.empty,
        Some (Generation.toastError
                (lit "PDF processing failed: PDF processing failed: "
                   ++ lit "The file could not be read"))).
Proof.
  assert (H1 : valid (validatePDFFile (Some MoreExamples.unreadableFile)) = true)
    by reflexivity.
  assert (H2 : completesInTime (Examples.envOf Examples.threePages)
                 MoreExamples.unreadableFile homePageOptions start)
    by (vm_compute; reflexivity).
  split; [exact H1|]. split; [exact H2|].
  exact (unreadable_file_message (Examples.envOf Examples.threePages) 7%N 7%N
           MoreExamples.unreadableFile start Store.empty
           (lit "NotReadableError") (lit "The file could not be read")
           H1 eq_refl H2 eq_refl).
Defined.

End HomePageFacts.

(** ** The client of the model server *)

Module OllamaFacts.
Import Js Ollama OllamaSpec.

(** X14.  However [loadModels] ends, the loading flag is down and the URL is
    the one it had; and the client is connected afterwards exactly when
    the application is not deployed and the server has answered in time
    with a success status and a readable body. *)
Theorem loadModels_outcome :
  forall isDeployed net c,
    isLoading (loadModels isDeployed net c) = false /\
    ollamaUrl (loadModels isDeployed net c) = ollamaUrl c /\
    (isConnected (loadModels isDeployed net c) = true <->
     isDeployed = false /\ exists data, tagsAnswered net c data).
Proof.
  intros isDeployed net c. unfold loadModels, tagsAnswered.
  destruct isDeployed.
  { repeat split; try discriminate. intros [H _]. discriminate. }
  destruct (fetchWithin 5000%N (getTags net (tagsUrl c))) as [e|resp] eqn:F.
  { repeat split; try discriminate. intros (_ & data & resp & H & _). discriminate. }
  unfold loadModelsTry.
  destruct (ok resp) eqn:Hok.
  - destruct (json resp) as [e|data] eqn:J.
    + repeat split; try discriminate.
      intros (_ & data & resp' & [= <-] & _ & J'). congruence.
    + repeat split;
        try (destruct (data_models data) as [[|m ms]|]; try reflexivity;
             destruct (negb (truthy (selectedModel (setIsLoading true c))));
             reflexivity).
      exists data, resp. auto.
  - repeat split; try discriminate.
    intros (_ & data & resp' & [= <-] & Hok' & _). congruence.
Qed.

(** X15.  When the server answers, the list becomes the one of the body
    (empty if the body has none).  The selected model is replaced, by the
    name of the first model, only when it was the empty string and the
    list is not empty; a selection that is not empty is kept by every run
    of [loadModels], whether the list has a model of that name or not. *)
Theorem loadModels_selection :
  forall isDeployed net c,
    (truthy (selectedModel c) = true ->
     selectedModel (loadModels isDeployed net c) = selectedModel c)
    /\
    (forall data,
        isDeployed = false -> tagsAnswered net c data ->
        models (loadModels isDeployed net c) = modelsOf data /\
        (forall first rest,
            selectedModel c = [] -> modelsOf data = first :: rest ->
            selectedModel (loadModels isDeployed net c) = name first)).
Proof.
  intros isDeployed net c. split.
  - intros Hsel. unfold loadModels. destruct isDeployed; [reflexivity|].
    destruct (fetchWithin 5000%N (getTags net (tagsUrl c))) as [e|resp];
      [reflexivity|].
    unfold loadModelsTry. destruct (ok resp); [|reflexivity].
    destruct (json resp) as [e|data]; [reflexivity|].
    destruct (data_models data) as [[|m ms]|]; try reflexivity.
    cbn [setIsLoading selectedModel]. rewrite Hsel. reflexivity.
  - intros data -> (resp & F & Hok & J). unfold loadModels, loadModelsTry, modelsOf.
    rewrite F, Hok, J. split.
    + destruct (data_models data) as [[|m ms]|]; try reflexivity.
      destruct (negb (truthy (selectedModel (setIsLoading true c)))); reflexivity.
    + intros first rest Hsel Hm.
      destruct (data_models data) as [[|m ms]|]; try discriminate.
      injection Hm as -> ->. cbn [setIsLoading selectedModel]. rewrite Hsel.
      reflexivity.
Qed.

(** X16.  [checkConnection] answers with the value it leaves in
    [isConnected] and touches nothing else; the answer is [true] exactly
    when the application is not deployed and the server answers within
    three seconds with a success status. *)
Theorem checkConnection_outcome :
  forall isDeployed net c,
    let (connected, c') := checkConnection isDeployed net c in
    isConnected c' = connected /\
    models c' = models c /\ selectedModel c' = selectedModel c /\
    isLoading c' = isLoading c /\ ollamaUrl c' = ollamaUrl c /\
    (connected = true <->
     isDeployed = false /\
     exists resp, fetchWithin 3000%N (getTags net (tagsUrl c)) = inr resp
                  /\ ok resp = true).
Proof.
  intros isDeployed net c. unfold checkConnection.
  destruct isDeployed.
  { repeat split; try discriminate. intros [H _]. discriminate. }
  destruct (fetchWithin 3000%N (getTags net (tagsUrl c))) as [e|resp].
  { repeat split; try discriminate. intros (_ & r & H & _). discriminate. }
  do 5 (split; [reflexivity|]). split.
  - intros Hc. split; [reflexivity|]. now exists resp.
  - intros (_ & r & [= <-] & Hc). exact Hc.
Qed.

(** X17.  A call of [generateText] without context succeeds exactly when the
    client is connected and the server answers the request for the prompt
    within thirty seconds, with a success status and a readable body; the
    text is the [response] of the body, or the empty string. *)
Theorem generateText_success :
  forall net c prompt text,
    generateText net c prompt None = inl text <->
    isConnected c = true /\
    exists data,
      generateAnswered net c prompt data /\
      text = match response data with Some r => r | None => [] end.
Proof.
  intros net c prompt text. unfold generateText, generateAnswered.
  destruct (isConnected c); cbn [negb].
  2: { split; [discriminate | intros [H _]; discriminate]. }
  destruct (fetchWithin 30000%N
              (postGenerate net (generateUrl c) (selectedModel c) prompt))
    as [e|resp] eqn:F.
  { split.
    - destruct e as [ename m| |]; [destruct (str_eqb ename _)| |];
        discriminate.
    - intros (_ & data & (r & H & _) & _). discriminate. }
  destruct (ok resp) eqn:Hok; cbn [negb].
  2: { split.
       - destruct (str_eqb _ _); discriminate.
       - intros (_ & data & (r & [= <-] & H & _) & _). congruence. }
  destruct (json resp) as [e|data] eqn:J.
  { split.
    - destruct e as [ename m| |]; [destruct (str_eqb ename _)| |];
        discriminate.
    - intros (_ & data & (r & [= <-] & _ & H) & _). congruence. }
  split.
  - intros [= <-]. split; [reflexivity|]. exists data. split; [|reflexivity].
    now exists resp.
  - intros (_ & data' & (r & [= <-] & _ & J') & ->).
    rewrite J in J'. injection J' as <-. reflexivity.
Qed.

Lemma slow_request_aborted {Body} (deadline : N) (r : Request Body) :
  match latency r with Some ms => (deadline <= ms)%N | None => True end ->
  fetchWithin deadline r = inl abortError.
Proof.
  unfold fetchWithin. destruct (latency r) as [ms|]; [|reflexivity].
  intros H. destruct (N.ltb_spec ms deadline); [lia | reflexivity].
Qed.

(** X18.  With the client of the provider behind it, an operation of the
    dashboard that cannot reach the model leaves the store as it was,
    whatever has been committed since the click, and says why: the
    not-connected message when the client is disconnected (no request is
    needed for that), the time-out message when the request for the
    prompt is not answered within thirty seconds. *)
Theorem generation_unavailable :
  forall k net c render st cur,
    Store.currentContent render = Some cur ->
    (isConnected c = false ->
     Generation.perform k (envOfClient false net c) render st
     = (st, Generation.toastError Generation.notConnectedMessage))
    /\
    (isConnected c = true ->
     match latency (postGenerate net (generateUrl c) (selectedModel c)
                      (promptOf k cur)) with
     | Some ms => (30000 <= ms)%N
     | None => True
     end ->
     Generation.perform k (envOfClient false net c) render st
     = (st, Generation.toastError timedOutMessage)).
Proof.
  intros k net c render st cur Hcur. split.
  - intros Hc.
    destruct k; cbn [Generation.perform];
      unfold Generation.generateSummary, Generation.generateFlashcards,
        Generation.generateQuiz, envOfClient;
      rewrite Hcur; cbn [Generation.isConnected Generation.isDeployed];
      rewrite Hc; reflexivity.
  - intros Hc Hslow. apply slow_request_aborted in Hslow.
    destruct k; cbn [Generation.perform promptOf] in *;
      unfold Generation.generateSummary, Generation.generateFlashcards,
        Generation.generateQuiz, Generation.respond, envOfClient;
      rewrite Hcur;
      cbn [Generation.isConnected Generation.isDeployed Generation.generateText];
      rewrite Hc; cbn [negb andb];
      unfold generateText; rewrite Hc; cbn [negb]; rewrite Hslow; reflexivity.
Qed.

Lemma loadModels_selection_witness :
  tagsAnswered MoreExamples.listingServer MoreExamples.unselectedClient
    {| data_models := Some [MoreExamples.mistral; Examples.llama] |}
  /\ models (loadModels false MoreExamples.listingServer
               MoreExamples.unselectedClient)
     = [MoreExamples.mistral; Examples.llama]
  /\ selectedModel (loadModels false MoreExamples.listingServer
                      MoreExamples.unselectedClient)
     = name MoreExamples.mistral.
Proof.
  assert (H : tagsAnswered MoreExamples.listingServer MoreExamples.unselectedClient
                {| data_models := Some [MoreExamples.mistral; Examples.llama] |}).
  { exists MoreExamples.tagsResponse. repeat split. }
  destruct (proj2 (loadModels_selection false MoreExamples.listingServer
                     MoreExamples.unselectedClient) _ eq_refl H) as [Hm Hs].
  split; [exact H|]. split; [exact Hm|].
  exact (Hs MoreExamples.mistral [Examples.llama] eq_refl eq_refl).
Defined.

Lemma generation_unavailable_witness :
  Store.currentContent Examples.twoItems = Some MoreExamples.firstItem
  /\ isConnected Examples.loadedClient = true
  /\ Generation.perform Generation.kQuiz
       (envOfClient false MoreExamples.silentServer Examples.loadedClient)
       Examples.twoItems Examples.twoItems
     = (Examples.twoItems, Generation.toastError timedOutMessage).
Proof.
  assert (Hcur : Store.currentContent Examples.twoItems
                 = Some MoreExamples.firstItem) by reflexivity.
  split; [exact Hcur|]. split; [reflexivity|].
  exact (proj2 (generation_unavailable Generation.kQuiz MoreExamples.silentServer
                  Examples.loadedClient Examples.twoItems Examples.twoItems
                  MoreExamples.firstItem Hcur) eq_refl I).
Defined.

End OllamaFacts.

(** ** The configuration dialog *)

Module ConfigModalFacts.
Import Js Ollama ConfigModal.
Import Generation (Toast, toastError, toastSuccess).

(** X19.  [saveConfiguration] does nothing before a test has succeeded.
    After one, the URL typed is stored whether or not the connection
    check succeeds; and the check and the load of the models are made
    with the functions of the render, that is at the URL the client had
    before: what the server answers at any other URL does not change the
    outcome. *)
Theorem saveConfiguration_outcome :
  forall isDeployed net1 net2 status tempUrl c,
    (status <> success ->
     saveConfiguration isDeployed net1 net2 status tempUrl c
     = (c, toastError (lit "Please test the connection first"), false))
    /\
    (status = success ->
     ollamaUrl (fst (fst (saveConfiguration isDeployed net1 net2 status tempUrl c)))
     = tempUrl)
    /\
    (forall net1' net2',
        getTags net1' (tagsUrl c) = getTags net1 (tagsUrl c) ->
        getTags net2' (tagsUrl c) = getTags net2 (tagsUrl c) ->
        saveConfiguration isDeployed net1' net2' status tempUrl c
        = saveConfiguration isDeployed net1 net2 status tempUrl c).
Proof.
  intros isDeployed net1 net2 status tempUrl c. split; [|split].
  - intros H. destruct status; try reflexivity. now destruct H.
  - intros ->. unfold saveConfiguration.
    destruct (checkConnection isDeployed net1 c) as [[|] checked]; reflexivity.
  - intros net1' net2' H1 H2.
    unfold saveConfiguration, checkConnection, loadModels.
    now rewrite H1, H2.
Qed.

Lemma saveConfiguration_outcome_witness :
  idle <> success
  /\ saveConfiguration false MoreExamples.listingServer MoreExamples.listingServer
       idle (lit "http://192.168.1.5:11434") Examples.loadedClient
     = (Examples.loadedClient,
        Generation.toastError (lit "Please test the connection first"), false)
  /\ ollamaUrl (fst (fst (saveConfiguration false Examples.failingServer
                            Examples.failingServer success
                            (lit "http://192.168.1.5:11434")
                            Examples.loadedClient)))
     = lit "http://192.168.1.5:11434".
Proof.
  assert (H : idle <> success) by discriminate.
  split; [exact H|]. split.
  - exact (proj1 (saveConfiguration_outcome false MoreExamples.listingServer
                    MoreExamples.listingServer idle
                    (lit "http://192.168.1.5:11434") Examples.loadedClient) H).
  - exact (proj1 (proj2 (saveConfiguration_outcome false Examples.failingServer
                           Examples.failingServer success
                           (lit "http://192.168.1.5:11434")
                           Examples.loadedClient)) eq_refl).
Defined.

End ConfigModalFacts.

(** ** More on the store *)

Module StoreMore.
Import Js Content Store StoreSpec StoreFacts StoreSpec2.

Lemma step_keeps_selection_stored (st : State) (op : Op) :
  selectionStored st -> inStep st op -> selectionStored (step st op).
Proof.
  unfold selectionStored. intros Hst Hop.
  destruct op as [now date c | [c|] | render id0 u | id0]; cbn [step].
  - intros cur [= <-]. cbn [addContent contents]. apply in_or_app. right. now left.
  - intros cur [= <-]. exact Hop.
  - discriminate.
  - cbn [inStep] in Hop. unfold updateContent. rewrite Hop.
    unfold currentHasId. cbn [currentContent contents].
    destruct (currentContent st) as [prev|] eqn:Hcur; [|discriminate].
    specialize (Hst prev eq_refl).
    destruct (str_eqb (id prev) id0) eqn:E; intros cur [= <-].
    + apply in_map_iff. exists prev. now rewrite E.
    + apply in_map_iff. exists prev. now rewrite E.
  - unfold deleteContent, currentHasId. cbn [currentContent contents].
    destruct (currentContent st) as [prev|] eqn:Hcur; [|discriminate].
    specialize (Hst prev eq_refl).
    destruct (str_eqb (id prev) id0) eqn:E; [discriminate|].
    intros cur [= <-]. apply filter_In. now rewrite E.
Qed.

Lemma run_keeps_selection_stored (ops : list Op) :
  forall st,
    selectionStored st -> allInStep st ops -> selectionStored (run ops st).
Proof.
  induction ops as [|op ops IH]; intros st Hst Hops; [exact Hst|].
  destruct Hops as [Hop Hrest]. cbn [run fold_left].
  apply IH; [|exact Hrest]. now apply step_keeps_selection_stored.
Qed.

Lemma updatesOf_keeps_id (k : Generation.Kind) (u : Updates) :
  updatesOf k u -> upd_id u = None.
Proof. destruct k; intros [v ->]; reflexivity. Qed.

(** The update of a generation changes an item that has nothing
    generated yet. *)
Lemma updatesOf_changes (k : Generation.Kind) (u : Updates)
  (item : StudyContent) :
  updatesOf k u ->
  summary item = None -> flashcards item = None -> quiz item = None ->
  spread item u <> item.
Proof.
  destruct k; intros [v ->] Hs Hf Hq Heq.
  - apply (f_equal summary) in Heq. cbn in Heq. congruence.
  - apply (f_equal flashcards) in Heq. cbn in Heq. congruence.
  - apply (f_equal quiz) in Heq. cbn in Heq. congruence.
Qed.

(** An update of a generation that was asked for before an item was
    added, and arrives after: the test on the id passes in the render of
    the click, the collection has the items with that id updated, and
    the selection, which is the new item by now, is updated as well. *)
Lemma late_update_goes_astray (now : N) (date : Date) (c : NewContent)
  (k : Generation.Kind) (u : Updates) (st : State) (cur : StudyContent) :
  plain c -> updatesOf k u -> freshId now st ->
  selectionStored st -> currentContent st = Some cur ->
  ~ selectionStored
      (updateContent (Some cur) (id cur) u (addContent now date c st)).
Proof.
  intros (Hs & Hf & Hq) Hu Hfresh Hstored Hcur Hafter.
  assert (Hother : str_eqb (NToString now) (id cur) = false).
  { apply str_eqb_neq. intros Heq. apply Hfresh. rewrite Heq.
    apply in_map. now apply Hstored. }
  unfold selectionStored, updateContent, addContent, selectionHasId in Hafter.
  cbn [currentContent contents] in Hafter. rewrite str_eqb_refl in Hafter.
  specialize (Hafter _ eq_refl).
  apply in_map_iff in Hafter. destruct Hafter as (item & Himage & Hin).
  assert (Hid : id item = NToString now).
  { destruct (str_eqb (id item) (id cur)).
    - apply (f_equal id) in Himage.
      rewrite !spread_id in Himage by (eapply updatesOf_keeps_id; eassumption).
      exact Himage.
    - rewrite Himage. apply spread_id. eapply updatesOf_keeps_id; eassumption. }
  apply in_app_iff in Hin. destruct Hin as [Hold | [<- | []]].
  - apply Hfresh. rewrite <- Hid. now apply in_map.
  - cbn [id] in Himage. rewrite Hother in Himage.
    symmetry in Himage. revert Himage.
    now apply (updatesOf_changes k).
Qed.

(** X20.  When the selection is one of the stored items, with all its
    fields as they are stored, it stays so through additions, deletions,
    selections of stored items, and updates that are called from a render
    that is not out of date.  An update of a generation that is called
    from the render before an addition, as the handlers do when the
    response arrives late, breaks it: the selection is left with a
    generated field that no stored item has. *)
Theorem selection_stays_stored :
  (forall ops st,
      selectionStored st -> allInStep st ops ->
      selectionStored (run ops st))
  /\
  (forall now date c k u st cur,
      plain c -> updatesOf k u -> freshId now st ->
      selectionStored st -> currentContent st = Some cur ->
      ~ selectionStored
          (updateContent (Some cur) (id cur) u (addContent now date c st))).
Proof.
  split.
  - intros ops st. apply run_keeps_selection_stored.
  - intros now date c k u st cur. apply late_update_goes_astray.
Qed.

Lemma filter_other_ids (id0 : str) (items : list StudyContent) :
  ~ In id0 (map id items) ->
  filter (fun content => negb (str_eqb (id content) id0)) items = items.
Proof.
  induction items as [|c items IH]; intros H; [reflexivity|].
  cbn [filter]. simpl in H.
  destruct (str_eqb (id c) id0) eqn:E.
  - apply str_eqb_eq in E. tauto.
  - cbn [negb]. rewrite IH; [reflexivity | tauto].
Qed.

(** X21.  Deleting the item that has just been added gives the collection
    back, but not the selection: whatever was selected before the
    addition, nothing is selected afterwards. *)
Theorem add_then_delete :
  forall now date c st,
    freshId now st ->
    deleteContent (NToString now) (addContent now date c st)
    = {| contents := contents st; currentContent := None |}.
Proof.
  intros now date c st Hfresh.
  unfold deleteContent, currentHasId, addContent.
  cbn [contents currentContent id]. rewrite str_eqb_refl.
  rewrite filter_app, filter_other_ids by exact Hfresh.
  cbn [filter id]. rewrite str_eqb_refl. cbn [negb]. now rewrite app_nil_r.
Qed.

(** X22.  After [deleteContent(id)] no stored item has that id and the
    selection does not have it; the items with other ids are all still
    there; deleting again changes nothing. *)
Theorem deleteContent_removes :
  forall id0 st,
    ~ In id0 (ids (deleteContent id0 st)) /\
    currentHasId (deleteContent id0 st) id0 = false /\
    (forall item, id item <> id0 ->
                  (In item (contents (deleteContent id0 st))
                   <-> In item (contents st))) /\
    deleteContent id0 (deleteContent id0 st) = deleteContent id0 st.
Proof.
  intros id0 st.
  assert (Hids : ~ In id0 (ids (deleteContent id0 st))).
  { unfold ids, deleteContent. cbn [contents]. intros H.
    apply in_map_iff in H. destruct H as (x & Hx & Hin).
    apply filter_In in Hin. destruct Hin as [_ Hin].
    rewrite Hx, str_eqb_refl in Hin. discriminate. }
  assert (Hcur : currentHasId (deleteContent id0 st) id0 = false).
  { unfold deleteContent, currentHasId. cbn [currentContent].
    destruct (currentContent st) as [cur|]; [|reflexivity].
    destruct (str_eqb (id cur) id0) eqn:E; [reflexivity | exact E]. }
  split; [exact Hids|]. split; [exact Hcur|]. split.
  - intros item Hne. unfold deleteContent. cbn [contents].
    rewrite filter_In. apply str_eqb_neq in Hne. rewrite Hne. tauto.
  - unfold deleteContent at 1. rewrite Hcur.
    rewrite filter_other_ids by exact Hids. now destruct (deleteContent id0 st).
Qed.

Lemma map_other_ids (id0 : str) (u : Updates) (items : list StudyContent) :
  ~ In id0 (map id items) ->
  map (fun content => if str_eqb (id content) id0 then spread content u
                      else content) items = items.
Proof.
  induction items as [|c items IH]; intros H; [reflexivity|].
  cbn [map]. simpl in H.
  destruct (str_eqb (id c) id0) eqn:E.
  - apply str_eqb_eq in E. tauto.
  - rewrite IH; [reflexivity | tauto].
Qed.

(** X23.  [updateContent] with an id that no stored item has changes
    nothing, when the selection is a stored item: the update is dropped
    without notice. *)
Theorem updateContent_unknown_id :
  forall id0 u st,
    selectionStored st -> ~ In id0 (ids st) ->
    updateContent (currentContent st) id0 u st = st.
Proof.
  intros id0 u st Hsel Hno. unfold updateContent.
  rewrite map_other_ids by exact Hno.
  assert (Hcur : selectionHasId (currentContent st) id0 = false).
  { unfold selectionHasId. destruct (currentContent st) as [cur|] eqn:E;
      [|reflexivity].
    apply str_eqb_neq. intros Hid. apply Hno. rewrite <- Hid.
    apply in_map. now apply Hsel. }
  rewrite Hcur. now destruct st.
Qed.

Lemma selection_stays_stored_witness :
  (selectionStored Examples.twoItems
   /\ allInStep Examples.twoItems
        [opUpdate (Some MoreExamples.firstItem) (lit "1")
           (Generation.summaryUpdates (lit "short"));
         opDelete (lit "1");
         opSetCurrent (Some (Examples.item (lit "2") (lit "second")))]
   /\ selectionStored
        (run [opUpdate (Some MoreExamples.firstItem) (lit "1")
                (Generation.summaryUpdates (lit "short"));
              opDelete (lit "1");
              opSetCurrent (Some (Examples.item (lit "2") (lit "second")))]
             Examples.twoItems))
  /\
  (plain Examples.newText
   /\ updatesOf Generation.kSummary (Generation.summaryUpdates (lit "short"))
   /\ freshId 3%N Examples.twoItems
   /\ currentContent Examples.twoItems = Some MoreExamples.firstItem
   /\ ~ selectionStored
         (updateContent (Some MoreExamples.firstItem) (lit "1")
            (Generation.summaryUpdates (lit "short"))
            (addContent 3%N 3%N Examples.newText Examples.twoItems))).
Proof.
  assert (H1 : selectionStored Examples.twoItems).
  { intros cur [= <-]. now left. }
  assert (H2 : allInStep Examples.twoItems
                 [opUpdate (Some MoreExamples.firstItem) (lit "1")
                    (Generation.summaryUpdates (lit "short"));
                  opDelete (lit "1");
                  opSetCurrent (Some (Examples.item (lit "2") (lit "second")))]).
  { repeat split. now left. }
  assert (H3 : plain Examples.newText) by (repeat split).
  assert (H4 : updatesOf Generation.kSummary
                 (Generation.summaryUpdates (lit "short")))
    by (now exists (lit "short")).
  assert (H5 : freshId 3%N Examples.twoItems).
  { intros [H | [H | []]]; discriminate H. }
  assert (H6 : currentContent Examples.twoItems = Some MoreExamples.firstItem)
    by reflexivity.
  split.
  - split; [exact H1|]. split; [exact H2|].
    exact (proj1 selection_stays_stored _ _ H1 H2).
  - split; [exact H3|]. split; [exact H4|]. split; [exact H5|].
    split; [exact H6|].
    exact (proj2 selection_stays_stored 3%N 3%N Examples.newText
             Generation.kSummary _ Examples.twoItems MoreExamples.firstItem
             H3 H4 H5 H1 H6).
Defined.

Lemma add_then_delete_witness :
  freshId 3%N Examples.twoItems
  /\ deleteContent (NToString 3%N)
       (addContent 3%N 3%N Examples.newText Examples.twoItems)
     = {| contents := contents Examples.twoItems; currentContent := None |}.
Proof.
  assert (H : freshId 3%N Examples.twoItems).
  { intros [H | [H | []]]; discriminate H. }
  split; [exact H|].
  exact (add_then_delete 3%N 3%N Examples.newText Examples.twoItems H).
Defined.

Lemma deleteContent_removes_witness :
  id (Examples.item (lit "2") (lit "second")) <> lit "1"
  /\ (In (Examples.item (lit "2") (lit "second"))
         (contents (deleteContent (lit "1") Examples.twoItems))
      <-> In (Examples.item (lit "2") (lit "second")) (contents Examples.twoItems)).
Proof.
  assert (H : id (Examples.item (lit "2") (lit "second")) <> lit "1")
    by discriminate.
  split; [exact H|].
  exact (proj1 (proj2 (proj2 (deleteContent_removes (lit "1") Examples.twoItems)))
           _ H).
Defined.

Lemma updateContent_unknown_id_witness :
  selectionStored Examples.twoItems
  /\ ~ In (lit "9") (ids Examples.twoItems)
  /\ updateContent (currentContent Examples.twoItems) (lit "9")
       (Generation.summaryUpdates (lit "lost")) Examples.twoItems
     = Examples.twoItems.
Proof.
  assert (H1 : selectionStored Examples.twoItems).
  { intros cur [= <-]. now left. }
  assert (H2 : ~ In (lit "9") (ids Examples.twoItems)).
  { intros [H | [H | []]]; discriminate H. }
  split; [exact H1|]. split; [exact H2|].
  exact (updateContent_unknown_id _ _ _ H1 H2).
Defined.

End StoreMore.

(** ** More on the operations of the dashboard *)

Module GenerationMore.
Import Js Content Store Generation StoreSpec StoreFacts OllamaSpec GenerationSpec.

Lemma reachable_guard (env : Env) :
  negb (isConnected env) && negb (isDeployed env) = false <-> reachable env.
Proof.
  unfold reachable.
  destruct (isConnected env), (isDeployed env); simpl; intuition discriminate.
Qed.

(** An operation that gets past its two guards. *)
Lemma perform_guarded (k : Kind) (env : Env) (render st : State)
  (cur : StudyContent) :
  currentContent render = Some cur -> reachable env ->
  (forall response,
      responseOf env k cur = inl response ->
      fst (perform k env render st)
      = updateContent (Some cur) (id cur) (updatesFor k (id cur) response) st
      /\ succeeded (snd (perform k env render st)))
  /\
  (forall error,
      responseOf env k cur = inr error ->
      fst (perform k env render st) = st
      /\ ~ succeeded (snd (perform k env render st))).
Proof.
  intros Hcur Hreach. apply reachable_guard in Hreach.
  unfold responseOf.
  destruct k; cbn [perform demoOf promptOf updatesFor];
    unfold generateSummary, generateFlashcards, generateQuiz;
    rewrite Hcur, Hreach; split; intros x ->; cbn [fst snd succeeded]; tauto.
Qed.

Lemma perform_unguarded (k : Kind) (env : Env) (render st : State) :
  currentContent render = None \/ ~ reachable env ->
  fst (perform k env render st) = st
  /\ ~ succeeded (snd (perform k env render st)).
Proof.
  intros H.
  assert (G : currentContent render = None
              \/ negb (isConnected env) && negb (isDeployed env) = true).
  { destruct H as [H|H]; [now left | right].
    destruct (negb (isConnected env) && negb (isDeployed env)) eqn:E;
      [reflexivity|]. apply reachable_guard in E. tauto. }
  destruct k; cbn [perform];
    unfold generateSummary, generateFlashcards, generateQuiz;
    (destruct (currentContent render) as [cur|];
     [destruct G as [G|G]; [discriminate | rewrite G] |]);
    cbn [fst snd succeeded]; tauto.
Qed.

(** An operation that succeeded had an item to work on, was let through
    by the guard and got a response. *)
Lemma succeeded_responded (k : Kind) (env : Env) (render st : State) :
  succeeded (snd (perform k env render st)) ->
  exists cur response,
    currentContent render = Some cur /\ reachable env /\
    responseOf env k cur = inl response.
Proof.
  intros Hs.
  destruct (currentContent render) as [cur|] eqn:Hcur.
  2: { now destruct (perform_unguarded k env render st (or_introl Hcur)). }
  assert (Hreach : reachable env).
  { destruct (negb (isConnected env) && negb (isDeployed env)) eqn:G.
    - assert (Hno : ~ reachable env)
        by (intros Hr; apply reachable_guard in Hr; congruence).
      now destruct (perform_unguarded k env render st (or_intror Hno)).
    - now apply reachable_guard. }
  destruct (perform_guarded k env render st cur Hcur Hreach) as [_ Hfail].
  destruct (responseOf env k cur) as [response|error] eqn:R.
  - now exists cur, response.
  - now destruct (Hfail error eq_refl).
Qed.

(** X24.  An operation of the dashboard succeeds exactly when an item is
    selected in the render of the click and either the application runs
    in demonstration mode, where no connection and no model is needed, or
    the client is connected and [generateText] returns a response for the
    prompt.  When it does not succeed the store is left as it is. *)
Theorem perform_succeeds_iff :
  forall k env render st,
    (succeeded (snd (perform k env render st)) <->
     exists cur,
       currentContent render = Some cur /\
       (isDeployed env = true
        \/ (isConnected env = true /\
            exists response, generateText env (promptOf k cur) = inl response)))
    /\
    (~ succeeded (snd (perform k env render st)) ->
     fst (perform k env render st) = st).
Proof.
  intros k env render st.
  destruct (currentContent render) as [cur|] eqn:Hcur.
  2: { destruct (perform_unguarded k env render st (or_introl Hcur))
         as [Hst Hno].
       split; [|intros _; exact Hst].
       split; [tauto | intros (cur & H & _); discriminate]. }
  destruct (isDeployed env) eqn:Hd.
  { assert (Hreach : reachable env) by (left; exact Hd).
    destruct (perform_guarded k env render st cur Hcur Hreach) as [Hok _].
    destruct (Hok (demoOf k)) as [_ Hs];
      [unfold responseOf, respond; now rewrite Hd|].
    split; [|tauto]. split; [|intros _; exact Hs].
    intros _. exists cur. tauto. }
  destruct (isConnected env) eqn:Hc.
  2: { assert (Hno : ~ reachable env)
         by (unfold reachable; rewrite Hd, Hc; intuition discriminate).
       destruct (perform_unguarded k env render st (or_intror Hno))
         as [Hst Hs].
       split; [|intros _; exact Hst].
       split; [tauto|].
       intros (c & _ & [H | [H _]]); discriminate. }
  assert (Hreach : reachable env) by (right; exact Hc).
  destruct (perform_guarded k env render st cur Hcur Hreach) as [Hok Hfail].
  assert (Hresp : responseOf env k cur = generateText env (promptOf k cur))
    by (unfold responseOf, respond; now rewrite Hd).
  destruct (generateText env (promptOf k cur)) as [response|error] eqn:G.
  - destruct (Hok response Hresp) as [_ Hs].
    split; [|tauto]. split; [|intros _; exact Hs].
    intros _. exists cur. split; [reflexivity|]. right. split; [reflexivity|].
    now exists response.
  - destruct (Hfail error Hresp) as [Hst Hs].
    split; [|intros _; exact Hst].
    split; [tauto|].
    intros (c & [= <-] & [H | (_ & r & H)]); [discriminate | congruence].
Qed.

Lemma spread_twice (k : Kind) (i : str) (r1 r2 : str) (c : StudyContent) :
  spread (spread c (updatesFor k i r1)) (updatesFor k i r2)
  = spread c (updatesFor k i r2).
Proof. destruct k; reflexivity. Qed.

Lemma spread_keeps_id (k : Kind) (i : str) (r : str) (c : StudyContent) :
  id (spread c (updatesFor k i r)) = id c.
Proof. destruct k; reflexivity. Qed.

(** Two updates of one kind on the id of the selections of their
    renders: the second one overwrites the first. *)
Lemma updateContent_twice (k : Kind) (a b c : StudyContent) (r1 r2 : str)
  (st : State) :
  id b = id a -> id c = id a ->
  updateContent (Some b) (id a) (updatesFor k (id a) r2)
    (updateContent (Some a) (id a) (updatesFor k (id a) r1) st)
  = updateContent (Some c) (id a) (updatesFor k (id a) r2) st.
Proof.
  intros Hb Hc. unfold updateContent, selectionHasId.
  cbn [contents currentContent].
  rewrite Hb, Hc, !str_eqb_refl. f_equal.
  - rewrite map_map. apply map_ext. intros item.
    destruct (str_eqb (id item) (id a)) eqn:E.
    + now rewrite spread_keeps_id, E, spread_twice.
    + now rewrite E.
  - destruct (currentContent st) as [cur|]; [|reflexivity].
    now rewrite spread_twice.
Qed.

Lemma prompt_after_update (k k' : Kind) (i r : str) (c : StudyContent) :
  promptOf k (spread c (updatesFor k' i r)) = promptOf k c.
Proof. destruct k, k'; reflexivity. Qed.

(** X25.  Generating again replaces the artifact wholesale: after a first
    successful run, a second run of the same operation, asked for in the
    render that follows the first, leaves the store exactly as it would
    have left it without the first; the prompt is built from the body,
    which no generation changes. *)
Theorem regeneration_replaces :
  forall k env1 env2 st,
    succeeded (snd (perform k env1 st st)) ->
    succeeded (snd (perform k env2 st st)) ->
    let st1 := fst (perform k env1 st st) in
    fst (perform k env2 st1 st1) = fst (perform k env2 st st).
Proof.
  intros k env1 env2 st H1 H2. cbv zeta.
  destruct (succeeded_responded k env1 st st H1)
    as (cur & r1 & Hcur & Hreach1 & Hresp1).
  destruct (succeeded_responded k env2 st st H2)
    as (cur' & r2 & Hcur' & Hreach2 & Hresp2).
  rewrite Hcur in Hcur'. injection Hcur' as <-. clear H1 H2.
  destruct (perform_guarded k env1 st st cur Hcur Hreach1) as [Hok1 _].
  destruct (Hok1 r1 Hresp1) as [-> _].
  destruct (perform_guarded k env2 st st cur Hcur Hreach2) as [Hok2 _].
  destruct (Hok2 r2 Hresp2) as [-> _].
  set (u1 := updatesFor k (id cur) r1).
  assert (Hcur1 : currentContent (updateContent (Some cur) (id cur) u1 st)
                  = Some (spread cur u1)).
  { rewrite StoreClaims.updateContent_selection, Hcur. reflexivity. }
  destruct (perform_guarded k env2 (updateContent (Some cur) (id cur) u1 st)
              (updateContent (Some cur) (id cur) u1 st)
              (spread cur u1) Hcur1 Hreach2) as [Hok _].
  assert (Hresp : responseOf env2 k (spread cur u1) = inl r2).
  { unfold responseOf, u1. now rewrite prompt_after_update. }
  destruct (Hok r2 Hresp) as [-> _].
  unfold u1. rewrite spread_keeps_id.
  apply updateContent_twice; [apply spread_keeps_id | reflexivity].
Qed.

Lemma perform_succeeds_iff_witness :
  succeeded (snd (perform kSummary MoreExamples.answeringEnv
                    Examples.twoItems Examples.twoItems))
  /\ (exists cur,
         currentContent Examples.twoItems = Some cur /\
         (isDeployed MoreExamples.answeringEnv = true
          \/ (isConnected MoreExamples.answeringEnv = true /\
              exists response,
                generateText MoreExamples.answeringEnv (promptOf kSummary cur)
                = inl response)))
  /\ ~ succeeded (snd (perform kSummary MoreExamples.answeringEnv
                         Store.empty Examples.twoItems))
  /\ fst (perform kSummary MoreExamples.answeringEnv Store.empty
            Examples.twoItems) = Examples.twoItems.
Proof.
  assert (Hyes : succeeded (snd (perform kSummary MoreExamples.answeringEnv
                                   Examples.twoItems Examples.twoItems)))
    by exact I.
  assert (Hno : ~ succeeded (snd (perform kSummary MoreExamples.answeringEnv
                                    Store.empty Examples.twoItems)))
    by (intros []).
  split; [exact Hyes|]. split.
  - exact (proj1 (proj1 (perform_succeeds_iff kSummary MoreExamples.answeringEnv
                           Examples.twoItems Examples.twoItems)) Hyes).
  - split; [exact Hno|].
    exact (proj2 (perform_succeeds_iff kSummary MoreExamples.answeringEnv
                    Store.empty Examples.twoItems) Hno).
Defined.

Lemma regeneration_replaces_witness :
  succeeded (snd (perform kFlashcards Examples.deployedEnv Examples.twoItems
                    Examples.twoItems))
  /\ fst (perform kFlashcards Examples.deployedEnv
            (fst (perform kFlashcards Examples.deployedEnv Examples.twoItems
                    Examples.twoItems))
            (fst (perform kFlashcards Examples.deployedEnv Examples.twoItems
                    Examples.twoItems)))
     = fst (perform kFlashcards Examples.deployedEnv Examples.twoItems
              Examples.twoItems).
Proof.
  assert (H : succeeded (snd (perform kFlashcards Examples.deployedEnv
                                Examples.twoItems Examples.twoItems)))
    by exact I.
  split; [exact H|].
  exact (regeneration_replaces kFlashcards Examples.deployedEnv
           Examples.deployedEnv Examples.twoItems H H).
Defined.

End GenerationMore.

(** ** More on the parsers *)

Module ParserMore.
Import Js JsFacts Content Parser ParserSpec ParserFacts ParserSpec2 TrimFacts.

(** *** Identifiers *)

Lemma natToString_inj (a b : nat) : natToString a = natToString b -> a = b.
Proof.
  unfold natToString, lit. intros H.
  apply (f_equal string_of_list_ascii) in H.
  rewrite !string_of_list_ascii_of_string in H.
  apply (f_equal NilEmpty.uint_of_string) in H.
  rewrite !NilEmpty.usu in H. injection H as H.
  apply (f_equal Nat.of_uint) in H. now rewrite !Unsigned.of_to in H.
Qed.

Lemma indexed_id_inj (p : str) (a b : nat) :
  p ++ natToString a = p ++ natToString b -> a = b.
Proof. intros H. apply app_inv_head in H. now apply natToString_inj. Qed.

(** *** Flashcards *)

Lemma trimmed_trim (s : str) : trimmed (trim s).
Proof. apply trim_idem. Qed.

Lemma flashcardOfLine_shape contentId line k :
  let card := flashcardOfLine contentId line k in
  trimmed (front card) /\ trimmed (back card) /\
  difficulty card = medium /\ lastReviewed card = None /\
  fc_id card = contentId ++ lit "-flashcard-" ++ natToString k.
Proof.
  cbv zeta. unfold flashcardOfLine. cbn [front back difficulty lastReviewed fc_id].
  repeat split; [apply trimmed_trim|].
  destruct (nth_error (split (lit " | A: ") line) 1) as [b|]; [|reflexivity].
  destruct (truthy (trim b)); [apply trimmed_trim | reflexivity].
Qed.

Lemma cards_ids_from contentId (lines : list str) :
  forall i card,
    In card (filter isCompleteCard (mapiFrom (flashcardOfLine contentId) i lines)) ->
    exists k, i <= k /\
      fc_id card = contentId ++ lit "-flashcard-" ++ natToString k.
Proof.
  induction lines as [|line lines IH]; intros i card H; [destruct H|].
  cbn [mapiFrom filter] in H.
  destruct (isCompleteCard (flashcardOfLine contentId line i)).
  - destruct H as [<- | H].
    + exists i. split; [lia | reflexivity].
    + destruct (IH _ _ H) as (k & Hk & Hid). exists k. split; [lia | exact Hid].
  - destruct (IH _ _ H) as (k & Hk & Hid). exists k. split; [lia | exact Hid].
Qed.

Lemma cards_ids_distinct contentId (lines : list str) :
  forall i,
    NoDup (map fc_id
             (filter isCompleteCard (mapiFrom (flashcardOfLine contentId) i lines))).
Proof.
  induction lines as [|line lines IH]; intros i; [constructor|].
  cbn [mapiFrom filter].
  destruct (isCompleteCard (flashcardOfLine contentId line i)); [|apply IH].
  cbn [map]. constructor; [|apply IH].
  intros Hin. apply in_map_iff in Hin. destruct Hin as (card & Hid & Hcard).
  apply cards_ids_from in Hcard. destruct Hcard as (k & Hk & Hidk).
  rewrite Hidk in Hid. cbn [fc_id flashcardOfLine] in Hid.
  rewrite !app_assoc in Hid. apply indexed_id_inj in Hid. lia.
Qed.

(** X26.  Every flashcard the parser returns has a front and a back that are
    not empty and carry no white space at their ends, the difficulty
    [medium], no review date and an id of the form
    [<content id>-flashcard-<n>]; the ids are pairwise distinct; and
    there are no more cards than lines with both markers. *)
Theorem flashcards_well_formed :
  forall contentId flashcardsText,
    Forall (wellFormedCard contentId) (parseFlashcards contentId flashcardsText)
    /\ NoDup (map fc_id (parseFlashcards contentId flashcardsText))
    /\ List.length (parseFlashcards contentId flashcardsText)
       <= List.length (filter isFlashcardLine (split newline flashcardsText)).
Proof.
  intros contentId flashcardsText. unfold parseFlashcards, cardsOfLines, mapi.
  fold newline. split; [|split].
  - apply Forall_forall. intros card H. apply filter_In in H.
    destruct H as [H Hc]. apply mapiFrom_In in H.
    destruct H as (line & k & _ & ->).
    destruct (flashcardOfLine_shape contentId line (k + 0)) as (F & B & D & L & I).
    unfold isCompleteCard in Hc. apply andb_true_iff in Hc. destruct Hc as [Hf Hb].
    unfold wellFormedCard. repeat split; auto.
    + intros E. rewrite E in Hf. discriminate.
    + intros E. rewrite E in Hb. discriminate.
    + now exists (k + 0).
  - apply cards_ids_distinct.
  - etransitivity; [apply filter_length_le|]. now rewrite mapiFrom_length.
Qed.

(** *** Quiz questions *)

Lemma correctAnswerOf_range (lines : list str) :
  (0 <= correctAnswerOf lines <= 3)%Z.
Proof.
  unfold correctAnswerOf.
  destruct (find hasCorrectMarker lines) as [l|]; [|lia].
  unfold matchAD. destruct (find isAD l) as [c|] eqn:E; [|lia].
  apply find_some in E. destruct E as [_ E]. apply isAD_spec in E.
  rewrite indexOf_letter by assumption. now apply letterIndex_range.
Qed.

Lemma questionOfLines_well_formed contentId i lines :
  i < 5 -> 6 <= List.length lines ->
  wellFormedQuestion contentId (questionOfLines contentId i lines).
Proof.
  intros Hi Hlen. unfold wellFormedQuestion.
  split; [apply correctAnswerOf_range|].
  split; [now apply options_length|].
  cbn [options question explanation qq_id questionOfLines].
  split; [|split; [apply trimmed_trim | split; [discriminate|]]].
  - apply Forall_forall. intros o Ho. apply in_map_iff in Ho.
    destruct Ho as (l & <- & _). apply trimmed_trim.
  - now exists i.
Qed.

Lemma quiz_ids_from contentId (blocks : list str) :
  forall i q,
    In q (List.concat (mapiFrom (contribution contentId) i blocks)) ->
    exists k, i <= k /\ qq_id q = contentId ++ lit "-quiz-" ++ natToString k.
Proof.
  induction blocks as [|block blocks IH]; intros i q H; [destruct H|].
  cbn [mapiFrom List.concat] in H. apply in_app_or in H. destruct H as [H|H].
  - unfold contribution, questionsOfBlock in H.
    destruct (6 <=? List.length (blockLines block)); [|destruct H].
    destruct H as [<- | []]. exists i. split; [lia | reflexivity].
  - destruct (IH _ _ H) as (k & Hk & Hid). exists k. split; [lia | exact Hid].
Qed.

Lemma quiz_ids_distinct contentId (blocks : list str) :
  forall i,
    NoDup (map qq_id (List.concat (mapiFrom (contribution contentId) i blocks))).
Proof.
  induction blocks as [|block blocks IH]; intros i; [constructor|].
  cbn [mapiFrom List.concat]. unfold contribution at 1, questionsOfBlock.
  destruct (6 <=? List.length (blockLines block)); [|apply IH].
  cbn [app map]. constructor; [|apply IH].
  intros Hin. apply in_map_iff in Hin. destruct Hin as (q & Hid & Hq).
  apply quiz_ids_from in Hq. destruct Hq as (k & Hk & Hidk).
  rewrite Hidk in Hid. cbn [qq_id questionOfLines] in Hid.
  rewrite !app_assoc in Hid. apply indexed_id_inj in Hid. lia.
Qed.

(** X27.  Every question the parser returns has a [correctAnswer] that is an
    index of its options (0 to 3), exactly four options, options and
    question text without white space at their ends, an explanation
    (possibly empty) and an id of the form [<content id>-quiz-<i>] with
    [i] below 5; the ids are pairwise distinct. *)
Theorem quiz_well_formed :
  forall contentId quizText,
    Forall (wellFormedQuestion contentId) (parseQuiz contentId quizText)
    /\ NoDup (map qq_id (parseQuiz contentId quizText)).
Proof.
  intros contentId quizText. split.
  - apply Forall_forall. intros q Hq. apply parseQuiz_In in Hq.
    destruct Hq as (i & block & _ & Hi & Hq).
    unfold questionsOfBlock in Hq.
    destruct (Nat.leb_spec 6 (List.length (blockLines block))); [|destruct Hq].
    destruct Hq as [<- | []]. now apply questionOfLines_well_formed.
  - rewrite parseQuiz_spec. apply quiz_ids_distinct.
Qed.

(** *** The formats of the prompts are read back *)

(** Splitting at a single character. *)
Lemma splitGo_char_free (c : ascii) (s : str) :
  ~ In c s -> forall cur, splitGo [c] 0 cur s = [rev cur ++ s].
Proof.
  induction s as [|x s IH]; intros Hno cur; cbn [splitGo].
  - now rewrite app_nil_r.
  - cbn [startsWith]. destruct (ascii_dec c x) as [->|_].
    + exfalso. apply Hno. now left.
    + rewrite IH by (intros H; apply Hno; now right).
      cbn [rev]. now rewrite <- app_assoc.
Qed.

Lemma splitGo_char_at (c : ascii) (s rest : str) :
  ~ In c s ->
  forall cur, splitGo [c] 0 cur (s ++ c :: rest)
              = (rev cur ++ s) :: splitGo [c] 0 [] rest.
Proof.
  induction s as [|x s IH]; intros Hno cur; cbn [app splitGo].
  - cbn [startsWith]. destruct (ascii_dec c c); [|congruence].
    cbn [List.length Nat.sub]. now rewrite app_nil_r.
  - cbn [startsWith]. destruct (ascii_dec c x) as [->|_].
    + exfalso. apply Hno. now left.
    + rewrite IH by (intros H; apply Hno; now right).
      cbn [rev]. now rewrite <- app_assoc.
Qed.

(** [split] undoes [join] when no piece holds the separator. *)
Lemma split_join_char (c : ascii) (pieces : list str) :
  pieces <> [] -> Forall (fun p => ~ In c p) pieces ->
  split [c] (join [c] pieces) = pieces.
Proof.
  unfold split. induction pieces as [|p pieces IH]; intros Hne Hall; [congruence|].
  inversion Hall as [|? ? Hp Hrest]; subst.
  destruct pieces as [|p' pieces].
  - cbn [join]. now rewrite splitGo_char_free.
  - rewrite join_cons by discriminate. cbn [app].
    rewrite splitGo_char_at by assumption. cbn [rev app].
    f_equal. apply IH; [discriminate | assumption].
Qed.

Lemma cardSep_cons : cardSep = " "%char :: bar :: lit " A: ".
Proof. reflexivity. Qed.

Lemma cardSep_not_here (c : ascii) (s : str) :
  match s with [] => True | d :: _ => d <> bar end ->
  startsWith cardSep (c :: s) = false.
Proof.
  intros H. rewrite cardSep_cons. cbn [startsWith].
  destruct (ascii_dec " " c); [|reflexivity].
  destruct s as [|d s]; [reflexivity|].
  destruct (ascii_dec bar d) as [<-|]; [now destruct H | reflexivity].
Qed.

Lemma splitGo_bar_free (s : str) :
  ~ In bar s -> forall cur, splitGo cardSep 0 cur s = [rev cur ++ s].
Proof.
  induction s as [|x s IH]; intros Hno cur; cbn [splitGo].
  - now rewrite app_nil_r.
  - assert (Hs : startsWith cardSep (x :: s) = false).
    { apply cardSep_not_here.
      destruct s as [|d s]; [exact I|]. intros ->. apply Hno. right. now left. }
    rewrite Hs, IH by (intros H; apply Hno; now right).
    cbn [rev]. now rewrite <- app_assoc.
Qed.

Lemma splitGo_bar_at (s rest : str) :
  ~ In bar s ->
  forall cur, splitGo cardSep 0 cur (s ++ cardSep ++ rest)
              = (rev cur ++ s) :: splitGo cardSep 0 [] rest.
Proof.
  induction s as [|x s IH]; intros Hno cur.
  - cbn [app]. rewrite app_nil_r.
    destruct rest; reflexivity.
  - cbn [app splitGo].
    assert (Hs : startsWith cardSep (x :: s ++ cardSep ++ rest) = false).
    { apply cardSep_not_here.
      destruct s as [|d s]; cbn [app]; [rewrite cardSep_cons; discriminate|].
      intros ->. apply Hno. right. now left. }
    rewrite Hs, IH by (intros H; apply Hno; now right).
    cbn [rev]. now rewrite <- app_assoc.
Qed.

Lemma trimmed_dropSpaces (s : str) : trimmed s -> dropSpaces s = s.
Proof.
  unfold trimmed. intros H.
  destruct (trim_shape s) as [E | (h & u & _ & Hh & E)]; rewrite E in H.
  - now subst.
  - subst s. apply dropSpaces_fixed. exact Hh.
Qed.

Lemma formatCard_parses contentId (p : str * str) (k : nat) :
  cardField (fst p) -> cardField (snd p) ->
  isFlashcardLine (formatCard p) = true /\
  flashcardOfLine contentId (formatCard p) k = cardOf contentId p k /\
  isCompleteCard (cardOf contentId p k) = true.
Proof.
  destruct p as [f b]. cbn [fst snd].
  intros (Hf & Tf & Bf & _) (Hb & Tb & Bb & _).
  assert (Hsplit : split (lit " | A: ") (formatCard (f, b)) = [lit "Q: " ++ f; b]).
  { unfold formatCard, split. cbn [fst snd].
    change (lit " | A: ") with cardSep.
    change (lit "Q: " ++ f ++ cardSep ++ b) with
      ("Q"%char :: ":"%char :: " "%char :: f ++ cardSep ++ b).
    change ("Q"%char :: ":"%char :: " "%char :: f ++ cardSep ++ b)
      with ((lit "Q: " ++ f) ++ cardSep ++ b).
    unfold cardSep at 1, lit at 1. cbn [list_ascii_of_string].
    fold (lit " | A: "). fold cardSep.
    rewrite splitGo_bar_at.
    - rewrite splitGo_bar_free by assumption. reflexivity.
    - cbn. intros [H | [H | [H | H]]]; try discriminate. now apply Bf. }
  split; [|split].
  - unfold isFlashcardLine. apply andb_true_iff. split.
    + apply includes_spec. exists [], (lit " " ++ f ++ lit " | A: " ++ b).
      reflexivity.
    + apply includes_spec. exists (lit "Q: " ++ f ++ lit " | "), (lit " " ++ b).
      unfold formatCard. cbn [fst snd]. rewrite <- !app_assoc. reflexivity.
  - unfold flashcardOfLine, cardOf. rewrite Hsplit. cbn [hd nth_error fst snd].
    f_equal.
    + cbn. exact Tf.
    + rewrite Tb. destruct b; [congruence | reflexivity].
  - unfold isCompleteCard, cardOf. cbn [front back fst snd].
    destruct f, b; try congruence. reflexivity.
Qed.

Lemma formatCard_one_line (p : str * str) :
  cardField (fst p) -> cardField (snd p) -> ~ In lineFeed (formatCard p).
Proof.
  intros (_ & _ & _ & Hf) (_ & _ & _ & Hb). unfold formatCard.
  rewrite !in_app_iff. intros [H | [H | [H | H]]]; try tauto;
    cbn in H; intuition discriminate.
Qed.

Lemma cards_of_formatted contentId (pairs : list (str * str)) :
  Forall (fun p => cardField (fst p) /\ cardField (snd p)) pairs ->
  forall i,
    filter isCompleteCard
      (mapiFrom (flashcardOfLine contentId) i
         (filter isFlashcardLine (map formatCard pairs)))
    = mapiFrom (cardOf contentId) i pairs.
Proof.
  induction 1 as [|p pairs [Hf Hb] _ IH]; intros i; [reflexivity|].
  destruct (formatCard_parses contentId p i Hf Hb) as (Hline & Hcard & Hcomplete).
  cbn [map filter]. rewrite Hline. cbn [mapiFrom filter].
  rewrite Hcard, Hcomplete. now rewrite IH.
Qed.

(** X28.  A response written in the format the flashcard prompt asks for is
    read back: for fronts and backs that are not empty, have no white
    space at their ends and hold neither a bar nor a line feed, the cards
    are those fronts and backs, in order, numbered from 0. *)
Theorem flashcards_round_trip :
  forall contentId pairs,
    Forall (fun p => cardField (fst p) /\ cardField (snd p)) pairs ->
    parseFlashcards contentId (formatCards pairs) = mapi (cardOf contentId) pairs.
Proof.
  intros contentId pairs Hall. unfold parseFlashcards, cardsOfLines, mapi, formatCards.
  destruct pairs as [|p pairs]; [reflexivity|].
  fold newline. change newline with [lineFeed].
  rewrite split_join_char.
  - now apply cards_of_formatted.
  - discriminate.
  - apply Forall_forall. intros line Hin. apply in_map_iff in Hin.
    destruct Hin as (q & <- & Hq).
    rewrite Forall_forall in Hall. destruct (Hall q Hq).
    now apply formatCard_one_line.
Qed.

(** *** The quiz block *)

Lemma no_colon_no_marker (marker s : str) :
  In colon marker -> ~ In colon s -> includes marker (toLowerCase s) = false.
Proof.
  intros Hm Hs. destruct (includes marker (toLowerCase s)) eqn:E; [|reflexivity].
  exfalso. apply includes_spec in E. destruct E as (pre & post & E).
  assert (Hin : In colon (toLowerCase s)).
  { rewrite E, !in_app_iff. tauto. }
  unfold toLowerCase in Hin. apply in_map_iff in Hin.
  destruct Hin as (c & Hc & Hin).
  assert (c = colon); [|now subst].
  unfold lowerChar in Hc.
  destruct ((65 <=? nat_of_ascii c) && (nat_of_ascii c <=? 90)
            || (192 <=? nat_of_ascii c) && (nat_of_ascii c <=? 222)
               && negb (nat_of_ascii c =? 215)) eqn:U; [|exact Hc].
  exfalso. apply (f_equal nat_of_ascii) in Hc.
  pose proof (nat_ascii_bounded c) as Hb.
  rewrite nat_ascii_embedding in Hc.
  - change (nat_of_ascii colon) with 58 in Hc.
    apply orb_true_iff in U. rewrite !andb_true_iff, !Nat.leb_le in U. lia.
  - apply orb_true_iff in U. rewrite !andb_true_iff, !Nat.leb_le in U. lia.
Qed.

Lemma quizField_nonBlank (s : str) : quizField s -> nonBlank s = true.
Proof.
  intros (Hne & Ht & _). unfold nonBlank. rewrite Ht.
  destruct s; [congruence | reflexivity].
Qed.

Lemma prefixed_line (pre s : str) (c : ascii) :
  ~ In c pre -> ~ In c s -> ~ In c (pre ++ s).
Proof. rewrite in_app_iff. tauto. Qed.

Lemma find_skip {A} (f : A -> bool) (a : A) (l : list A) :
  f a = false -> find f (a :: l) = find f l.
Proof. intros H. cbn [find]. now rewrite H. Qed.

Lemma labelled_no_marker (marker label s : str) :
  In colon marker -> ~ In colon label -> ~ In colon s ->
  includes marker (toLowerCase (label ++ s)) = false.
Proof.
  intros Hm Hl Hs. apply no_colon_no_marker; [exact Hm|].
  now apply prefixed_line.
Qed.

Lemma option_line (label : ascii) (o : str) :
  isAD label = true -> quizField o ->
  trim (stripOptionLabel (label :: ")"%char :: " "%char :: o)) = o.
Proof.
  intros Hl (_ & Ht & _). unfold stripOptionLabel. rewrite Hl.
  change (nat_of_ascii ")" =? 41) with true. cbn [andb].
  change (dropSpaces (" "%char :: o)) with (dropSpaces o).
  now rewrite trimmed_dropSpaces.
Qed.

(** X29.  A block written in the format the quiz prompt asks for is read
    back, except for its answer: for a question and four options that are
    not empty, have no white space at their ends and hold neither a colon
    nor a line feed, and a one-line explanation, the question parsed has
    that text, those options and that explanation; its [correctAnswer] is
    2 whichever letter A-D follows [Correct:]. *)
Theorem quiz_block_round_trip :
  forall contentId i q o1 o2 o3 o4 X e,
    quizField q -> quizField o1 -> quizField o2 -> quizField o3 ->
    quizField o4 -> letterAD X -> explanationField e ->
    questionsOfBlock contentId i (formatQuestion q o1 o2 o3 o4 X e)
    = [questionOf contentId i q o1 o2 o3 o4 e].
Proof.
  intros contentId i q o1 o2 o3 o4 X e Hq H1 H2 H3 H4 HX [He Hel].
  assert (HXl : X <> lineFeed)
    by (destruct HX as [-> | [-> | [-> | ->]]]; discriminate).
  assert (Hlines :
            blockLines (formatQuestion q o1 o2 o3 o4 X e)
            = [lit " " ++ q; lit "A) " ++ o1; lit "B) " ++ o2; lit "C) " ++ o3;
               lit "D) " ++ o4; lit "Correct: " ++ [X]; lit "Explanation: " ++ e]).
  { unfold blockLines, formatQuestion. fold newline. change newline with [lineFeed].
    rewrite split_join_char; [| discriminate |].
    - cbn [filter].
      assert (N0 : nonBlank (lit " " ++ q) = true).
      { unfold nonBlank. change (trim (lit " " ++ q)) with (trim q).
        now apply quizField_nonBlank. }
      rewrite N0.
      repeat match goal with
             | |- context [nonBlank (lit ?l ++ ?s)] =>
                 replace (nonBlank (lit l ++ s)) with true
                   by (unfold nonBlank; rewrite truthy_trim; reflexivity)
             end.
      reflexivity.
    - destruct Hq as (_ & _ & _ & Lq), H1 as (_ & _ & _ & L1),
        H2 as (_ & _ & _ & L2), H3 as (_ & _ & _ & L3), H4 as (_ & _ & _ & L4).
      repeat (apply Forall_cons;
              [apply prefixed_line;
               [cbn; intuition discriminate
               | first [assumption | cbn; intuition congruence]]|]).
      constructor. }
  unfold questionsOfBlock. rewrite Hlines. cbn [List.length Nat.leb].
  f_equal. unfold questionOfLines, questionOf. f_equal.
  - cbn [nth]. change (trim (lit " " ++ q)) with (trim q).
    destruct Hq as (_ & Ht & _). exact Ht.
  - change (slice 1 5 _) with
      [lit "A) " ++ o1; lit "B) " ++ o2; lit "C) " ++ o3; lit "D) " ++ o4].
    cbn [map].
    change (lit "A) " ++ o1) with ("A"%char :: ")"%char :: " "%char :: o1).
    change (lit "B) " ++ o2) with ("B"%char :: ")"%char :: " "%char :: o2).
    change (lit "C) " ++ o3) with ("C"%char :: ")"%char :: " "%char :: o3).
    change (lit "D) " ++ o4) with ("D"%char :: ")"%char :: " "%char :: o4).
    now rewrite !option_line by (assumption || reflexivity).
  - unfold correctAnswerOf.
    destruct Hq as (_ & _ & Cq & _), H1 as (_ & _ & C1 & _),
      H2 as (_ & _ & C2 & _), H3 as (_ & _ & C3 & _), H4 as (_ & _ & C4 & _).
    do 5 (rewrite find_skip
           by (apply labelled_no_marker;
               [cbn; intuition congruence | cbn; intuition discriminate
               | assumption])).
    change (find hasCorrectMarker (_ :: _)) with (Some (lit "Correct: " ++ [X])).
    cbv beta iota. now rewrite ParserClaims.matchAD_Correct.
  - f_equal. unfold explanationOf.
    destruct Hq as (_ & _ & Cq & _), H1 as (_ & _ & C1 & _),
      H2 as (_ & _ & C2 & _), H3 as (_ & _ & C3 & _), H4 as (_ & _ & C4 & _).
    do 5 (rewrite find_skip
           by (apply labelled_no_marker;
               [cbn; intuition congruence | cbn; intuition discriminate
               | assumption])).
    rewrite find_skip
      by (destruct HX as [-> | [-> | [-> | ->]]]; reflexivity).
    change (find hasExplanationMarker (_ :: _))
      with (Some (lit "Explanation: " ++ e)).
    change (stripExplanationMarker (lit "Explanation: " ++ e))
      with (dropSpaces e).
    exact He.
Qed.

Lemma flashcards_round_trip_witness :
  Forall (fun p => cardField (fst p) /\ cardField (snd p)) MoreExamples.twoCards
  /\ parseFlashcards (lit "17") (formatCards MoreExamples.twoCards)
     = mapi (cardOf (lit "17")) MoreExamples.twoCards.
Proof.
  assert (H : Forall (fun p => cardField (fst p) /\ cardField (snd p))
                MoreExamples.twoCards).
  { repeat constructor; try discriminate; not_in. }
  split; [exact H|].
  exact (flashcards_round_trip (lit "17") MoreExamples.twoCards H).
Defined.

Lemma quiz_block_round_trip_witness :
  quizField (lit "Which planet is the largest?")
  /\ quizField (lit "Mars") /\ quizField (lit "Venus")
  /\ quizField (lit "Earth") /\ quizField (lit "Jupiter")
  /\ letterAD "D"%char
  /\ explanationField (lit "Jupiter is the largest planet.")
  /\ questionsOfBlock (lit "17") 0
       (formatQuestion (lit "Which planet is the largest?") (lit "Mars")
          (lit "Venus") (lit "Earth") (lit "Jupiter") "D"%char
          (lit "Jupiter is the largest planet."))
     = [questionOf (lit "17") 0 (lit "Which planet is the largest?")
          (lit "Mars") (lit "Venus") (lit "Earth") (lit "Jupiter")
          (lit "Jupiter is the largest planet.")].
Proof.
  assert (Hq : quizField (lit "Which planet is the largest?"))
    by (repeat split; try discriminate; not_in).
  assert (H1 : quizField (lit "Mars")) by (repeat split; try discriminate; not_in).
  assert (H2 : quizField (lit "Venus")) by (repeat split; try discriminate; not_in).
  assert (H3 : quizField (lit "Earth")) by (repeat split; try discriminate; not_in).
  assert (H4 : quizField (lit "Jupiter")) by (repeat split; try discriminate; not_in).
  assert (HX : letterAD "D"%char) by (right; right; right; reflexivity).
  assert (He : explanationField (lit "Jupiter is the largest planet."))
    by (split; [reflexivity | not_in]).
  repeat (split; [assumption|]).
  exact (quiz_block_round_trip (lit "17") 0 _ _ _ _ _ _ _ Hq H1 H2 H3 H4 HX He).
Defined.

End ParserMore.

(** ** Sessions *)

Module SessionFacts.
Import Js Content Store Pdf PdfSpec PdfTools HomePage HomePageSpec HomePageFacts.
Import PdfSpec2 PdfMore GenerationSpec GenerationMore SessionSpec TrimFacts.
Import StoreSpec (sameIdentity, updatesOf).
Import Parser (nonBlank).

Lemma lastItem_snoc (items : list StudyContent) (item : StudyContent) :
  lastItem (items ++ [item]) = Some item.
Proof. unfold lastItem. now rewrite rev_app_distr. Qed.

Lemma lastItem_map (f : StudyContent -> StudyContent) (items : list StudyContent) :
  lastItem (map f items) = option_map f (lastItem items).
Proof.
  unfold lastItem. rewrite <- map_rev. now destruct (rev items).
Qed.

(** *** What the home page adds *)

Lemma ingested_keeps_invariant now k body st st' :
  ingested now k body st st' -> nonBlank body = true ->
  sessionInvariant st -> sessionInvariant st'.
Proof.
  intros (item & Hc & Hcur & _ & _ & Hbody & _) Hnb [_ Hall].
  unfold sessionInvariant. rewrite Hc, Hcur, lastItem_snoc.
  split; [repeat split|]. apply Forall_app. split; [exact Hall|].
  constructor; [now rewrite Hbody | constructor].
Qed.

Lemma ingested_in_sync now k body st st' :
  ingested now k body st st' -> inSync st'.
Proof.
  intros (item & Hc & Hcur & _). unfold inSync.
  now rewrite Hc, Hcur, lastItem_snoc.
Qed.

Lemma onDrop_outcome env pdfAvailable now date files w st :
  fst (onDrop env pdfAvailable now date files w st) = st
  \/ exists body,
       ingested now pdf body st (fst (onDrop env pdfAvailable now date files w st))
       /\ nonBlank body = true.
Proof.
  unfold onDrop. destruct files as [|file files]; [now left|].
  destruct (negb (str_eqb (file_type file) (lit "application/pdf"))); [now left|].
  unfold processFile.
  destruct (valid (validatePDFFile (Some file))); cbn [negb]; [|now left].
  destruct pdfAvailable; cbn [negb]; [|now left].
  destruct (processPDFFile env file homePageOptions w) as [[r|[e|t]|] w'] eqn:E;
    cbn [fst]; try (now left).
  right. exists (text r). split; [apply addContent_ingested|].
  exact (resolved_text_nonBlank _ _ _ _ _ _ E).
Qed.

(** What an action of the home page does to the store: nothing, or it
    adds an item whose body is not blank and selects it. *)
Lemma home_outcome (h : History) (a : Action) :
  match a with askFor _ _ _ => False | _ => True end ->
  act h a = latest h
  \/ exists now k body,
       ingested now k body (latest h) (act h a) /\ nonBlank body = true.
Proof.
  destruct a as [env pa now date files w | now date url
                | now date localeDate textContent | k env earlier];
    intros Hhome; [| | |contradiction]; cbn [act].
  - destruct (onDrop_outcome env pa now date files w (latest h))
      as [-> | (body & Hi & Hn)]; [now left|].
    right. now exists now, pdf, body.
  - unfold processYouTube. fold (nonBlank url).
    destruct (nonBlank url); cbn [negb fst]; [|now left].
    destruct (extractVideoId url) as [videoId|]; cbn [fst]; [|now left].
    right. exists now, youtube, (mockTranscript videoId).
    split; [apply addContent_ingested | apply mockTranscript_nonBlank].
  - unfold processText. fold (nonBlank textContent).
    destruct (nonBlank textContent) eqn:Hn; cbn [negb fst]; [|now left].
    right. exists now, Content.text, textContent.
    split; [apply addContent_ingested | exact Hn].
Qed.

(** *** What a generation writes *)

(** The update of a generation leaves alone the fields that make the
    item. *)
Lemma update_keeps_identity (k : Generation.Kind) (u : Updates)
  (item : StudyContent) :
  updatesOf k u -> sameIdentity item (spread item u).
Proof. destruct k; intros [v ->]; repeat split. Qed.

Lemma sameIdentity_trans (a b c : StudyContent) :
  sameIdentity a b -> sameIdentity b c -> sameIdentity a c.
Proof. unfold sameIdentity. intuition congruence. Qed.

Lemma sameIdentity_sym (a b : StudyContent) :
  sameIdentity a b -> sameIdentity b a.
Proof. unfold sameIdentity. intuition congruence. Qed.

(** An update of a generation keeps the invariant of the sessions, from
    whatever render it is called and on whatever id. *)
Lemma update_keeps_invariant (k : Generation.Kind) (u : Updates)
  (render : option StudyContent) (id0 : str) (st : State) :
  updatesOf k u ->
  sessionInvariant st -> sessionInvariant (updateContent render id0 u st).
Proof.
  intros Hu [Hlast Hall]. unfold sessionInvariant, updateContent.
  cbn [contents currentContent]. split.
  - rewrite lastItem_map.
    destruct (currentContent st) as [cur|], (lastItem (contents st)) as [item|];
      try contradiction; [|now destruct (selectionHasId render id0)].
    cbn [option_map].
    assert (Hitem : sameIdentity
                      (if str_eqb (id item) id0 then spread item u else item)
                      item).
    { destruct (str_eqb (id item) id0); [|repeat split].
      apply sameIdentity_sym. now apply (update_keeps_identity k). }
    destruct (selectionHasId render id0).
    + eapply sameIdentity_trans; [exact Hitem|].
      eapply sameIdentity_trans; [exact Hlast|].
      now apply (update_keeps_identity k).
    + eapply sameIdentity_trans; [exact Hitem | exact Hlast].
  - apply Forall_map. eapply Forall_impl; [|exact Hall].
    intros item Hitem. cbn beta.
    destruct (str_eqb (id item) id0); [|exact Hitem].
    destruct (update_keeps_identity k u item Hu) as (_ & _ & _ & -> & _).
    exact Hitem.
Qed.

Lemma generation_keeps_invariant k env render st :
  sessionInvariant st ->
  sessionInvariant (fst (Generation.perform k env render st)).
Proof.
  intros Hinv.
  destruct (Generation.perform k env render st) as [st' t] eqn:E. cbn [fst].
  destruct t as [m|m].
  - now rewrite (StoreClaims.perform_failure k env render st st' _ E)
      by (intros []).
  - destruct (StoreClaims.perform_success k env render st st' _ E I)
      as (cur & u & _ & Hu & ->).
    now apply (update_keeps_invariant k).
Qed.

(** A generation that is answered at once keeps the selection and its
    stored copy together. *)
Lemma generation_in_sync k env st :
  inSync st -> inSync (fst (Generation.perform k env st st)).
Proof.
  unfold inSync. intros Hlast.
  destruct (Generation.perform k env st st) as [st' t] eqn:E. cbn [fst].
  destruct t as [m|m].
  - now rewrite (StoreClaims.perform_failure k env st st st' _ E)
      by (intros []).
  - destruct (StoreClaims.perform_success k env st st st' _ E I)
      as (cur & u & Hcur & Hu & ->).
    rewrite StoreClaims.updateContent_selection.
    unfold updateContent. cbn [contents].
    rewrite lastItem_map, <- Hlast, Hcur. cbn [option_map].
    now rewrite StoreFacts.str_eqb_refl.
Qed.

(** *** Sessions *)

Lemma act_keeps_invariant (h : History) (a : Action) :
  sessionInvariant (latest h) -> sessionInvariant (act h a).
Proof.
  intros Hinv.
  destruct a as [env pa now date files w | now date url
                | now date localeDate textContent | k env earlier].
  4: { cbn [act]. now apply generation_keeps_invariant. }
  all: match goal with |- sessionInvariant (act ?h0 ?a) =>
         destruct (home_outcome h0 a I) as [-> | (n & kind & body & Hi & Hn)]
       end;
    try exact Hinv;
    exact (ingested_keeps_invariant _ _ _ _ _ Hi Hn Hinv).
Qed.

Lemma renderOf_at_once (h : History) (env : Generation.Env) (earlier : nat) :
  earlier = 0 \/ Generation.isDeployed env = true ->
  renderOf h env earlier = latest h.
Proof.
  unfold renderOf, past, latest.
  destruct (Generation.isDeployed env); [reflexivity|].
  intros [-> | H]; [now destruct h | discriminate].
Qed.

Lemma act_in_sync (h : History) (a : Action) :
  answeredAtOnce a -> inSync (latest h) -> inSync (act h a).
Proof.
  intros Honce Hsync.
  destruct a as [env pa now date files w | now date url
                | now date localeDate textContent | k env earlier].
  4: { cbn [act]. cbn [answeredAtOnce] in Honce.
       rewrite renderOf_at_once by exact Honce.
       now apply generation_in_sync. }
  all: match goal with |- inSync (act ?h0 ?a) =>
         destruct (home_outcome h0 a I) as [-> | (n & kind & body & Hi & Hn)]
       end;
    try exact Hsync;
    exact (ingested_in_sync _ _ _ _ _ Hi).
Qed.

(** X30.  In every session, that is after any sequence of drops,
    submissions and generations from the empty store, whose responses
    may arrive after later actions, no stored item has a blank body and
    the selection is the item that was added last as far as its id,
    title, kind, body and date go.  When every response arrives before
    the next action, the selection has all its fields as they are
    stored. *)
Theorem session_invariant :
  forall actions,
    sessionInvariant (session actions)
    /\ (Forall answeredAtOnce actions -> inSync (session actions)).
Proof.
  intros actions. unfold session. split.
  - assert (G : forall h, sessionInvariant (latest h) ->
                          sessionInvariant (latest (fold_left record actions h))).
    { induction actions as [|a actions IH]; intros h H; [exact H|].
      cbn [fold_left]. apply IH. cbn [record latest hd].
      now apply act_keeps_invariant. }
    apply G. split; [exact I | constructor].
  - intros Honce.
    assert (G : forall h, inSync (latest h) ->
                          inSync (latest (fold_left record actions h))).
    { induction Honce as [|a actions Ha Hrest IH]; intros h H; [exact H|].
      cbn [fold_left]. apply IH. cbn [record latest hd].
      now apply act_in_sync. }
    apply G. reflexivity.
Qed.

(** A session in which a response arrives late: a text is submitted, a
    summary is asked for, a second text is submitted, and then the
    summary arrives.  The first item has the summary in the collection,
    and the selection, which is the second item, has it too, while its
    stored copy has none. *)
Lemma session_invariant_witness :
  Forall answeredAtOnce
    [submitText 1%N 1%N (lit "1/1/2024") (lit "First text.");
     askFor Generation.kSummary MoreExamples.answeringEnv 0]
  /\ inSync (session
               [submitText 1%N 1%N (lit "1/1/2024") (lit "First text.");
                askFor Generation.kSummary MoreExamples.answeringEnv 0])
  /\ sessionInvariant
       (session
          [submitText 1%N 1%N (lit "1/1/2024") (lit "First text.");
           submitText 2%N 2%N (lit "1/1/2024") (lit "Second text.");
           askFor Generation.kSummary MoreExamples.answeringEnv 1])
  /\ ~ inSync
       (session
          [submitText 1%N 1%N (lit "1/1/2024") (lit "First text.");
           submitText 2%N 2%N (lit "1/1/2024") (lit "Second text.");
           askFor Generation.kSummary MoreExamples.answeringEnv 1]).
Proof.
  assert (Honce : Forall answeredAtOnce
                    [submitText 1%N 1%N (lit "1/1/2024") (lit "First text.");
                     askFor Generation.kSummary MoreExamples.answeringEnv 0])
    by (repeat constructor).
  split; [exact Honce|].
  split; [exact (proj2 (session_invariant _) Honce)|].
  split; [exact (proj1 (session_invariant _))|].
  intros Hsync. vm_compute in Hsync. discriminate Hsync.
Defined.

End SessionFacts.
